(** * Little-Queen: the announcement and reminder engine of [index.js]

    A shallow embedding of the bot's store, its milestone engine
    ([runCheck]), its reminder queue ([schedulePing],
    [removeScheduledByGroupKey], [processScheduled]) and its dropdown
    selection flow ([interactionCreate], the [aoo] command), followed by
    the properties the specification states about them.

    Conventions of the embedding.
    - A valid JavaScript [Date] is its time value, an integer number of
      milliseconds since the epoch ([Z]).  Calendar events carry valid dates.
    - A JavaScript number is a [num]: NaN, an infinity or the exact value
      of a finite double.  [Number(string)] and the arithmetic of [Date.UTC]
      round to the nearest double, ties to even, and overflow to an
      infinity; the two zeros are not told apart (no operation of the source
      distinguishes them).
    - A JavaScript string is its UTF-8 encoding, a byte string.  White space
      recognised by [\s] and by [Number] is the WhiteSpace and
      LineTerminator of ECMAScript, in that encoding.
    - The messaging gateway, the file system and [Math.random] are an
      environment [Env] of oracles indexed by a counter kept in the world, so
      every call can succeed or fail independently.
    - Asynchronous functions are run to completion: interleavings of
      concurrent handlers are outside the embedding. *)

From Stdlib Require Import ZArith QArith Qpower List String Ascii Bool Lia
  DecimalString DecimalPos.
From stdpp Require Import base gmap strings list.

Local Open Scope Z_scope.

(* ================================================================= *)
(** ** JavaScript built-ins used by the source *)
(* ================================================================= *)

Module Js.

(** *** Time values (ECMAScript, "Time Values and Time Range") *)

Definition msPerDay : Z := 86400000.
Definition msPerHour : Z := 3600000.
Definition msPerMinute : Z := 60000.

Definition Day (t : Z) : Z := t / msPerDay.
Definition TimeWithinDay (t : Z) : Z := t mod msPerDay.

Definition DaysInYear (y : Z) : Z :=
  if (y mod 4 =? 0) && (negb (y mod 100 =? 0) || (y mod 400 =? 0))
  then 366 else 365.

Definition DayFromYear (y : Z) : Z :=
  365 * (y - 1970) + (y - 1969) / 4 - (y - 1901) / 100 + (y - 1601) / 400.

(** The year [y] with [DayFromYear y <= Day t < DayFromYear (y + 1)]: an
    estimate from the mean length of a Gregorian year (400 years are 146097
    days), corrected by at most one. *)
Definition YearFromDay (d : Z) : Z :=
  let y := 1970 + (d * 400) / 146097 in
  if d <? DayFromYear y then y - 1
  else if DayFromYear (y + 1) <=? d then y + 1
  else y.

Definition YearFromTime (t : Z) : Z := YearFromDay (Day t).

Definition InLeapYear (t : Z) : Z :=
  if DaysInYear (YearFromTime t) =? 366 then 1 else 0.

Definition DayWithinYear (t : Z) : Z := Day t - DayFromYear (YearFromTime t).

(** Day number, within its year, of the first day of month [m] (0 = January). *)
Definition monthStart (m leap : Z) : Z :=
  match m with
  | 0 => 0
  | 1 => 31
  | 2 => 59 + leap
  | 3 => 90 + leap
  | 4 => 120 + leap
  | 5 => 151 + leap
  | 6 => 181 + leap
  | 7 => 212 + leap
  | 8 => 243 + leap
  | 9 => 273 + leap
  | 10 => 304 + leap
  | _ => 334 + leap
  end.

Definition MonthFromTime (t : Z) : Z :=
  let d := DayWithinYear t in
  let l := InLeapYear t in
  if d <? 31 then 0
  else if d <? 59 + l then 1
  else if d <? 90 + l then 2
  else if d <? 120 + l then 3
  else if d <? 151 + l then 4
  else if d <? 181 + l then 5
  else if d <? 212 + l then 6
  else if d <? 243 + l then 7
  else if d <? 273 + l then 8
  else if d <? 304 + l then 9
  else if d <? 334 + l then 10
  else 11.

Definition DateFromTime (t : Z) : Z :=
  DayWithinYear t - monthStart (MonthFromTime t) (InLeapYear t) + 1.

Definition HourFromTime (t : Z) : Z := (t / msPerHour) mod 24.
Definition MinFromTime (t : Z) : Z := (t / msPerMinute) mod 60.

Definition MakeTime (hour min sec ms : Z) : Z :=
  hour * msPerHour + min * msPerMinute + sec * 1000 + ms.

Definition MakeDay (year month date : Z) : Z :=
  let ym := year + month / 12 in
  let mn := month mod 12 in
  let leap := if DaysInYear ym =? 366 then 1 else 0 in
  DayFromYear ym + monthStart mn leap + date - 1.

Definition MakeDate (day time : Z) : Z := day * msPerDay + time.

(** [TimeClip]: [None] is NaN. *)
Definition TimeClip (t : Z) : option Z :=
  if Z.abs t <=? 8640000000000000 then Some t else None.

(** *** Numbers: the finite doubles, the infinities and NaN *)

Inductive num : Type :=
| NaN
| Inf (negative : bool)
| Fin (q : Q).

Definition ofZ (z : Z) : num := Fin (inject_Z z).

(** [n / d] rounded to the nearest integer, ties to even ([0 <= n], [0 < d]). *)
Definition round_half_even (n d : Z) : Z :=
  let f := n / d in
  let r := n mod d in
  if 2 * r <? d then f
  else if d <? 2 * r then f + 1
  else if Z.even f then f else f + 1.

(** The largest [e] with [2 ^ e <= n / d] ([0 < n], [0 < d]). *)
Definition ilog2 (n d : Z) : Z :=
  let e := Z.log2 n - Z.log2 d in
  if (if 0 <=? e then d * 2 ^ e <=? n else d <=? n * 2 ^ (- e)) then e else e - 1.

(** The Number value for a real number (IEEE 754 binary64, round to nearest,
    ties to even): a significand of at most 53 bits over an exponent that is
    at least -1074; from 2^1024 on the result is an infinity. *)
Definition round_double (q : Q) : num :=
  let r := Qred q in
  let n := Z.abs (Qnum r) in
  let d := Zpos (Qden r) in
  if n =? 0 then Fin 0 else
  let e := Z.max (ilog2 n d - 52) (-1074) in
  let m := if 0 <=? e then round_half_even n (d * 2 ^ e)
           else round_half_even (n * 2 ^ (- e)) d in
  if (971 <? e) || ((e =? 971) && (m =? 2 ^ 53)) then Inf (Qnum r <? 0)
  else Fin (Qred (inject_Z (Z.sgn (Qnum r) * m) * Qpower 2 e)).

(** [ToIntegerOrInfinity] on a finite number: truncation towards zero. *)
Definition trunc (q : Q) : Z := Z.quot (Qnum q) (Zpos (Qden q)).

Definition finite (n : num) : option Z :=
  match n with Fin q => Some (trunc q) | _ => None end.

(** [n - k] for an integer constant [k]. *)
Definition num_sub (n : num) (k : Z) : num :=
  match n with Fin q => round_double (q - inject_Z k) | other => other end.

(** [t >= n] and [t < n] for a time value [t]; false as soon as [n] is NaN. *)
Definition ge_num (t : Z) (n : num) : bool :=
  match n with
  | NaN => false
  | Inf negative => negative
  | Fin q => Qle_bool q (inject_Z t)
  end.

Definition lt_num (t : Z) (n : num) : bool :=
  match n with
  | NaN => false
  | Inf negative => negb negative
  | Fin q => negb (Qle_bool q (inject_Z t))
  end.

(** [MakeFullYear]: years 0 to 99 mean 1900 to 1999. *)
Definition MakeFullYear (y : Z) : Z :=
  if (0 <=? y) && (y <=? 99) then 1900 + y else y.

(** *** [Date.UTC] on numbers

    [Date.UTC(year, month, date, hours, 0, 0, 0)] as Node's V8 computes it,
    every operation on doubles.  ECMAScript's [MakeDay] returns NaN "if this
    is not possible (because some argument is out of range)"; V8 takes a
    year within a million years and a month within ten million months of
    the epoch. *)

(** The year argument: a year that truncates to 0..99 means 1900..1999. *)
Definition full_year (year : num) : num :=
  match year with
  | Fin q => if (0 <=? trunc q) && (trunc q <=? 99) then ofZ (1900 + trunc q) else year
  | other => other
  end.

Definition MakeDay_num (year month date : num) : num :=
  match year, month, date with
  | Fin y, Fin m, Fin dt =>
      if Qle_bool (inject_Z (-1000000)) y && Qle_bool y (inject_Z 1000000) &&
         Qle_bool (inject_Z (-10000000)) m && Qle_bool m (inject_Z 10000000)
      then round_double (inject_Z (MakeDay (trunc y) (trunc m) 0) + inject_Z (trunc dt))
      else NaN
  | _, _, _ => NaN
  end.

Definition MakeTime_num (hour : num) : num :=
  match hour with
  | Fin h => round_double (inject_Z (trunc h) * inject_Z msPerHour)
  | _ => NaN
  end.

Definition MakeDate_num (day time : num) : num :=
  match day, time with
  | Fin d, Fin t =>
      match round_double (d * inject_Z msPerDay) with
      | Fin p => round_double (t + p)
      | other => other
      end
  | _, _ => NaN
  end.

(** [TimeClip] of a number: [None] is NaN. *)
Definition TimeClip_num (time : num) : option Z :=
  match time with
  | Fin q =>
      if Qle_bool (inject_Z (-8640000000000000)) q && Qle_bool q (inject_Z 8640000000000000)
      then Some (trunc q) else None
  | _ => None
  end.

(** [Date.UTC(year, month, date, hours, 0, 0, 0)]; [None] is NaN. *)
Definition Date_UTC (year month date hours : num) : option Z :=
  TimeClip_num
    (MakeDate_num (MakeDay_num (full_year year) month date) (MakeTime_num hours)).

(** *** Strings *)

Definition code (c : ascii) : Z := Z.of_nat (nat_of_ascii c).

(** The white space of ECMAScript, matched by [\s] and trimmed by [Number]:
    WhiteSpace and LineTerminator.  In UTF-8 these are the bytes 09 to 0D
    and 20, and the sequences C2 A0 (U+00A0), E1 9A 80 (U+1680), E2 80 80
    to E2 80 8A (U+2000 to U+200A), E2 80 A8 and E2 80 A9 (U+2028, U+2029),
    E2 80 AF (U+202F), E2 81 9F (U+205F), E3 80 80 (U+3000) and EF BB BF
    (U+FEFF). *)
Definition is_space (c : ascii) : bool :=
  (code c =? 32) || ((9 <=? code c) && (code c <=? 13)).

Definition is_space2 (a b : ascii) : bool :=
  (code a =? 194) && (code b =? 160).

Definition is_space3 (a b c : ascii) : bool :=
  ((code a =? 225) && (code b =? 154) && (code c =? 128)) ||
  ((code a =? 226) && (code b =? 128) &&
     (((128 <=? code c) && (code c <=? 138)) ||
      (code c =? 168) || (code c =? 169) || (code c =? 175))) ||
  ((code a =? 226) && (code b =? 129) && (code c =? 159)) ||
  ((code a =? 227) && (code b =? 128) && (code c =? 128)) ||
  ((code a =? 239) && (code b =? 187) && (code c =? 191)).

(** What follows the white-space character at the head of [l], if [l]
    starts with one. *)
Definition strip_space (l : list ascii) : option (list ascii) :=
  match l with
  | a :: r1 =>
      if is_space a then Some r1 else
      match r1 with
      | b :: r2 =>
          if is_space2 a b then Some r2 else
          match r2 with
          | c :: r3 => if is_space3 a b c then Some r3 else None
          | [] => None
          end
      | [] => None
      end
  | [] => None
  end.

(** The same for the white-space character at the end of a string that is
    given last byte first. *)
Definition strip_space_rev (l : list ascii) : option (list ascii) :=
  match l with
  | c :: r1 =>
      if is_space c then Some r1 else
      match r1 with
      | b :: r2 =>
          if is_space2 b c then Some r2 else
          match r2 with
          | a :: r3 => if is_space3 a b c then Some r3 else None
          | [] => None
          end
      | [] => None
      end
  | [] => None
  end.

(** Strips for as long as [strip] succeeds; [fuel] bounds the number of
    characters stripped. *)
Fixpoint strip_all (strip : list ascii → option (list ascii)) (fuel : nat)
    (l : list ascii) : list ascii :=
  match fuel with
  | O => l
  | S fuel' =>
      match strip l with
      | Some r => strip_all strip fuel' r
      | None => l
      end
  end.

(** The string without its leading white space. *)
Definition trim_left (l : list ascii) : list ascii :=
  strip_all strip_space (length l) l.

(** The string without its leading and trailing white space. *)
Definition trim (l : list ascii) : list ascii :=
  let l' := rev (trim_left l) in
  rev (strip_all strip_space_rev (length l') l').

Definition is_upper (c : ascii) : bool := (65 <=? code c) && (code c <=? 90).
Definition is_lower (c : ascii) : bool := (97 <=? code c) && (code c <=? 122).
Definition is_digit (c : ascii) : bool := (48 <=? code c) && (code c <=? 57).

Definition lower_char (c : ascii) : ascii :=
  if is_upper c then ascii_of_nat (nat_of_ascii c + 32) else c.

(** [s.toLowerCase()] for a string whose letters are the letters A to Z, as
    the words the source applies it to; other bytes are kept. *)
Fixpoint toLowerCase (s : string) : string :=
  match s with
  | EmptyString => EmptyString
  | String c r => String (lower_char c) (toLowerCase r)
  end.

(** The line feed of a template literal. *)
Definition nl : string := String (ascii_of_nat 10) EmptyString.

(** [parts.join(sep)] *)
Fixpoint join (sep : string) (parts : list string) : string :=
  match parts with
  | [] => EmptyString
  | [p] => p
  | p :: rest => p +:+ sep +:+ join sep rest
  end.

(** [s.split(sep)] for a one-character separator: never empty. *)
Fixpoint split (sep : ascii) (s : string) : list string :=
  match s with
  | EmptyString => [EmptyString]
  | String c r =>
      if Ascii.eqb c sep then EmptyString :: split sep r
      else match split sep r with
           | p :: ps => String c p :: ps
           | [] => [String c EmptyString]
           end
  end.

(** [s.startsWith(p)] *)
Definition startsWith (s p : string) : bool := String.prefix p s.

(** [String(n)] and [`${n}`] for an integer [n]. *)
Definition String_ (n : Z) : string := NilZero.string_of_int (Z.to_int n).

(** [s.padStart(2, "0")] *)
Definition padStart2 (s : string) : string :=
  match s with
  | EmptyString => "00"
  | String c EmptyString => String "0" s
  | _ => s
  end.

(** Truthiness of a value that is [null]/[undefined] or a string. *)
Definition truthy (v : option string) : bool :=
  match v with
  | Some (String _ _) => true
  | _ => false
  end.

(** *** [Number(string)]: the StringNumericLiteral grammar *)

Definition digit_value (base : Z) (c : ascii) : option Z :=
  let v :=
    if is_digit c then Some (code c - 48)
    else if is_lower c then Some (code c - 87)
    else if is_upper c then Some (code c - 55)
    else None in
  match v with
  | Some d => if d <? base then Some d else None
  | None => None
  end.

(** Reads the longest run of digits: its value, its length, what follows. *)
Fixpoint digits (base : Z) (l : list ascii) (acc : Z) (n : nat)
  : Z * nat * list ascii :=
  match l with
  | c :: r =>
      match digit_value base c with
      | Some d => digits base r (acc * base + d) (S n)
      | None => (acc, n, l)
      end
  | [] => (acc, n, l)
  end.


Definition radix_literal (base : Z) (l : list ascii) : num :=
  match digits base l 0 0%nat with
  | (v, S _, []) => round_double (inject_Z v)
  | _ => NaN
  end.

Definition exponent (l : list ascii) : option Z :=
  let '(neg, r) :=
    match l with
    | "+"%char :: r => (false, r)
    | "-"%char :: r => (true, r)
    | _ => (false, l)
    end in
  match digits 10 r 0 0%nat with
  | (v, S _, []) => Some (if neg then - v else v)
  | _ => None
  end.

Definition unsigned_decimal (l : list ascii) : num :=
  if decide (l = list_ascii_of_string "Infinity") then Inf false else
  let '(ip, ni, r1) := digits 10 l 0 0%nat in
  let '(fp, nf, r2) :=
    match r1 with
    | "."%char :: r => digits 10 r 0 0%nat
    | _ => (0, 0%nat, r1)
    end in
  if decide ((ni + nf)%nat = 0%nat) then NaN else
  let mantissa : Q :=
    (inject_Z (ip * 10 ^ Z.of_nat nf + fp) / inject_Z (10 ^ Z.of_nat nf))%Q in
  match r2 with
  | [] => round_double mantissa
  | c :: r3 =>
      if Ascii.eqb c "e" || Ascii.eqb c "E" then
        match exponent r3 with
        | Some e => round_double (mantissa * Qpower (inject_Z 10) e)
        | None => NaN
        end
      else NaN
  end.

Definition negate (n : num) : num :=
  match n with
  | NaN => NaN
  | Inf negative => Inf (negb negative)
  | Fin q => Fin (- q)%Q
  end.

Definition Number_ (s : string) : num :=
  match trim (list_ascii_of_string s) with
  | [] => ofZ 0
  | "0"%char :: "x"%char :: r | "0"%char :: "X"%char :: r => radix_literal 16 r
  | "0"%char :: "o"%char :: r | "0"%char :: "O"%char :: r => radix_literal 8 r
  | "0"%char :: "b"%char :: r | "0"%char :: "B"%char :: r => radix_literal 2 r
  | "+"%char :: r => unsigned_decimal r
  | "-"%char :: r => negate (unsigned_decimal r)
  | l => unsigned_decimal l
  end.

End Js.

Import Js.

(* ================================================================= *)
(** ** The persisted document and the world around it *)
(* ================================================================= *)

(** A reminder job of [state.scheduled]. *)
Record Job : Type := mkJob {
  job_id : string;
  channelId : string;
  runAtMs : Z;
  message : string;
  sent : bool;
  groupKey : option string;
}.

(** [state.config]: every identifier is [null] or a string. *)
Record Config : Type := mkConfig {
  pingChannelId : option string;
  accessRoleId : option string;
  aooTeamRoleId : option string;
  mgeChannelId : option string;
  mgeRoleId : option string;
}.

(** The document [state]: the queue, the configuration, and the milestone
    flags, which the source keeps as top-level properties next to
    [scheduled] and [config] (a flag key starts with [AOO_REG_] or [MGE_],
    so it is neither of the two). *)
Record State : Type := mkState {
  scheduled : list Job;
  config : Config;
  flags : gmap string bool;
}.

(** [state[key]] read as a condition. *)
Definition flag (st : State) (key : string) : bool :=
  match flags st !! key with
  | Some b => b
  | None => false
  end.

(** A calendar entry returned by [ical.fromURL]. *)
Record Event : Type := mkEvent {
  ev_type : string;
  ev_uid : option string;
  ev_id : option string;
  ev_description : option string;
  ev_summary : option string;
  ev_location : option string;
  ev_start : Z;
  ev_end : Z;
}.

(** What [client.channels.fetch] resolves to. *)
Inductive Channel : Type :=
| NoChannel        (* [null] *)
| NonTextChannel   (* [isTextBased()] is false *)
| TextChannel.

(** Why a message was sent to a channel: the milestone flag that guarded the
    announcement, or the reminder job (ghost information, not part of the
    payload). *)
Inductive Cause : Type :=
| Milestone (key : string)
| Reminder (job : string).

Record Delivery : Type := mkDelivery {
  to : string;
  body : string;
  cause : Cause;
}.

(** A select menu: its custom id (the correlation token), its placeholder
    and its options (label, value). *)
Record Menu : Type := mkMenu {
  customId : string;
  placeholder : string;
  options : list (string * string);
}.

(** An answer shown to the user. *)
Inductive Response : Type :=
| Reply (content : string) (ephemeral : bool) (components : list Menu)
| Update (content : string) (components : list Menu).

(** The process environment and the outside world as oracles.  The index is
    the number of oracle consultations made so far ([tick]). *)
Record Env : Type := mkEnv {
  PING : string;
  fetch_channel : nat → string → option Channel;  (* [None]: the fetch rejects *)
  send_ok : nat → bool;
  reply_ok : nat → bool;
  write_ok : nat → bool;
  random : nat → string;
  number_toString : Q → string;  (* [`${n}`] for a number that is not an
                                    integer below 10^21 *)
}.

Record World : Type := mkWorld {
  state : State;              (* the in-memory document *)
  file : option State;        (* the content of state.json, if written *)
  saves : nat;                (* calls of saveState *)
  runCheckRunning : bool;
  outbox : list Delivery;     (* messages delivered to channels, oldest first *)
  responses : list Response;  (* answers delivered to users, oldest first *)
  console : list string;      (* console.error lines, oldest first *)
  tick : nat;
}.

Definition with_state (f : State → State) (w : World) : World :=
  mkWorld (f (state w)) (file w) (saves w) (runCheckRunning w)
          (outbox w) (responses w) (console w) (tick w).

Definition with_running (b : bool) (w : World) : World :=
  mkWorld (state w) (file w) (saves w) b
          (outbox w) (responses w) (console w) (tick w).

Definition next_tick (w : World) : World :=
  mkWorld (state w) (file w) (saves w) (runCheckRunning w)
          (outbox w) (responses w) (console w) (S (tick w)).

Definition set_scheduled (l : list Job) (st : State) : State :=
  mkState l (config st) (flags st).

Definition set_config (c : Config) (st : State) : State :=
  mkState (scheduled st) c (flags st).

(** [state[key] = true] *)
Definition set_flag (key : string) (st : State) : State :=
  mkState (scheduled st) (config st) (<[key := true]> (flags st)).

(** *** A state and exception monad for the handlers *)

Inductive result (A : Type) : Type :=
| Ok (a : A)
| Throw (e : string).
Arguments Ok {A} a.
Arguments Throw {A} e.

Definition M (A : Type) : Type := World → result A * World.

Global Instance M_ret : MRet M := λ A a w, (Ok a, w).

Global Instance M_bind : MBind M := λ A B f m w,
  match m w with
  | (Ok a, w') => f a w'
  | (Throw e, w') => (Throw e, w')
  end.

Definition throw {A} (e : string) : M A := λ w, (Throw e, w).

(** [try { body } catch (e) { handler }] *)
Definition try_catch {A} (body : M A) (handler : string → M A) : M A := λ w,
  match body w with
  | (Ok a, w') => (Ok a, w')
  | (Throw e, w') => handler e w'
  end.

(** [try { body } finally { cleanup }] for a cleanup that cannot throw. *)
Definition try_finally {A} (body : M A) (cleanup : World → World) : M A := λ w,
  let '(r, w') := body w in (r, cleanup w').

Definition get_state : M State := λ w, (Ok (state w), w).
Definition modify_state (f : State → State) : M unit := λ w, (Ok tt, with_state f w).

(** [if (c) { body }] *)
Definition when (c : bool) (body : M unit) : M unit :=
  if c then body else mret tt.

(** [console.error(...)] *)
Definition console_error (line : string) : M unit := λ w,
  (Ok tt, mkWorld (state w) (file w) (saves w) (runCheckRunning w)
                  (outbox w) (responses w) (console w ++ [line]) (tick w)).

(** [saveState]: the write may fail, which is logged and swallowed. *)
Definition saveState (env : Env) : M unit := λ w,
  if write_ok env (tick w) then
    (Ok tt, mkWorld (state w) (Some (state w)) (S (saves w)) (runCheckRunning w)
                    (outbox w) (responses w) (console w) (S (tick w)))
  else
    (Ok tt, mkWorld (state w) (file w) (S (saves w)) (runCheckRunning w)
                    (outbox w) (responses w)
                    (console w ++ ["Failed to save state:"]) (S (tick w))).

(** [await client.channels.fetch(id)] *)
Definition channels_fetch (env : Env) (id : string) : M Channel := λ w,
  match fetch_channel env (tick w) id with
  | Some ch => (Ok ch, next_tick w)
  | None => (Throw "channels.fetch", next_tick w)
  end.

(** [await channel.send(text)] on a text channel. *)
Definition channel_send (env : Env) (ch : string) (text : string) (why : Cause)
  : M unit := λ w,
  if send_ok env (tick w) then
    (Ok tt, mkWorld (state w) (file w) (saves w) (runCheckRunning w)
                    (outbox w ++ [mkDelivery ch text why]) (responses w)
                    (console w) (S (tick w)))
  else (Throw "channel.send", next_tick w).

(** [await interaction.reply], [interaction.update], [msg.reply] *)
Definition respond (env : Env) (r : Response) : M unit := λ w,
  if reply_ok env (tick w) then
    (Ok tt, mkWorld (state w) (file w) (saves w) (runCheckRunning w)
                    (outbox w) (responses w ++ [r]) (console w) (S (tick w)))
  else (Throw "reply", next_tick w).

(** [Math.random().toString(16).slice(2)] *)
Definition Math_random (env : Env) : M string := λ w,
  (Ok (random env (tick w)), next_tick w).

(* ================================================================= *)
(** ** Helpers *)
(* ================================================================= *)

Definition getPingChannelId (st : State) (fallbackFromMessageChannelId : option string)
  : option string :=
  if truthy (pingChannelId (config st)) then pingChannelId (config st)
  else if truthy fallbackFromMessageChannelId then fallbackFromMessageChannelId
  else None.

Definition getAooRoleMention (st : State) : string :=
  match aooTeamRoleId (config st) with
  | Some (String _ _ as r) => "<@&" +:+ r +:+ ">"
  | _ => ""
  end.

Definition getMgeChannelMention (st : State) : string :=
  match mgeChannelId (config st) with
  | Some (String _ _ as c) => "<#" +:+ c +:+ ">"
  | _ => "**[MGE channel not set]**"
  end.

Definition getMgeRoleMention (st : State) : string :=
  match mgeRoleId (config st) with
  | Some (String _ _ as r) => "<@&" +:+ r +:+ ">"
  | _ => "**[MGE role not set]**"
  end.

(** The regular expression [/Type:\s*([a-z0-9_]+)/i]. *)
Definition is_word (c : ascii) : bool :=
  is_lower c || is_upper c || is_digit c || Ascii.eqb c "_".

(** [\s*]: the string after its leading white space. *)
Definition skip_spaces (s : string) : string :=
  string_of_list_ascii (trim_left (list_ascii_of_string s)).

Fixpoint take_word (s : string) : string :=
  match s with
  | String c r => if is_word c then String c (take_word r) else EmptyString
  | EmptyString => EmptyString
  end.

(** A match starting at the first character of [s]: the captured group. *)
Definition match_here (s : string) : option string :=
  if String.eqb (toLowerCase (String.substring 0 5 s)) "type:" then
    match take_word (skip_spaces (String.substring 5 (String.length s - 5) s)) with
    | EmptyString => None
    | w => Some w
    end
  else None.

(** The leftmost match in [s]. *)
Fixpoint regex_match (s : string) : option string :=
  match match_here s with
  | Some w => Some w
  | None =>
      match s with
      | String _ r => regex_match r
      | EmptyString => None
      end
  end.

(** [getEventType] applied to a calendar entry. *)
Definition getEventType (ev : Event) : option string :=
  let text :=
    join nl (omap (λ f, if truthy f then f else None)
                  [ev_description ev; ev_summary ev; ev_location ev]) in
  match regex_match text with
  | Some m => Some (toLowerCase m)
  | None => None
  end.

Definition isoDateUTC (d : Z) : string :=
  let yyyy := String_ (YearFromTime d) in
  let mm := padStart2 (String_ (MonthFromTime d + 1)) in
  let dd := padStart2 (String_ (DateFromTime d)) in
  yyyy +:+ "-" +:+ mm +:+ "-" +:+ dd.

Definition formatUTC (d : Z) : string :=
  let yyyy := String_ (YearFromTime d) in
  let mm := padStart2 (String_ (MonthFromTime d + 1)) in
  let dd := padStart2 (String_ (DateFromTime d)) in
  let hh := padStart2 (String_ (HourFromTime d)) in
  let mi := padStart2 (String_ (MinFromTime d)) in
  yyyy +:+ "-" +:+ mm +:+ "-" +:+ dd +:+ " " +:+ hh +:+ ":" +:+ mi +:+ " UTC".

Definition addHours (date : Z) (h : Z) : Z := date + h * 3600000.

(** [ev?.uid || ev?.id || "no_uid"] *)
Definition uid_of (ev : Event) : string :=
  match ev_uid ev, ev_id ev with
  | Some (String _ _ as u), _ => u
  | _, Some (String _ _ as i) => i
  | _, _ => "no_uid"
  end.

Definition makeKey (prefix : string) (ev : Event) (suffix : string) : string :=
  let uid := uid_of ev in
  let day := isoDateUTC (ev_start ev) in
  prefix +:+ "_" +:+ uid +:+ "_" +:+ day +:+ "_" +:+ suffix.

(** [fetchEvents]: the feed is [None] when [ical.fromURL] rejects. *)
Definition fetchEvents (feed : option (list Event)) : M (list Event) :=
  match feed with
  | Some data => mret (List.filter (λ e, String.eqb (ev_type e) "VEVENT") data)
  | None => throw "ical.fromURL"
  end.

(* ================================================================= *)
(** ** Messages *)
(* ================================================================= *)

Definition aooOpenMsg (st : State) : string :=
  let role := getAooRoleMention st in
  match role with
  | String _ _ =>
      "AOO registration is opened, reach out to " +:+ role +:+ " for registration!"
  | EmptyString =>
      "AOO registration is opened. Reach out to the AOO team for registration!"
  end.
Definition aooWarnMsg : string :=
  "AOO registration will close soon, be sure you are registered!".
Definition aooClosedMsg : string := "AOO registration closed".

Definition mgeOpenMsg (st : State) : string :=
  "MGE registration is open, register in " +:+ getMgeChannelMention st +:+
  " channel, or reach out to " +:+ getMgeRoleMention st +:+ " !".
Definition mgeWarnMsg : string :=
  "MGE registration closes in 24 hours, don’t forget to apply!".
Definition mgeClosedMsg : string := "MGE registration is closed".

(* ================================================================= *)
(** ** Scheduled reminders *)
(* ================================================================= *)

Definition schedulePing (env : Env) (channel : string) (runAt : Z)
    (text : string) (group : option string) : M unit :=
  r ← Math_random env;
  let id := channel +:+ "_" +:+ String_ runAt +:+ "_" +:+ r in
  modify_state (λ st,
    set_scheduled (scheduled st ++ [mkJob id channel runAt text false group]) st);;
  saveState env.

(** [x.sent || x.groupKey !== groupKey] *)
Definition survives (group : option string) (x : Job) : bool :=
  sent x || negb (bool_decide (groupKey x = group)).

Definition removeScheduledByGroupKey (env : Env) (group : option string) : M nat :=
  if negb (truthy group) then mret 0%nat else
  st ← get_state;
  let before := length (scheduled st) in
  modify_state (set_scheduled (List.filter (survives group) (scheduled st)));;
  st' ← get_state;
  let removed := (before - length (scheduled st'))%nat in
  when (negb (removed =? 0)%nat) (saveState env);;
  mret removed.

(** [item.sent = true] on the [i]-th job of the queue. *)
Definition mark (x : Job) : Job :=
  mkJob (job_id x) (channelId x) (runAtMs x) (message x) true (groupKey x).

Definition mark_sent (i : nat) (st : State) : State :=
  set_scheduled (alter mark i (scheduled st)) st.

(** The [try] block of the sweep: fetch the channel and send. *)
Definition deliver (env : Env) (item : Job) : M unit :=
  try_catch
    (ch ← channels_fetch env (channelId item);
     match ch with
     | TextChannel => channel_send env (channelId item) (message item)
                                   (Reminder (job_id item))
     | _ => mret tt
     end)
    (λ e, console_error "Failed to send scheduled ping:").

(** One iteration of [for (const item of state.scheduled)]: whether
    [changed] was set. *)
Definition sweep_item (env : Env) (nowMs : Z) (i : nat) : M bool :=
  st ← get_state;
  match scheduled st !! i with
  | None => mret false
  | Some item =>
      if sent item then mret false
      else if nowMs <? runAtMs item then mret false
      else
        deliver env item;;
        modify_state (mark_sent i);;
        mret true
  end.

Fixpoint sweep_loop (env : Env) (nowMs : Z) (indices : list nat) (changed : bool)
  : M bool :=
  match indices with
  | [] => mret changed
  | i :: rest =>
      c ← sweep_item env nowMs i;
      sweep_loop env nowMs rest (changed || c)
  end.

Definition processScheduled (env : Env) (nowMs : Z) : M unit :=
  st0 ← get_state;
  changed ← sweep_loop env nowMs (seq 0 (length (scheduled st0))) false;
  st ← get_state;
  let before := length (scheduled st) in
  modify_state (set_scheduled (List.filter (λ x, negb (sent x)) (scheduled st)));;
  st' ← get_state;
  let changed := changed || negb (length (scheduled st') =? before)%nat in
  when changed (saveState env).

(* ================================================================= *)
(** ** Announcements *)
(* ================================================================= *)

(** The body of a milestone's [if]: send, set the flag, save. *)
Definition fire (env : Env) (channel key text : string) : M unit :=
  channel_send env channel text (Milestone key);;
  modify_state (set_flag key);;
  saveState env.

(** The body of [for (const ev of events)]. *)
Definition announce (env : Env) (channel : string) (now : Z) (ev : Event) : M unit :=
  match getEventType ev with
  | None => mret tt
  | Some type =>
      let start := ev_start ev in
      let end_ := ev_end ev in
      when (String.eqb type "ark_registration") (
        let openKey := makeKey "AOO_REG" ev "open_at_start" in
        let warnKey := makeKey "AOO_REG" ev "6h_before_end" in
        let closeKey := makeKey "AOO_REG" ev "closed_at_end" in
        let warnTime := addHours end_ (-6) in
        st ← get_state;
        when (negb (flag st openKey) && (start <=? now))
          (fire env channel openKey (PING env +:+ nl +:+ aooOpenMsg st));;
        st ← get_state;
        when (negb (flag st warnKey) && (warnTime <=? now) && (now <? end_))
          (fire env channel warnKey (PING env +:+ nl +:+ aooWarnMsg));;
        st ← get_state;
        when (negb (flag st closeKey) && (end_ <=? now))
          (fire env channel closeKey (PING env +:+ nl +:+ aooClosedMsg)));;
      when (String.eqb type "mge") (
        let openKey := makeKey "MGE" ev "open_24h_after_end" in
        let warnKey := makeKey "MGE" ev "48h_before_start_warn_close_24h" in
        let closeKey := makeKey "MGE" ev "closed_24h_before_start" in
        let openTime := addHours end_ 24 in
        let warnTime := addHours start (-48) in
        let closeTime := addHours start (-24) in
        st ← get_state;
        when (negb (flag st openKey) && (openTime <=? now))
          (fire env channel openKey (PING env +:+ nl +:+ mgeOpenMsg st));;
        st ← get_state;
        when (negb (flag st warnKey) && (warnTime <=? now) && (now <? closeTime))
          (fire env channel warnKey (PING env +:+ nl +:+ mgeWarnMsg));;
        st ← get_state;
        when (negb (flag st closeKey) && (closeTime <=? now) && (now <? start))
          (fire env channel closeKey (PING env +:+ nl +:+ mgeClosedMsg)))
  end.

Fixpoint for_each {A} (body : A → M unit) (l : list A) : M unit :=
  match l with
  | [] => mret tt
  | x :: rest => body x;; for_each body rest
  end.

(** The [try] block of [runCheck]. *)
Definition runCheck_body (env : Env) (now : Z) (feed : option (list Event)) : M unit :=
  st ← get_state;
  match getPingChannelId st None with
  | Some (String _ _ as pingChannel) =>
      channel ← channels_fetch env pingChannel;
      match channel with
      | TextChannel =>
          events ← fetchEvents feed;
          for_each (announce env pingChannel now) events
      | _ => mret tt
      end
  | _ => mret tt
  end.

(** [runCheck] at the instant [now], the calendar answering [feed]. *)
Definition runCheck (env : Env) (now : Z) (feed : option (list Event)) : M unit := λ w,
  if runCheckRunning w then (Ok tt, w) else
  try_finally
    (try_catch (runCheck_body env now feed) (λ e, console_error "runCheck error:"))
    (with_running false)
    (with_running true w).

(* ================================================================= *)
(** ** The dropdown flow *)
(* ================================================================= *)

Definition AOO_TYPES : list string := ["ark_battle"; "aoo"].

(** [AOO_TYPES.has(getEventType(ev))] *)
Definition is_aoo_run (ev : Event) : bool :=
  match getEventType ev with
  | Some t => bool_decide (t ∈ AOO_TYPES)
  | None => false
  end.

Record Run : Type := mkRun {
  run_uid : string;
  run_start : Z;
  run_end : Z;
}.

(** [Array.prototype.sort] with a comparator: a stable sort. *)
Fixpoint insert_sorted {A} (cmp : A → A → Z) (x : A) (l : list A) : list A :=
  match l with
  | [] => [x]
  | y :: r => if cmp x y <=? 0 then x :: l else y :: insert_sorted cmp x r
  end.

Definition sort {A} (cmp : A → A → Z) (l : list A) : list A :=
  foldr (insert_sorted cmp) [] l.

Definition getNextAooRunEvent (now : Z) (feed : option (list Event))
  : M (option Run) :=
  events ← fetchEvents feed;
  let aoo :=
    sort (λ a b, run_start a - run_start b)
      (List.filter (λ x, now <? run_end x)
        (map (λ ev, mkRun (uid_of ev) (ev_start ev) (ev_end ev))
          (List.filter is_aoo_run events))) in
  mret (head aoo).

(** [Date.UTC(d.getUTCFullYear(), d.getUTCMonth(), d.getUTCDate(), 0, 0, 0)] *)
Definition utc_midnight (d : Z) : option Z :=
  Date_UTC (ofZ (YearFromTime d)) (ofZ (MonthFromTime d)) (ofZ (DateFromTime d))
           (ofZ 0).

(** [d.setUTCDate(d.getUTCDate() + 1)]: the new time value. *)
Definition next_utc_date (d : Z) : option Z :=
  TimeClip (MakeDate (MakeDay (YearFromTime d) (MonthFromTime d) (DateFromTime d + 1))
                     (TimeWithinDay d)).

(** The [while (d < endDay)] loop; [None] when the fuel does not suffice. *)
Fixpoint dates_loop (fuel : nat) (d endDay : option Z) (dates : list Z)
  : option (list Z) :=
  match d, endDay with
  | Some t, Some e =>
      if t <? e then
        match fuel with
        | S fuel' => dates_loop fuel' (next_utc_date t) endDay (dates ++ [t])
        | O => None
        end
      else Some dates
  | _, _ => Some dates   (* a comparison with an invalid date is false *)
  end.

(** [listUtcDatesInRange], with one unit of fuel for each day between the
    two midnights. *)
Definition listUtcDatesInRange (start end_ : Z) : option (list Z) :=
  let d := utc_midnight start in
  let endDay := utc_midnight end_ in
  let fuel :=
    match d, endDay with
    | Some t, Some e => Z.to_nat ((e - t) / msPerDay + 1)
    | _, _ => O
    end in
  dates_loop fuel d endDay [].

Definition buildDateSelect (startMs endMs : Z) (dates : list Z) : Menu :=
  let options := map (λ d, (isoDateUTC d, isoDateUTC d)) (take 25 dates) in
  mkMenu ("aoo_date|" +:+ String_ startMs +:+ "|" +:+ String_ endMs)
         "Select AOO date (UTC)" options.

(** [`${n}`] for a number. *)
Definition show_num (env : Env) (n : num) : string :=
  match n with
  | NaN => "NaN"
  | Inf false => "Infinity"
  | Inf true => "-Infinity"
  | Fin q =>
      let r := Qred q in
      if (Zpos (Qden r) =? 1) && (Z.abs (Qnum r) <? 10 ^ 21) then String_ (Qnum r)
      else number_toString env q
  end.

(** [Number(x)] for a value that may be [undefined]. *)
Definition Number_opt (x : option string) : num :=
  match x with
  | Some s => Number_ s
  | None => NaN
  end.

(** [const [yyyy, mm, dd] = dateISO.split("-").map((x) => Number(x))], then
    [Date.UTC(yyyy, mm - 1, dd, hour, 0, 0, 0)]. *)
Definition instant_of (dateISO : string) (hour : num) : option Z :=
  let ymd := map Number_ (split "-" dateISO) in
  let yyyy := default NaN (ymd !! 0%nat) in
  let mm := default NaN (ymd !! 1%nat) in
  let dd := default NaN (ymd !! 2%nat) in
  Date_UTC yyyy (num_sub mm 1) dd hour.

(** [t >= startMs && t < endMs] for a possibly invalid [t]. *)
Definition in_window (t : option Z) (startMs endMs : num) : bool :=
  match t with
  | Some t => ge_num t startMs && lt_num t endMs
  | None => false
  end.

Definition buildHourSelect (env : Env) (startMs endMs : num) (dateISO : string)
  : Menu :=
  let options :=
    omap (λ h, if in_window (instant_of dateISO (ofZ h)) startMs endMs
               then Some (padStart2 (String_ h) +:+ ":00 UTC", String_ h)
               else None)
         (map Z.of_nat (seq 0 24)) in
  mkMenu ("aoo_hour|" +:+ show_num env startMs +:+ "|" +:+ show_num env endMs
            +:+ "|" +:+ dateISO)
         "Select AOO start hour (UTC)"
         (match options with
          | [] => [("No valid hours", "none")]
          | _ => options
          end).

(** The [aoo] command of the message handler, once the caller is allowed. *)
Definition aoo_command (env : Env) (now : Z) (feed : option (list Event)) : M unit :=
  aoo ← getNextAooRunEvent now feed;
  match aoo with
  | None =>
      respond env (Reply "No upcoming/ongoing AOO run event found. Make sure the calendar event has `Type: ark_battle` (or `Type: aoo`)." false [])
  | Some run =>
      let startMs := run_start run in
      let endMs := run_end run in
      match listUtcDatesInRange (run_start run) (run_end run) with
      | None => throw "out of fuel"   (* never taken: the loop has the fuel it needs *)
      | Some [] =>
          respond env (Reply "AOO event has no selectable dates (check start/end)." false [])
      | Some dates =>
          respond env
            (Reply ("AOO event window (UTC): **" +:+ formatUTC (run_start run)
                      +:+ "** → **" +:+ formatUTC (run_end run) +:+ "**" +:+ nl +:+
                    "Select the date you want for the AOO start time:")
                   false [buildDateSelect startMs endMs dates])
      end
  end.

Record Member : Type := mkMember {
  administrator : bool;
  roles : list string;
}.

Record Interaction : Type := mkInteraction {
  isStringSelectMenu : bool;
  member : option Member;
  interaction_customId : option string;
  values : list string;
  guildId : option string;
  interaction_channelId : string;
  user_id : string;
  isRepliable : bool;
}.

Definition isAdmin (m : option Member) : bool :=
  match m with
  | Some m => administrator m
  | None => false
  end.

Definition canUseCommands (st : State) (m : option Member) : bool :=
  match accessRoleId (config st) with
  | Some (String _ _ as roleId) =>
      match m with
      | Some m => bool_decide (roleId ∈ roles m)
      | None => false
      end
  | _ => isAdmin m
  end.

(** [`${x}`] for an identifier that may be [null]. *)
Definition show_id (x : option string) : string :=
  match x with
  | Some s => s
  | None => "null"
  end.

(** The [aoo_date|] branch. *)
Definition on_date_chosen (env : Env) (i : Interaction) (id : string) : M unit :=
  let parts := split "|" id in
  let startMs := Number_opt (parts !! 1%nat) in
  let endMs := Number_opt (parts !! 2%nat) in
  match head (values i) with
  | Some (String _ _ as dateISO) =>
      let hourRow := buildHourSelect env startMs endMs dateISO in
      respond env
        (Update ("Selected date: **" +:+ dateISO +:+ "** (UTC)" +:+ nl +:+
                 "Now select the hour (UTC) you want AOO to start.")
                [hourRow])
  | _ => respond env (Reply "No date selected." true [])
  end.

(** The [aoo_hour|] branch. *)
Definition on_hour_chosen (env : Env) (nowMs : Z) (i : Interaction) (id : string)
  : M unit :=
  let parts := split "|" id in
  let startMs := Number_opt (parts !! 1%nat) in
  let endMs := Number_opt (parts !! 2%nat) in
  let dateISO := parts !! 3%nat in
  match head (values i) with
  | Some (String _ _ as hourStr) =>
      if String.eqb hourStr "none" then
        respond env (Reply "No valid hour selected." true [])
      else
        let hour := Number_ hourStr in
        match dateISO with
        | None => throw "TypeError: dateISO.split"
        | Some dateISO =>
            match instant_of dateISO hour with
            | Some aooStartMs =>
                if negb (ge_num aooStartMs startMs && lt_num aooStartMs endMs) then
                  respond env (Reply "That hour is outside the AOO event window. Try again." true [])
                else
                  let thirtyMs := aooStartMs - 30 * 60 * 1000 in
                  let tenMs := aooStartMs - 10 * 60 * 1000 in
                  let channel := interaction_channelId i in
                  let group := "aoo:" +:+ show_id (guildId i) +:+ ":" +:+ channel
                                 +:+ ":" +:+ user_id i in
                  removeScheduledByGroupKey env (Some group);;
                  c1 ← (if nowMs <? thirtyMs then
                          schedulePing env channel thirtyMs
                            (PING env +:+ nl +:+ "AOO starts in **30 minutes** — get ready! (Start: "
                               +:+ formatUTC aooStartMs +:+ ")")
                            (Some group);;
                          mret 1
                        else mret 0);
                  c2 ← (if nowMs <? tenMs then
                          schedulePing env channel tenMs
                            (PING env +:+ nl +:+ "AOO starts in **10 minutes** — be ready! (Start: "
                               +:+ formatUTC aooStartMs +:+ ")")
                            (Some group);;
                          mret 1
                        else mret 0);
                  let scheduledCount := c1 + c2 in
                  let startText := formatUTC aooStartMs in
                  let note :=
                    if scheduledCount =? 0
                    then "Both reminder times are already in the past, so nothing was scheduled."
                    else "Scheduled **" +:+ String_ scheduledCount +:+
                         "** reminder(s). (Overwrote your previous AOO selection in this channel)" in
                  respond env
                    (Update ("✅ AOO start selected: **" +:+ startText +:+ "**" +:+ nl +:+ note) [])
            | None =>
                respond env (Reply "That hour is outside the AOO event window. Try again." true [])
            end
        end
  | _ => respond env (Reply "No valid hour selected." true [])
  end.

(** The [interactionCreate] handler at the instant [nowMs]. *)
Definition interactionCreate (env : Env) (nowMs : Z) (i : Interaction) : M unit :=
  try_catch
    (if negb (isStringSelectMenu i) then mret tt else
     st ← get_state;
     if negb (canUseCommands st (member i)) then
       respond env
         (Reply (if truthy (accessRoleId (config st))
                 then "❌ You don’t have permission to use this menu."
                 else "❌ Access role not set yet. Only **Admins** can use this menu right now.")
                true [])
     else
       let id := default "" (interaction_customId i) in
       if startsWith id "aoo_date|" then on_date_chosen env i id
       else if startsWith id "aoo_hour|" then on_hour_chosen env nowMs i id
       else mret tt)
    (λ e,
       console_error "Interaction error:";;
       try_catch
         (when (isRepliable i)
            (respond env (Reply "Error handling selection." true [])))
         (λ _, mret tt)).

(** The commands of the message handler that write the configuration, once
    the caller is allowed: the mentioned role or channel is its id and the
    text it is shown as. *)
Definition config_command (env : Env) (cmd : string)
    (role channel : option (string * string)) : M unit :=
  let set (f : Config → Config) : M unit :=
    modify_state (λ st, set_config (f (config st)) st);; saveState env in
  let say (text : string) : M unit := respond env (Reply text false []) in
  if String.eqb cmd "set_access_role" then
    match role with
    | None => say "Usage: `!set_access_role @role`"
    | Some (id, shown) =>
        set (λ c, mkConfig (pingChannelId c) (Some id) (aooTeamRoleId c)
                           (mgeChannelId c) (mgeRoleId c));;
        say ("✅ Access role set. Users with " +:+ shown +:+ " can use bot commands.")
    end
  else if String.eqb cmd "set_ping_channel" then
    match channel with
    | None => say "Usage: `!set_ping_channel #channel`"
    | Some (id, shown) =>
        set (λ c, mkConfig (Some id) (accessRoleId c) (aooTeamRoleId c)
                           (mgeChannelId c) (mgeRoleId c));;
        say ("✅ Ping/announcement channel set to " +:+ shown)
    end
  else if String.eqb cmd "set_aoo_team_role" then
    match role with
    | None => say "Usage: `!set_aoo_team_role @role`"
    | Some (id, shown) =>
        set (λ c, mkConfig (pingChannelId c) (accessRoleId c) (Some id)
                           (mgeChannelId c) (mgeRoleId c));;
        say ("✅ AOO Team role mention set to " +:+ shown)
    end
  else if String.eqb cmd "clear_aoo_team_role" then
    set (λ c, mkConfig (pingChannelId c) (accessRoleId c) None
                       (mgeChannelId c) (mgeRoleId c));;
    say "✅ AOO Team role mention cleared (no role will be mentioned)."
  else if String.eqb cmd "set_mge_channel" then
    match channel with
    | None => say "Usage: `!set_mge_channel #channel`"
    | Some (id, shown) =>
        set (λ c, mkConfig (pingChannelId c) (accessRoleId c) (aooTeamRoleId c)
                           (Some id) (mgeRoleId c));;
        say ("✅ MGE channel set to " +:+ shown)
    end
  else if String.eqb cmd "set_mge_role" then
    match role with
    | None => say "Usage: `!set_mge_role @role`"
    | Some (id, shown) =>
        set (λ c, mkConfig (pingChannelId c) (accessRoleId c) (aooTeamRoleId c)
                           (mgeChannelId c) (Some id));;
        say ("✅ MGE role set to " +:+ shown)
    end
  else mret tt.

(* ================================================================= *)
(** ** The vocabulary of the specification *)
(* ================================================================= *)

(** The two event types of the milestone table and their three milestones. *)
Inductive Kind : Type := RegistrationWindow | DeferredWindow.
Inductive Stage : Type := Open | Warning | Closed.

Definition kind_of (type : string) : option Kind :=
  if String.eqb type "ark_registration" then Some RegistrationWindow
  else if String.eqb type "mge" then Some DeferredWindow
  else None.

Definition hours (h : Z) : Z := h * 3600000.

(** The trigger column of the milestone table, as the specification has it. *)
Definition trigger (k : Kind) (m : Stage) (now start end_ : Z) : bool :=
  match k, m with
  | RegistrationWindow, Open => start <=? now
  | RegistrationWindow, Warning => (end_ - hours 6 <=? now) && (now <? end_)
  | RegistrationWindow, Closed => end_ <=? now
  | DeferredWindow, Open => end_ + hours 24 <=? now
  | DeferredWindow, Warning => (start - hours 48 <=? now) && (now <? start - hours 24)
  | DeferredWindow, Closed => (start - hours 24 <=? now) && (now <? start)
  end.

(** One milestone of one event. *)
Record Item : Type := mkItem {
  item_event : Event;
  item_kind : Kind;
  item_stage : Stage;
}.

(** The flag key of a milestone, with the prefixes and suffixes of the source. *)
Definition flag_key (it : Item) : string :=
  let ev := item_event it in
  match item_kind it, item_stage it with
  | RegistrationWindow, Open => makeKey "AOO_REG" ev "open_at_start"
  | RegistrationWindow, Warning => makeKey "AOO_REG" ev "6h_before_end"
  | RegistrationWindow, Closed => makeKey "AOO_REG" ev "closed_at_end"
  | DeferredWindow, Open => makeKey "MGE" ev "open_24h_after_end"
  | DeferredWindow, Warning => makeKey "MGE" ev "48h_before_start_warn_close_24h"
  | DeferredWindow, Closed => makeKey "MGE" ev "closed_24h_before_start"
  end.

(** The text announced for a milestone. *)
Definition announcement (env : Env) (st : State) (it : Item) : string :=
  PING env +:+ nl +:+
  match item_kind it, item_stage it with
  | RegistrationWindow, Open => aooOpenMsg st
  | RegistrationWindow, Warning => aooWarnMsg
  | RegistrationWindow, Closed => aooClosedMsg
  | DeferredWindow, Open => mgeOpenMsg st
  | DeferredWindow, Warning => mgeWarnMsg
  | DeferredWindow, Closed => mgeClosedMsg
  end.

Definition due (now : Z) (it : Item) : bool :=
  trigger (item_kind it) (item_stage it) now
          (ev_start (item_event it)) (ev_end (item_event it)).

(** A milestone fires when its flag is unset and its trigger holds. *)
Definition fires (now : Z) (st : State) (it : Item) : bool :=
  negb (flag st (flag_key it)) && due now it.

(** The milestones of an event, in the order of the table. *)
Definition items_of (ev : Event) : list Item :=
  match getEventType ev with
  | Some type =>
      match kind_of type with
      | Some k => map (mkItem ev k) [Open; Warning; Closed]
      | None => []
      end
  | None => []
  end.

(** The milestones a poll cycle looks at, in order. *)
Definition cycle_items (data : list Event) : list Item :=
  flat_map items_of (List.filter (λ e, String.eqb (ev_type e) "VEVENT") data).

(** The milestones that fire, in order, when every delivery succeeds: a flag
    set by one of them is seen by the next. *)
Fixpoint plan (now : Z) (st : State) (items : list Item) : list Item :=
  match items with
  | [] => []
  | it :: rest =>
      if fires now st it then it :: plan now (set_flag (flag_key it) st) rest
      else plan now st rest
  end.

Definition delivery_of (env : Env) (channel : string) (st : State) (it : Item)
  : Delivery :=
  mkDelivery channel (announcement env st it) (Milestone (flag_key it)).

(** The state once the flags of [items] are set. *)
Definition set_flags (items : list Item) (st : State) : State :=
  foldl (λ s it, set_flag (flag_key it) s) st items.

(** The poll loop over a flat list of milestones. *)
Fixpoint run_items (env : Env) (channel : string) (now : Z) (items : list Item)
  : M unit :=
  match items with
  | [] => mret tt
  | it :: rest =>
      st ← get_state;
      when (fires now st it)
        (fire env channel (flag_key it) (announcement env st it));;
      run_items env channel now rest
  end.

(** The oracle index of the [j]-th delivery of a poll cycle started in [w]:
    the channel is fetched first, and every delivery is followed by a save. *)
Definition send_tick (w : World) (j : nat) : nat := (tick w + 1 + 2 * j)%nat.

(** A job the sweep has to deliver at [nowMs]. *)
Definition is_due (nowMs : Z) (x : Job) : bool :=
  negb (sent x) && (runAtMs x <=? nowMs).

(** The operations that touch the store. *)
Inductive Op : Type :=
| OpRunCheck (now : Z) (feed : option (list Event))
| OpProcessScheduled (nowMs : Z)
| OpSchedulePing (channel : string) (runAt : Z) (text : string) (group : option string)
| OpRemoveScheduledByGroupKey (group : option string)
| OpInteraction (nowMs : Z) (i : Interaction)
| OpAooCommand (now : Z) (feed : option (list Event))
| OpConfigCommand (cmd : string) (role channel : option (string * string)).

Definition exec (env : Env) (op : Op) (w : World) : World :=
  match op with
  | OpRunCheck now feed => snd (runCheck env now feed w)
  | OpProcessScheduled nowMs => snd (processScheduled env nowMs w)
  | OpSchedulePing channel runAt text group =>
      snd (schedulePing env channel runAt text group w)
  | OpRemoveScheduledByGroupKey group => snd (removeScheduledByGroupKey env group w)
  | OpInteraction nowMs i => snd (interactionCreate env nowMs i w)
  | OpAooCommand now feed => snd (aoo_command env now feed w)
  | OpConfigCommand cmd role channel => snd (config_command env cmd role channel w)
  end.

(** The messages delivered between [w] and a later world [w']. *)
Definition new_deliveries (w w' : World) : list Delivery :=
  drop (length (outbox w)) (outbox w').

(* ================================================================= *)
(** ** Predicates used by the properties *)
(* ================================================================= *)

(** A poll cycle that reaches the loop: the guard is free, the announcement
    channel is set and resolves to a text channel, the calendar answers. *)
Definition reaches_loop (env : Env) (w : World) (channel : string) : Prop :=
  runCheckRunning w = false ∧
  getPingChannelId (state w) None = Some channel ∧
  fetch_channel env (tick w) channel = Some TextChannel.

(** Between [w] and [w'] the flag [key] stays set and no message is sent for
    it. *)
Definition keeps (key : string) (w w' : World) : Prop :=
  flag (state w') key = true ∧
  ∃ delta, outbox w' = outbox w ++ delta ∧
           Forall (λ d, cause d ≠ Milestone key) delta.

(** A computation that keeps a set flag and sends nothing for it. *)
Definition quiet {A} (key : string) (m : M A) : Prop :=
  ∀ w, flag (state w) key = true → keeps key w (snd (m w)).

(** What the sweep loop makes of a job. *)
Definition mark_due (nowMs : Z) (x : Job) : Job :=
  if is_due nowMs x then mark x else x.

(** The message of a reminder job. *)
Definition job_delivery (x : Job) : Delivery :=
  mkDelivery (channelId x) (message x) (Reminder (job_id x)).

(** Everything but the queue, the outbox, the console and the oracle index
    is the same in both worlds. *)
Definition same_but_queue (w w' : World) : Prop :=
  config (state w') = config (state w) ∧
  flags (state w') = flags (state w) ∧
  file w' = file w ∧ saves w' = saves w ∧
  responses w' = responses w ∧ runCheckRunning w' = runCheckRunning w.

(** Every gateway call works. *)
Definition healthy (env : Env) : Prop :=
  (∀ n id, fetch_channel env n id = Some TextChannel) ∧
  (∀ n, send_ok env n = true).

(** A message the sweep may have delivered: that of a due job whose channel
    resolved to a text channel. *)
Definition swept (env : Env) (nowMs : Z) (l : list Job) (d : Delivery) : Prop :=
  ∃ x n, x ∈ l ∧ is_due nowMs x = true ∧ d = job_delivery x ∧
         fetch_channel env n (channelId x) = Some TextChannel.

(** A job the sweep keeps: not sent and not yet due. *)
Definition pending (nowMs : Z) (x : Job) : bool :=
  negb (sent x) && (nowMs <? runAtMs x).

(** A job [removeScheduledByGroupKey] cancels: unsent and of the group. *)
Definition cancelled (group : option string) (x : Job) : bool :=
  negb (sent x) && bool_decide (groupKey x = group).

(** The job [schedulePing] appends when the oracle index is [n]. *)
Definition new_job (env : Env) (n : nat) (channel : string) (runAt : Z)
    (text : string) (group : option string) : Job :=
  mkJob (channel +:+ "_" +:+ String_ runAt +:+ "_" +:+ random env n)
        channel runAt text false group.

(** The group key of an interaction. *)
Definition group_of (i : Interaction) : string :=
  "aoo:" +:+ show_id (guildId i) +:+ ":" +:+ interaction_channelId i
    +:+ ":" +:+ user_id i.

(** The three ways the hour step turns a selection down. *)
Inductive Rejection : Type := NoHour | BadToken | OutsideWindow.

(** Whether the hour step turns down the selection of [i] under the token
    [id]: no hour or the sentinel was selected; the token has no date part;
    the date and hour do not combine to an instant of the token's window
    (which is the case as soon as a bound or the instant is NaN). *)
Definition rejection (i : Interaction) (id : string) : option Rejection :=
  let parts := split "|" id in
  match head (values i) with
  | Some (String _ _ as hourStr) =>
      if String.eqb hourStr "none" then Some NoHour
      else match parts !! 3%nat with
           | None => Some BadToken
           | Some dateISO =>
               if in_window (instant_of dateISO (Number_ hourStr))
                            (Number_opt (parts !! 1%nat)) (Number_opt (parts !! 2%nat))
               then None else Some OutsideWindow
           end
  | _ => Some NoHour
  end.

(** The error message of each case. *)
Definition rejection_text (r : Rejection) : string :=
  match r with
  | NoHour => "No valid hour selected."
  | BadToken => "Error handling selection."
  | OutsideWindow => "That hour is outside the AOO event window. Try again."
  end.

(** The answer of the hour step to an accepted selection. *)
Definition accepted_text (aooStartMs : Z) (scheduledCount : Z) : string :=
  "✅ AOO start selected: **" +:+ formatUTC aooStartMs +:+ "**" +:+ nl +:+
  (if scheduledCount =? 0
   then "Both reminder times are already in the past, so nothing was scheduled."
   else "Scheduled **" +:+ String_ scheduledCount +:+
        "** reminder(s). (Overwrote your previous AOO selection in this channel)").

(** A select-menu interaction of an allowed member on an hour menu. *)
Definition hour_selection (w : World) (i : Interaction) (id : string) : Prop :=
  isStringSelectMenu i = true ∧
  canUseCommands (state w) (member i) = true ∧
  interaction_customId i = Some id ∧
  startsWith id "aoo_hour|" = true.

(** The UTC midnights from the day of [start] up to, not including, the day
    of [end_]. *)
Definition utc_days (start end_ : Z) : list Z :=
  map (λ i, (Day start + Z.of_nat i) * msPerDay)
      (seq 0 (Z.to_nat (Day end_ - Day start))).

(** The largest time value of a [Date]. *)
Definition maxTime : Z := 8640000000000000.

(** An event the [aoo] command may pick at [now]. *)
Definition upcoming_run (now : Z) (data : list Event) (ev : Event) : Prop :=
  ev ∈ data ∧ ev_type ev = "VEVENT"%string ∧ is_aoo_run ev = true ∧ now < ev_end ev.

(* ================================================================= *)
(** ** Further functions of the source *)
(* ================================================================= *)

(** [formatDuration] for the difference [ms] of two time values: a whole
    number, small enough for [Math.floor] of each quotient to be the floor
    of the exact quotient. *)
Definition formatDuration (ms : Z) : string :=
  let s := Z.max 0 (ms / 1000) in
  let days := s / 86400 in
  let hrs := (s mod 86400) / 3600 in
  let mins := (s mod 3600) / 60 in
  let parts :=
    (if days =? 0 then [] else [String_ days +:+ "d"]) ++
    (if hrs =? 0 then [] else [String_ hrs +:+ "h"]) ++
    [String_ mins +:+ "m"] in
  join " " parts.

(* ================================================================= *)
(** ** Further vocabulary *)
(* ================================================================= *)

(** The milestone keys of the announcements among [l], oldest first. *)
Definition milestone_keys (l : list Delivery) : list string :=
  omap (λ d, match cause d with
             | Milestone key => Some key
             | Reminder _ => None
             end) l.

(** No milestone was announced twice, and every announced milestone has its
    flag set. *)
Definition announced_once (w : World) : Prop :=
  NoDup (milestone_keys (outbox w)) ∧
  ∀ key, key ∈ milestone_keys (outbox w) → flag (state w) key = true.

(** A computation that leaves the observation [obs] of the world as it was,
    whether it returns or throws. *)
Definition unchanged {A B} (obs : World → B) (m : M A) : Prop :=
  ∀ w, obs (snd (m w)) = obs w.

(** The document, its file and the channels are as they were; answers, the
    console and the oracle index may differ. *)
Definition untouched (w w' : World) : Prop :=
  state w' = state w ∧ file w' = file w ∧ saves w' = saves w ∧
  outbox w' = outbox w ∧ runCheckRunning w' = runCheckRunning w.

(** What [untouched] compares. *)
Definition store (w : World) : State * option State * nat * list Delivery * bool :=
  (state w, file w, saves w, outbox w, runCheckRunning w).

(** The milestone side of the world: the flags and the announcements made. *)
Definition milestones (w : World) : gmap string bool * list string :=
  (flags (state w), milestone_keys (outbox w)).


(** A tag as [getEventType] returns it: a non-empty word of lower-case
    letters, digits and underscores. *)
Definition is_tag (s : string) : bool :=
  negb (String.eqb s "") &&
  forallb (λ c, is_lower c || is_digit c || Ascii.eqb c "_") (list_ascii_of_string s).

(** The number a run of decimal digits denotes, read after [acc]. *)
Definition dec_value (l : list ascii) (acc : Z) : Z :=
  fold_left (λ a c, a * 10 + (code c - 48)) l acc.

(** A string of decimal digits only. *)
Definition all_digits (s : string) : Prop :=
  Forall (λ c, is_digit c = true) (list_ascii_of_string s).

(** The character [c] does not occur in [s]. *)
Definition free_of (c : ascii) (s : string) : Prop :=
  c ∉ list_ascii_of_string s.

(** The instant of hour [h] of the UTC date of [t]. *)
Definition hour_of_date (t h : Z) : Z := Day t * msPerDay + h * msPerHour.

(** The texts of the two reminders of a run that starts at [t]. *)
Definition reminder30 (env : Env) (t : Z) : string :=
  PING env +:+ nl +:+ "AOO starts in **30 minutes** — get ready! (Start: "
    +:+ formatUTC t +:+ ")".

Definition reminder10 (env : Env) (t : Z) : string :=
  PING env +:+ nl +:+ "AOO starts in **10 minutes** — be ready! (Start: "
    +:+ formatUTC t +:+ ")".

(** The environment [env] with another disk. *)
Definition with_disk (write : nat → bool) (env : Env) : Env :=
  mkEnv (PING env) (fetch_channel env) (send_ok env) (reply_ok env) write
        (random env) (number_toString env).

(** Two worlds that differ at most in the file and in the console. *)
Definition same_but_disk (w1 w2 : World) : Prop :=
  state w1 = state w2 ∧ saves w1 = saves w2 ∧
  runCheckRunning w1 = runCheckRunning w2 ∧
  outbox w1 = outbox w2 ∧ responses w1 = responses w2 ∧ tick w1 = tick w2.

(** Two computations that, from worlds that differ at most in the file and
    the console, end alike in such worlds. *)
Definition agree {A} (m1 m2 : M A) : Prop :=
  ∀ w1 w2, same_but_disk w1 w2 →
    fst (m1 w1) = fst (m2 w2) ∧ same_but_disk (snd (m1 w1)) (snd (m2 w2)).

(* ================================================================= *)
(** ** Concrete scenarios *)
(* ================================================================= *)

Module Scenario.

(** A gateway and a file system that always work. *)
Definition env_ok : Env :=
  mkEnv "@everyone" (λ _ _, Some TextChannel) (λ _, true) (λ _, true) (λ _, true)
        (λ _, "8f3a"%string) (λ _, ""%string).

(** The same, except that the oracle consultation number [n] is a delivery
    that fails. *)
Definition env_send_fails (n : nat) : Env :=
  mkEnv "@everyone" (λ _ _, Some TextChannel) (λ k, negb (k =? n)%nat) (λ _, true)
        (λ _, true) (λ _, "8f3a"%string) (λ _, ""%string).

(** The same as [env_ok], except that channel [c] resolves to a voice
    channel. *)
Definition env_voice (c : string) : Env :=
  mkEnv "@everyone"
        (λ _ id, if String.eqb id c then Some NonTextChannel else Some TextChannel)
        (λ _, true) (λ _, true) (λ _, true) (λ _, "8f3a"%string) (λ _, ""%string).

Definition config0 : Config :=
  mkConfig (Some "announcements"%string) None None None None.

(** A fresh store with the announcement channel set. *)
Definition world0 : World :=
  mkWorld (mkState [] config0 ∅) None 0 false [] [] [] 0.

(** 2025-01-10T00:00Z to 2025-01-12T00:00Z, a registration window. *)
Definition E1 : Event :=
  mkEvent "VEVENT" (Some "E1"%string) None (Some "Type: ark_registration"%string)
          None None 1736467200000 1736640000000.

(** 2025-02-01T10:00Z to 2025-02-03T12:00Z, a run. *)
Definition R1 : Event :=
  mkEvent "VEVENT" (Some "R1"%string) None (Some "AOO run"%string)
          (Some "Type: ark_battle"%string) None 1738404000000 1738584000000.

Definition admin : Member := mkMember true [].

(** Hour 14 of 2025-02-02 selected under the token of the window
    2025-02-01T00:00Z to 2025-02-03T00:00Z. *)
Definition pick_14 : Interaction :=
  mkInteraction true (Some admin)
    (Some "aoo_hour|1738368000000|1738540800000|2025-02-02"%string)
    ["14"%string] (Some "guild"%string) "war-room" "user7" true.

(** The sentinel selected under the same token. *)
Definition pick_none : Interaction :=
  mkInteraction true (Some admin)
    (Some "aoo_hour|1738368000000|1738540800000|2025-02-02"%string)
    ["none"%string] (Some "guild"%string) "war-room" "user7" true.

(** A reminder of user7 for a later run, waiting in the queue. *)
Definition later_job : Job :=
  mkJob "war-room_1741000000000_51c2" "war-room" 1741000000000 "later run" false
        (Some "aoo:guild:war-room:user7"%string).

(** A reminder on a voice channel that is due at 1738503000000. *)
Definition voice_job : Job :=
  mkJob "voice_1738503000000_77aa" "voice" 1738503000000 "get ready" false None.

Definition world_with (jobs : list Job) : World :=
  mkWorld (mkState jobs config0 ∅) None 0 false [] [] [] 0.

(** Hour 14 of 2025-02-02 selected under a token the bot never wrote: its
    start is empty and its end is [Infinity]. *)
Definition pick_14_forged : Interaction :=
  mkInteraction true (Some admin)
    (Some "aoo_hour||Infinity|2025-02-02"%string)
    ["14"%string] (Some "guild"%string) "war-room" "user7" true.

(** Hour 5 of 2025-02-03 selected under the token of R1. *)
Definition pick_end_date : Interaction :=
  mkInteraction true (Some admin)
    (Some "aoo_hour|1738404000000|1738584000000|2025-02-03"%string)
    ["5"%string] (Some "guild"%string) "war-room" "user7" true.

(** 2025-02-01T10:00Z to 2025-02-01T22:00Z, a run within one UTC date. *)
Definition R2 : Event :=
  mkEvent "VEVENT" (Some "R2"%string) None (Some "Type: ark_battle"%string)
          None None 1738404000000 1738447200000.

End Scenario.

Import Scenario.

(** *** Further scenarios *)

Module Cases.

(** A member without the administrator permission and without roles. *)
Definition outsider : Member := mkMember false [].

(** The selection of [pick_14], made by [outsider]. *)
Definition pick_14_outsider : Interaction :=
  mkInteraction true (Some outsider)
    (Some "aoo_hour|1738368000000|1738540800000|2025-02-02"%string)
    ["14"%string] (Some "guild"%string) "war-room" "user9" true.

(** E1 with its tag in other letter case. *)
Definition E1_capitals : Event :=
  mkEvent "VEVENT" (Some "E1"%string) None (Some "TYPE: ARK_Registration"%string)
          None None 1736467200000 1736640000000.

(** A run that starts when R1 starts and comes later in the feed. *)
Definition R1_twin : Event :=
  mkEvent "VEVENT" (Some "R1b"%string) None (Some "Type: aoo"%string)
          None None 1738404000000 1738490400000.

(** The date 2025-02-02 selected under the token of the window of R1. *)
Definition pick_date : Interaction :=
  mkInteraction true (Some admin)
    (Some "aoo_date|1738404000000|1738584000000"%string)
    ["2025-02-02"%string] (Some "guild"%string) "war-room" "user7" true.

End Cases.

Import Cases.

(* ================================================================= *)
(** ** Properties *)
(* ================================================================= *)

(** *** The poll cycle *)

Lemma fire_ok env ch key text w :
  send_ok env (tick w) = true →
  fire env ch key text w =
    (Ok tt,
     mkWorld (set_flag key (state w))
             (if write_ok env (S (tick w)) then Some (set_flag key (state w)) else file w)
             (S (saves w)) (runCheckRunning w)
             (outbox w ++ [mkDelivery ch text (Milestone key)]) (responses w)
             (if write_ok env (S (tick w)) then console w
              else console w ++ ["Failed to save state:"%string])
             (S (S (tick w)))).
Proof.
  intros Hs. unfold fire, mbind, M_bind, channel_send, modify_state, saveState, with_state.
  rewrite Hs. simpl. destruct (write_ok env (S (tick w))); reflexivity.
Qed.

Lemma fire_fail env ch key text w :
  send_ok env (tick w) = false →
  fire env ch key text w = (Throw "channel.send"%string, next_tick w).
Proof.
  intros Hs. unfold fire, mbind, M_bind, channel_send. now rewrite Hs.
Qed.

(** The poll loop when the first [n] deliveries succeed and the next one,
    if the plan has one, fails. *)
Lemma run_items_prefix env ch now : ∀ items w n,
  (n ≤ length (plan now (state w) items))%nat →
  (∀ j, (j < n)%nat → send_ok env (tick w + 2 * j)%nat = true) →
  ((n < length (plan now (state w) items))%nat → send_ok env (tick w + 2 * n)%nat = false) →
  ∃ w',
    run_items env ch now items w =
      (if (n <? length (plan now (state w) items))%nat
       then Throw "channel.send"%string else Ok tt, w') ∧
    state w' = set_flags (take n (plan now (state w) items)) (state w) ∧
    outbox w' = outbox w ++ map (delivery_of env ch (state w))
                                (take n (plan now (state w) items)) ∧
    responses w' = responses w ∧
    runCheckRunning w' = runCheckRunning w ∧
    saves w' = (saves w + n)%nat ∧
    ((∀ j, (j < n)%nat → write_ok env (tick w + 2 * j + 1)%nat = true) →
       console w' = console w ∧
       file w' = if (n =? 0)%nat then file w else Some (state w')).
Proof.
  induction items as [|it rest IH]; intros w n Hn Hok Hfail.
  - simpl in *. assert (n = 0)%nat as -> by lia. exists w. simpl.
    rewrite app_nil_r. split_and!; auto.
  - simpl plan in *. simpl run_items. unfold mbind, M_bind, get_state at 1.
    destruct (fires now (state w) it) eqn:Hf; simpl when.
    + destruct n as [|n].
      * rewrite fire_fail by (rewrite <- Hfail by (simpl; lia); f_equal; lia).
        exists (next_tick w). simpl. rewrite app_nil_r. split_and!; auto.
      * rewrite fire_ok by (rewrite <- (Hok 0%nat) by lia; f_equal; lia).
        set (w1 := mkWorld _ _ _ _ _ _ _ _).
        destruct (IH w1 n) as (w' & Hrun & Hst & Hout & Hresp & Hrun' & Hsav & Hfile).
        { simpl in *. lia. }
        { intros j Hj. subst w1; simpl. rewrite <- (Hok (S j)) by lia. f_equal; lia. }
        { intros Hlt. subst w1; simpl. rewrite <- Hfail by (simpl in *; lia). f_equal; lia. }
        exists w'. subst w1; simpl in *. rewrite Hrun.
        split_and!; auto.
        -- rewrite Hout, <- app_assoc. reflexivity.
        -- lia.
        -- intros Hw. destruct Hfile as [Hc Hfl].
           { intros j Hj. rewrite <- (Hw (S j)) by lia. f_equal; lia. }
           rewrite Hc, Hfl.
           assert (write_ok env (S (tick w)) = true) as ->.
           { rewrite <- (Hw 0%nat) by lia. f_equal; lia. }
           split; [done|].
           destruct n; simpl in *; [|done].
           rewrite Hst. done.
    + apply IH; auto.
Qed.

Lemma kind_of_cases type :
  (type = "ark_registration"%string ∧ kind_of type = Some RegistrationWindow) ∨
  (type = "mge"%string ∧ kind_of type = Some DeferredWindow) ∨
  (String.eqb type "ark_registration" = false ∧ String.eqb type "mge" = false
   ∧ kind_of type = None).
Proof.
  unfold kind_of.
  destruct (String.eqb_spec type "ark_registration"); [left; done|].
  destruct (String.eqb_spec type "mge"); [right; left; done|].
  right; right; done.
Qed.

(** The body of the source's loop is the poll loop over the event's
    milestones. *)
Lemma announce_items env ch now ev w :
  announce env ch now ev w = run_items env ch now (items_of ev) w.
Proof.
  unfold announce, items_of.
  destruct (getEventType ev) as [type|]; [|reflexivity].
  destruct (kind_of_cases type) as [[-> ->]|[[-> ->]|(H1 & H2 & ->)]].
  - simpl. unfold mbind, M_bind, get_state, fires, due, trigger, flag_key,
      announcement, addHours, hours; simpl.
    replace (ev_end ev + -6 * 3600000) with (ev_end ev - 6 * 3600000) by lia.
    repeat (rewrite <- ?andb_assoc;
            match goal with
            | |- context [when ?c ?m ?w] => destruct (when c m w) as [[[]|?] ?]
            end; simpl); reflexivity.
  - simpl. unfold mbind, M_bind, get_state, fires, due, trigger, flag_key,
      announcement, addHours, hours; simpl.
    replace (ev_start ev + -48 * 3600000) with (ev_start ev - 48 * 3600000) by lia.
    replace (ev_start ev + -24 * 3600000) with (ev_start ev - 24 * 3600000) by lia.
    repeat (rewrite <- ?andb_assoc;
            match goal with
            | |- context [when ?c ?m ?w] => destruct (when c m w) as [[[]|?] ?]
            end; simpl); reflexivity.
  - rewrite H1, H2. reflexivity.
Qed.

Lemma run_items_app env ch now a b w :
  run_items env ch now (a ++ b) w =
  (run_items env ch now a;; run_items env ch now b) w.
Proof.
  revert w. induction a as [|it a IH]; intros w; simpl.
  - reflexivity.
  - unfold mbind, M_bind, get_state in *. simpl.
    destruct (when _ _ w) as [[[]|e] w1]; [|reflexivity].
    apply IH.
Qed.

Lemma for_each_announce env ch now evs w :
  for_each (announce env ch now) evs w =
  run_items env ch now (flat_map items_of evs) w.
Proof.
  revert w. induction evs as [|ev evs IH]; intros w; simpl; [reflexivity|].
  rewrite run_items_app. unfold mbind, M_bind.
  rewrite announce_items.
  destruct (run_items env ch now (items_of ev) w) as [[[]|e] w1]; [|reflexivity].
  apply IH.
Qed.

Lemma runCheck_cycle env now data w ch :
  reaches_loop env w ch →
  runCheck env now (Some data) w =
    match run_items env ch now (cycle_items data) (next_tick (with_running true w)) with
    | (Ok _, w') => (Ok tt, with_running false w')
    | (Throw e, w') =>
        (Ok tt, with_running false (snd (console_error "runCheck error:" w')))
    end.
Proof.
  intros (Hrun & Hping & Hfetch).
  unfold runCheck. rewrite Hrun. unfold try_finally, try_catch, runCheck_body.
  unfold mbind, M_bind, get_state.
  change (state (with_running true w)) with (state w).
  rewrite Hping. destruct ch as [|c ch'].
  { unfold getPingChannelId in Hping.
    destruct (pingChannelId (config (state w))) as [[|? ?]|]; discriminate. }
  unfold channels_fetch.
  change (tick (with_running true w)) with (tick w). rewrite Hfetch.
  unfold fetchEvents, mret, M_ret.
  rewrite for_each_announce. unfold cycle_items.
  destruct (run_items _ _ _ _ _) as [[[]|e] w']; reflexivity.
Qed.

(** *** Flag keys *)

Lemma append_inj_r (a b c : string) : a +:+ b = a +:+ c → b = c.
Proof. induction a as [|x a IH]; simpl; intros H; [done|]. injection H. auto. Qed.

Lemma makeKey_suffix_inj prefix ev s1 s2 :
  makeKey prefix ev s1 = makeKey prefix ev s2 → s1 = s2.
Proof.
  unfold makeKey. intros H.
  repeat (apply append_inj_r in H). exact H.
Qed.

Lemma flag_key_stage_inj ev k m1 m2 :
  flag_key (mkItem ev k m1) = flag_key (mkItem ev k m2) → m1 = m2.
Proof.
  destruct k, m1, m2; simpl; intros H; try reflexivity;
    apply makeKey_suffix_inj in H; discriminate.
Qed.

Lemma flag_set_flag key key' st :
  flag (set_flag key st) key' = bool_decide (key = key') || flag st key'.
Proof.
  unfold flag, set_flag. simpl.
  destruct (bool_decide_reflect (key = key')) as [->|Hne]; simpl.
  - now rewrite lookup_insert_eq.
  - now rewrite lookup_insert_ne.
Qed.

Lemma flag_set_flags items : ∀ st key,
  flag (set_flags items st) key =
  flag st key || bool_decide (key ∈ map flag_key items).
Proof.
  induction items as [|it items IH]; intros st key.
  - change (set_flags [] st) with st.
    rewrite (bool_decide_eq_false_2 (key ∈ _)) by (apply not_elem_of_nil).
    now rewrite orb_false_r.
  - change (set_flags (it :: items) st) with (set_flags items (set_flag (flag_key it) st)).
    rewrite IH, flag_set_flag.
    destruct (decide (flag_key it = key)) as [<-|Hne].
    + rewrite (bool_decide_eq_true_2 (flag_key it = flag_key it)) by done.
      rewrite (bool_decide_eq_true_2 (_ ∈ map flag_key (it :: items)))
        by (cbn [map]; left).
      now rewrite orb_true_r.
    + rewrite (bool_decide_eq_false_2 (flag_key it = key)) by done.
      rewrite orb_false_l. f_equal. apply bool_decide_ext.
      cbn [map]. rewrite elem_of_cons. split; [auto|intros [Heq|Hin]; [congruence|done]].
Qed.

Lemma flag_set_flags_mono items st key :
  flag st key = true → flag (set_flags items st) key = true.
Proof. intros H. now rewrite flag_set_flags, H. Qed.

(** *** The plan of a cycle *)

Lemma fires_set_flag_ne now st key it :
  key ≠ flag_key it → fires now (set_flag key st) it = fires now st it.
Proof.
  intros Hne. unfold fires. rewrite flag_set_flag.
  now rewrite bool_decide_eq_false_2.
Qed.

Lemma plan_filter now items : ∀ st,
  NoDup (map flag_key items) →
  plan now st items = List.filter (fires now st) items.
Proof.
  induction items as [|it items IH]; intros st Hnd; [done|].
  simpl in *. apply NoDup_cons in Hnd as [Hnotin Hnd].
  destruct (fires now st it) eqn:Hf.
  - f_equal. rewrite IH by done.
    apply List.filter_ext_in. intros it' Hin.
    apply fires_set_flag_ne. intros Heq. apply Hnotin. rewrite Heq.
    apply list_elem_of_In, in_map, Hin.
  - now apply IH.
Qed.

Lemma plan_head_unset now items : ∀ st it rest,
  plan now st items = it :: rest → flag st (flag_key it) = false.
Proof.
  induction items as [|c items IH]; intros st it rest; simpl; [done|].
  destruct (fires now st c) eqn:Hf.
  - intros [= <- _]. unfold fires in Hf. apply andb_true_iff in Hf as [Hf _].
    now apply negb_true_iff in Hf.
  - apply IH.
Qed.

Lemma plan_resume now items : ∀ st k,
  plan now (set_flags (take k (plan now st items)) st) items =
  drop k (plan now st items).
Proof.
  induction items as [|c items IH]; intros st k; simpl.
  - now rewrite drop_nil.
  - destruct (fires now st c) eqn:Hf.
    + destruct k as [|k]; simpl.
      * now rewrite Hf.
      * unfold set_flags. simpl. fold (set_flags (take k (plan now (set_flag (flag_key c) st) items)) (set_flag (flag_key c) st)).
        assert (fires now (set_flags (take k (plan now (set_flag (flag_key c) st) items))
                             (set_flag (flag_key c) st)) c = false) as ->.
        { unfold fires. rewrite flag_set_flags_mono; [done|].
          rewrite flag_set_flag. now rewrite bool_decide_eq_true_2. }
        apply IH.
    + assert (fires now (set_flags (take k (plan now st items)) st) c = false) as ->.
      { unfold fires in *. apply andb_false_iff in Hf as [Hf|Hf].
        - apply negb_false_iff in Hf. now rewrite flag_set_flags_mono.
        - rewrite Hf. apply andb_false_r. }
      apply IH.
Qed.

Lemma items_of_NoDup ev : NoDup (map flag_key (items_of ev)).
Proof.
  unfold items_of. destruct (getEventType ev) as [type|]; [|constructor].
  destruct (kind_of type) as [k|]; [|constructor].
  simpl. repeat constructor; rewrite ?elem_of_cons, ?elem_of_nil;
    intros H; repeat destruct H as [H|H]; try done;
    apply flag_key_stage_inj in H; discriminate.
Qed.

(** *** The poll cycle when every delivery succeeds *)

Lemma run_items_all env ch now items w :
  (∀ n, send_ok env n = true) →
  ∃ w',
    run_items env ch now items w = (Ok tt, w') ∧
    state w' = set_flags (plan now (state w) items) (state w) ∧
    outbox w' = outbox w ++ map (delivery_of env ch (state w)) (plan now (state w) items) ∧
    responses w' = responses w ∧
    runCheckRunning w' = runCheckRunning w.
Proof.
  intros Hok.
  destruct (run_items_prefix env ch now items w (length (plan now (state w) items)))
    as (w' & Hrun & Hst & Hout & Hresp & Hrunning & _); [lia|auto|lia|].
  rewrite Nat.ltb_irrefl in Hrun. rewrite firstn_all in Hst, Hout.
  exists w'. auto.
Qed.

(** The loop body on one event with a recognised type tag, when the
    deliveries succeed: it announces exactly the milestones whose flag is
    unset and whose trigger holds, in the order open, warning, closed, and
    sets exactly their flags. *)
Lemma announce_fires_by_table env channel now ev type k w :
  getEventType ev = Some type →
  kind_of type = Some k →
  (∀ n, send_ok env n = true) →
  let fired :=
    List.filter
      (λ m, negb (flag (state w) (flag_key (mkItem ev k m)))
            && trigger k m now (ev_start ev) (ev_end ev))
      [Open; Warning; Closed] in
  ∃ w',
    announce env channel now ev w = (Ok tt, w') ∧
    outbox w' = outbox w ++
      map (λ m, delivery_of env channel (state w) (mkItem ev k m)) fired ∧
    ∀ key, flag (state w') key =
           flag (state w) key
           || bool_decide (key ∈ map (λ m, flag_key (mkItem ev k m)) fired).
Proof.
  intros Htype Hkind Hok fired.
  destruct (run_items_all env channel now (items_of ev) w Hok)
    as (w' & Hrun & Hst & Hout & _).
  exists w'. rewrite announce_items.
  rewrite plan_filter in Hst, Hout by apply items_of_NoDup.
  unfold items_of in Hst, Hout. rewrite Htype, Hkind in Hst, Hout.
  assert (List.filter (fires now (state w)) (map (mkItem ev k) [Open; Warning; Closed])
          = map (mkItem ev k) fired) as Hf.
  { subst fired. unfold fires, due. cbn [map List.filter item_kind item_stage item_event].
    repeat match goal with |- context [if ?b then _ else _] => destruct b end;
      reflexivity. }
  rewrite Hf in Hst, Hout. rewrite map_map in Hout.
  split_and!; [done|done|].
  intros key. rewrite Hst, flag_set_flags, map_map. reflexivity.
Qed.

Lemma new_deliveries_app w w' delta :
  outbox w' = outbox w ++ delta → new_deliveries w w' = delta.
Proof. intros H. unfold new_deliveries. rewrite H. apply drop_app_length. Qed.

Lemma elem_of_cycle_items data it :
  it ∈ cycle_items data ↔
  ∃ ev, ev ∈ data ∧ ev_type ev = "VEVENT"%string ∧ it ∈ items_of ev.
Proof.
  unfold cycle_items. rewrite list_elem_of_In, in_flat_map. split.
  - intros (ev & Hev & Hit). apply filter_In in Hev as [Hev Hv].
    apply list_elem_of_In in Hev, Hit.
    apply String.eqb_eq in Hv. now exists ev.
  - intros (ev & Hev & Hv & Hit). exists ev. split; [|now apply list_elem_of_In].
    apply filter_In. split; [now apply list_elem_of_In|]. now apply String.eqb_eq.
Qed.

(** Elements of a list whose images are pairwise different. *)
Lemma NoDup_map_inj {A B} (f : A → B) (l : list A) x y :
  NoDup (map f l) → x ∈ l → y ∈ l → f x = f y → x = y.
Proof.
  induction l as [|a l IH]; intros Hnd Hx Hy Heq.
  - now apply elem_of_nil in Hx.
  - cbn [map] in Hnd. apply NoDup_cons in Hnd as [Hnotin Hnd].
    apply elem_of_cons in Hx as [->|Hx]; apply elem_of_cons in Hy as [->|Hy].
    + reflexivity.
    + exfalso. apply Hnotin. rewrite Heq. now apply list_elem_of_In, in_map, list_elem_of_In.
    + exfalso. apply Hnotin. rewrite <- Heq. now apply list_elem_of_In, in_map, list_elem_of_In.
    + now apply IH.
Qed.

(** C2. In a poll cycle that reaches its loop and whose deliveries succeed,
    over a feed whose milestones have pairwise different flag keys, the
    milestone table is applied to every fetched event with a recognised
    type tag at the cycle's [now]: the cycle announces, in feed and table
    order, exactly the milestones whose flag is unset and whose trigger
    holds at [now], and sets exactly their flags.  For each milestone of
    each such event: it is announced in the cycle if and only if its flag
    was unset and its trigger holds, and its flag is set afterwards if and
    only if it was set before or its trigger holds. *)
Theorem milestones_fire_by_table env now data w channel :
  reaches_loop env w channel →
  (∀ n, send_ok env n = true) →
  NoDup (map flag_key (cycle_items data)) →
  ∃ w',
    runCheck env now (Some data) w = (Ok tt, w') ∧
    new_deliveries w w' =
      map (delivery_of env channel (state w))
          (List.filter (fires now (state w)) (cycle_items data)) ∧
    ∀ ev type k m,
      ev ∈ data → ev_type ev = "VEVENT"%string →
      getEventType ev = Some type → kind_of type = Some k →
      let it := mkItem ev k m in
      (delivery_of env channel (state w) it ∈ new_deliveries w w' ↔
         flag (state w) (flag_key it) = false ∧
         trigger k m now (ev_start ev) (ev_end ev) = true) ∧
      flag (state w') (flag_key it) =
        flag (state w) (flag_key it) || trigger k m now (ev_start ev) (ev_end ev).
Proof.
  intros Hreach Hok Hnd.
  rewrite (runCheck_cycle env now data w channel Hreach).
  destruct (run_items_all env channel now (cycle_items data)
              (next_tick (with_running true w)) Hok)
    as (w1 & Hrun & Hst & Hout & _).
  rewrite Hrun. cbn [state outbox next_tick with_running] in Hst, Hout.
  rewrite plan_filter in Hst, Hout by done.
  exists (with_running false w1). split; [reflexivity|].
  assert (new_deliveries w (with_running false w1) =
          map (delivery_of env channel (state w))
              (List.filter (fires now (state w)) (cycle_items data))) as Hnew.
  { now apply new_deliveries_app. }
  split; [exact Hnew|].
  intros ev type k m Hev Hv Htype Hkind it.
  assert (it ∈ cycle_items data) as Hit.
  { apply elem_of_cycle_items. exists ev. split_and!; try done.
    unfold items_of. rewrite Htype, Hkind. apply list_elem_of_In, in_map.
    destruct m; simpl; auto. }
  assert (due now it = trigger k m now (ev_start ev) (ev_end ev)) as Hdue by reflexivity.
  split.
  - rewrite Hnew, list_elem_of_In, in_map_iff. split.
    + intros (it' & Heq & Hin). apply filter_In in Hin as [Hin Hf].
      assert (it' = it) as ->.
      { injection Heq as _ Hkey.
        apply (NoDup_map_inj flag_key (cycle_items data)); try done.
        now apply list_elem_of_In. }
      unfold fires in Hf. apply andb_true_iff in Hf as [Hfl Hd].
      apply negb_true_iff in Hfl. rewrite <- Hdue. done.
    + intros [Hfl Htr]. exists it. split; [done|]. apply filter_In. split.
      * now apply list_elem_of_In.
      * unfold fires. now rewrite Hfl, Hdue, Htr.
  - change (state (with_running false w1)) with (state w1).
    rewrite Hst, flag_set_flags.
    destruct (flag (state w) (flag_key it)) eqn:Hfl; [reflexivity|]. cbn [orb].
    destruct (trigger k m now (ev_start ev) (ev_end ev)) eqn:Htr.
    + apply bool_decide_eq_true_2, list_elem_of_In, in_map, filter_In.
      split; [now apply list_elem_of_In|]. unfold fires. now rewrite Hfl, Hdue.
    + apply bool_decide_eq_false_2. intros Hin.
      apply list_elem_of_In, in_map_iff in Hin as (it' & Hkey & Hin).
      apply filter_In in Hin as [Hin Hf].
      assert (it' = it) as ->.
      { apply (NoDup_map_inj flag_key (cycle_items data)); try done.
        now apply list_elem_of_In. }
      unfold fires in Hf. rewrite Hdue in Hf. now rewrite andb_false_r in Hf.
Qed.

(** C1 (amended). A registration-window event polled for the first time when
    [now] is past its start, past six hours before its end and past its end:
    exactly two messages are sent, open then closed, each once; the warning
    is not sent and its flag stays unset. *)
Theorem catch_up_after_end env w channel now ev :
  reaches_loop env w channel →
  (∀ n, send_ok env n = true) →
  ev_type ev = "VEVENT"%string →
  getEventType ev = Some "ark_registration"%string →
  (∀ m, flag (state w) (flag_key (mkItem ev RegistrationWindow m)) = false) →
  ev_start ev ≤ now → ev_end ev - hours 6 ≤ now → ev_end ev ≤ now →
  let w' := snd (runCheck env now (Some [ev]) w) in
  new_deliveries w w' =
    [delivery_of env channel (state w) (mkItem ev RegistrationWindow Open);
     delivery_of env channel (state w) (mkItem ev RegistrationWindow Closed)] ∧
  flag (state w') (flag_key (mkItem ev RegistrationWindow Open)) = true ∧
  flag (state w') (flag_key (mkItem ev RegistrationWindow Warning)) = false ∧
  flag (state w') (flag_key (mkItem ev RegistrationWindow Closed)) = true.
Proof.
  intros Hreach Hok Hvevent Htype Hunset Hstart Hwarn Hend w'.
  subst w'. rewrite (runCheck_cycle env now [ev] w channel Hreach).
  destruct (run_items_all env channel now (cycle_items [ev])
              (next_tick (with_running true w)) Hok)
    as (w1 & Hrun & Hst & Hout & _).
  rewrite Hrun. cbn [snd].
  change (state (next_tick (with_running true w))) with (state w) in *.
  change (outbox (next_tick (with_running true w))) with (outbox w) in *.
  assert (plan now (state w) (cycle_items [ev]) =
          [mkItem ev RegistrationWindow Open; mkItem ev RegistrationWindow Closed]) as Hplan.
  { unfold cycle_items. cbn [List.filter]. rewrite Hvevent. cbn [String.eqb Ascii.eqb Bool.eqb flat_map].
    rewrite app_nil_r, plan_filter by apply items_of_NoDup.
    unfold items_of. rewrite Htype. cbn [kind_of String.eqb Ascii.eqb Bool.eqb map List.filter].
    unfold fires, due. rewrite !Hunset. cbn [item_kind item_stage item_event trigger negb andb].
    replace (ev_start ev <=? now) with true by (symmetry; apply Z.leb_le; lia).
    replace (ev_end ev <=? now) with true by (symmetry; apply Z.leb_le; lia).
    replace (now <? ev_end ev) with false by (symmetry; apply Z.ltb_ge; lia).
    rewrite andb_false_r. reflexivity. }
  rewrite Hplan in Hst, Hout.
  split; [apply new_deliveries_app; exact Hout|].
  change (state (with_running false w1)) with (state w1). rewrite Hst.
  rewrite !flag_set_flags, !Hunset. cbn [map orb].
  split_and!.
  - apply bool_decide_eq_true_2. left.
  - apply bool_decide_eq_false_2. rewrite !elem_of_cons, elem_of_nil.
    intros [H|[H|[]]]; apply flag_key_stage_inj in H; discriminate.
  - apply bool_decide_eq_true_2. right; left.
Qed.

(** C4. When the delivery of the [k]-th milestone to fire fails (the earlier
    ones succeeded), the rest of the cycle is skipped: exactly the first [k]
    announcements went out, exactly their flags were added and they are on
    disk, the failed milestone's flag is unset, and a poll at the same instant
    would find exactly the failed and the unattempted milestones to fire. *)
Theorem failed_delivery_aborts_cycle env now data w channel k it :
  reaches_loop env w channel →
  plan now (state w) (cycle_items data) !! k = Some it →
  (∀ j, (j < k)%nat → send_ok env (send_tick w j) = true) →
  send_ok env (send_tick w k) = false →
  (∀ n, write_ok env n = true) →
  let p := plan now (state w) (cycle_items data) in
  let w' := snd (runCheck env now (Some data) w) in
  new_deliveries w w' = map (delivery_of env channel (state w)) (take k p) ∧
  state w' = set_flags (take k p) (state w) ∧
  (∀ it', it' ∈ take k p → flag (state w') (flag_key it') = true) ∧
  ((0 < k)%nat → file w' = Some (state w')) ∧
  flag (state w') (flag_key it) = false ∧
  plan now (state w') (cycle_items data) = drop k p ∧
  runCheckRunning w' = false.
Proof.
  intros Hreach Hk Hok Hfail Hwrite p w'.
  assert (k < length p)%nat as Hlt by (eapply lookup_lt_Some; exact Hk).
  subst w'. rewrite (runCheck_cycle env now data w channel Hreach).
  destruct (run_items_prefix env channel now (cycle_items data)
              (next_tick (with_running true w)) k)
    as (w1 & Hrun & Hst & Hout & _ & _ & _ & Hfile).
  { change (state (next_tick (with_running true w))) with (state w).
    unfold p in Hlt. lia. }
  { intros j Hj. rewrite <- (Hok j Hj). unfold send_tick. f_equal. simpl. lia. }
  { intros _. rewrite <- Hfail. unfold send_tick. f_equal. simpl. lia. }
  change (state (next_tick (with_running true w))) with (state w) in *.
  change (outbox (next_tick (with_running true w))) with (outbox w) in *.
  fold p in Hrun, Hst, Hout.
  apply Nat.ltb_lt in Hlt as Hltb. rewrite Hltb in Hrun. rewrite Hrun.
  cbn [snd console_error with_running state outbox file runCheckRunning].
  assert (plan now (state w1) (cycle_items data) = drop k p) as Hresume.
  { rewrite Hst. apply plan_resume. }
  split_and!.
  - apply new_deliveries_app, Hout.
  - exact Hst.
  - intros it' Hin. rewrite Hst, flag_set_flags.
    rewrite (bool_decide_eq_true_2 (_ ∈ _)); [apply orb_true_r|].
    apply list_elem_of_In, in_map, list_elem_of_In, Hin.
  - intros Hpos. destruct Hfile as [_ Hfl]; [auto|].
    rewrite Hfl. destruct k; [lia|reflexivity].
  - eapply plan_head_unset. rewrite Hresume.
    erewrite drop_S by exact Hk. reflexivity.
  - exact Hresume.
  - reflexivity.
Qed.

(** *** Set flags stay set *)

Section Quiet.

(** The flag under watch and the environment of the run. *)
Context (key : string) (env : Env).

Lemma keeps_refl w : flag (state w) key = true → keeps key w w.
Proof. intros H. split; [done|]. exists []. now rewrite app_nil_r. Qed.

Lemma keeps_trans w1 w2 w3 : keeps key w1 w2 → keeps key w2 w3 → keeps key w1 w3.
Proof.
  intros (_ & d1 & H1 & F1) (Hf & d2 & H2 & F2). split; [done|].
  exists (d1 ++ d2). rewrite H2, H1, app_assoc. split; [done|].
  now apply Forall_app.
Qed.

(** A world that differs from [w] outside the flags and the outbox. *)
Lemma keeps_same w w' :
  flags (state w') = flags (state w) → outbox w' = outbox w →
  flag (state w) key = true → keeps key w w'.
Proof.
  intros Hfl Hout Hf. split.
  - unfold flag in *. now rewrite Hfl.
  - exists []. now rewrite app_nil_r.
Qed.

Create HintDb quiet.

Lemma quiet_ret {A} (a : A) : quiet key (mret a).
Proof. intros w Hf. now apply keeps_refl. Qed.

Lemma quiet_throw {A} e : quiet key (@throw A e).
Proof. intros w Hf. now apply keeps_refl. Qed.

Lemma quiet_bind {A B} (m : M A) (f : A → M B) :
  quiet key m → (∀ a, quiet key (f a)) → quiet key (m ≫= f).
Proof.
  intros Hm Hf w Hw. specialize (Hm w Hw). unfold mbind, M_bind.
  destruct (m w) as [[a|e] w1]; simpl in *; [|done].
  eapply keeps_trans; [exact Hm|]. apply Hf. apply Hm.
Qed.

Lemma quiet_try_catch {A} (m : M A) h :
  quiet key m → (∀ e, quiet key (h e)) → quiet key (try_catch m h).
Proof.
  intros Hm Hh w Hw. specialize (Hm w Hw). unfold try_catch.
  destruct (m w) as [[a|e] w1]; simpl in *; [done|].
  eapply keeps_trans; [exact Hm|]. apply Hh. apply Hm.
Qed.

Lemma quiet_when c m : quiet key m → quiet key (when c m).
Proof. intros Hm. destruct c; [done|apply quiet_ret]. Qed.

Lemma quiet_get_state : quiet key get_state.
Proof. intros w Hf. now apply keeps_refl. Qed.

Lemma quiet_modify_state f :
  (∀ st, flags (f st) = flags st) → quiet key (modify_state f).
Proof. intros Hfl w Hf. apply keeps_same; simpl; auto. Qed.

Lemma quiet_console_error line : quiet key (console_error line).
Proof. intros w Hf. now apply keeps_same. Qed.

Lemma quiet_saveState : quiet key (saveState env).
Proof.
  intros w Hf. unfold saveState. destruct (write_ok env (tick w)); now apply keeps_same.
Qed.

Lemma quiet_channels_fetch id : quiet key (channels_fetch env id).
Proof.
  intros w Hf. unfold channels_fetch.
  destruct (fetch_channel env (tick w) id); now apply keeps_same.
Qed.

Lemma quiet_respond r : quiet key (respond env r).
Proof.
  intros w Hf. unfold respond. destruct (reply_ok env (tick w)); now apply keeps_same.
Qed.

Lemma quiet_Math_random : quiet key (Math_random env).
Proof. intros w Hf. now apply keeps_same. Qed.

Lemma quiet_channel_send ch text why :
  why ≠ Milestone key → quiet key (channel_send env ch text why).
Proof.
  intros Hne w Hf. unfold channel_send. destruct (send_ok env (tick w)); simpl.
  - split; [done|]. eexists. split; [reflexivity|]. now repeat constructor.
  - now apply keeps_same.
Qed.

Lemma quiet_fetchEvents feed : quiet key (fetchEvents feed).
Proof. destruct feed; [apply quiet_ret|apply quiet_throw]. Qed.

#[local] Hint Resolve quiet_ret quiet_throw quiet_when quiet_get_state
  quiet_console_error quiet_saveState quiet_channels_fetch quiet_respond
  quiet_Math_random quiet_fetchEvents : quiet.

(** Breaks a handler into its primitive effects. *)
Ltac quiet_step :=
  match goal with
  | |- quiet _ (mbind _ _) => apply quiet_bind; [|intros ?]
  | |- quiet _ (try_catch _ _) => apply quiet_try_catch; [|intros ?]
  | |- quiet _ (when _ _) => apply quiet_when
  | |- quiet _ (modify_state _) => apply quiet_modify_state; intros ?; reflexivity
  | |- quiet _ (channel_send _ _ _ (Reminder _)) =>
      apply quiet_channel_send; discriminate
  | |- quiet _ (match ?x with _ => _ end) => destruct x
  | |- quiet _ (let _ := _ in _) => cbv zeta
  | |- quiet _ _ => solve [auto with quiet]
  end.

Ltac quiet_auto := repeat quiet_step.

Lemma quiet_schedulePing ch t text g : quiet key (schedulePing env ch t text g).
Proof. unfold schedulePing. quiet_auto. Qed.

Lemma quiet_removeScheduledByGroupKey g :
  quiet key (removeScheduledByGroupKey env g).
Proof. unfold removeScheduledByGroupKey. quiet_auto. Qed.

Lemma quiet_deliver item : quiet key (deliver env item).
Proof. unfold deliver. quiet_auto. Qed.

Lemma quiet_sweep_loop nowMs indices :
  ∀ changed, quiet key (sweep_loop env nowMs indices changed).
Proof.
  induction indices as [|i rest IH]; intros changed; simpl.
  - apply quiet_ret.
  - apply quiet_bind; [|intros c; apply IH].
    unfold sweep_item. pose proof quiet_deliver. quiet_auto.
Qed.

Lemma quiet_processScheduled nowMs : quiet key (processScheduled env nowMs).
Proof.
  unfold processScheduled. pose proof (quiet_sweep_loop nowMs). quiet_auto.
Qed.

Lemma quiet_run_items ch now items : quiet key (run_items env ch now items).
Proof.
  induction items as [|it rest IH]; simpl.
  - apply quiet_ret.
  - intros w Hf. unfold mbind, M_bind, get_state at 1.
    destruct (fires now (state w) it) eqn:Hfire; simpl when.
    + assert (flag_key it ≠ key) as Hne.
      { intros <-. unfold fires in Hfire. now rewrite Hf in Hfire. }
      destruct (send_ok env (tick w)) eqn:Hs.
      * rewrite fire_ok by done. eapply keeps_trans; [|apply IH].
        -- split; simpl.
           ++ rewrite flag_set_flag, Hf. apply orb_true_r.
           ++ eexists. split; [reflexivity|]. repeat constructor. simpl. congruence.
        -- simpl. rewrite flag_set_flag, Hf. apply orb_true_r.
      * rewrite fire_fail by done. now apply keeps_same.
    + simpl. now apply IH.
Qed.

Lemma quiet_runCheck now feed : quiet key (runCheck env now feed).
Proof.
  intros w Hf. unfold runCheck. destruct (runCheckRunning w); [now apply keeps_refl|].
  unfold try_finally.
  assert (quiet key (try_catch (runCheck_body env now feed)
                       (λ _, console_error "runCheck error:"))) as Hq.
  { unfold runCheck_body. apply quiet_try_catch; [|auto with quiet].
    apply quiet_bind; [auto with quiet|intros st].
    destruct (getPingChannelId st None) as [[|c ch]|]; try apply quiet_ret.
    apply quiet_bind; [auto with quiet|intros [| |]]; try apply quiet_ret.
    apply quiet_bind; [auto with quiet|intros evs].
    intros w1 Hf1. rewrite for_each_announce. now apply quiet_run_items. }
  specialize (Hq (with_running true w) Hf).
  destruct (try_catch _ _ _) as [r w1]. simpl in *.
  destruct Hq as (Hf1 & delta & Hout & Hall). split; [done|]. now exists delta.
Qed.

Lemma quiet_aoo_command now feed : quiet key (aoo_command env now feed).
Proof. unfold aoo_command, getNextAooRunEvent. quiet_auto. Qed.

Lemma quiet_config_command cmd role channel :
  quiet key (config_command env cmd role channel).
Proof. unfold config_command. quiet_auto. Qed.

Lemma quiet_interactionCreate nowMs i : quiet key (interactionCreate env nowMs i).
Proof.
  unfold interactionCreate, on_date_chosen, on_hour_chosen.
  pose proof quiet_schedulePing.
  pose proof quiet_removeScheduledByGroupKey.
  quiet_auto.
Qed.

Lemma quiet_exec op w :
  flag (state w) key = true → keeps key w (exec env op w).
Proof.
  intros Hf. destruct op; simpl.
  - now apply quiet_runCheck.
  - now apply quiet_processScheduled.
  - now apply quiet_schedulePing.
  - now apply quiet_removeScheduledByGroupKey.
  - now apply quiet_interactionCreate.
  - now apply quiet_aoo_command.
  - now apply quiet_config_command.
Qed.

End Quiet.

(** C3. Once a milestone flag is set, no sequence of operations unsets it,
    and none of them, a poll in particular, sends a message for that
    milestone again. *)
Theorem set_flag_is_final env key ops : ∀ w,
  flag (state w) key = true →
  let w' := foldl (λ w op, exec env op w) w ops in
  flag (state w') key = true ∧
  ∀ d, d ∈ new_deliveries w w' → cause d ≠ Milestone key.
Proof.
  intros w Hf. cbv zeta.
  assert (keeps key w (foldl (λ w op, exec env op w) w ops)) as Hk.
  { revert w Hf. induction ops as [|op ops IH]; intros w Hf; simpl.
    - now apply keeps_refl.
    - pose proof (quiet_exec key env op w Hf) as Hstep.
      eapply keeps_trans; [exact Hstep|]. apply IH, Hstep. }
  destruct Hk as (Hf' & delta & Hout & Hall). split; [done|].
  intros d Hd. rewrite (new_deliveries_app _ _ _ Hout) in Hd.
  rewrite Forall_forall in Hall. now apply Hall.
Qed.

(** *** The sweep *)

Lemma same_but_queue_trans w1 w2 w3 :
  same_but_queue w1 w2 → same_but_queue w2 w3 → same_but_queue w1 w3.
Proof. unfold same_but_queue. intuition congruence. Qed.

Lemma deliver_spec env item w :
  ∃ w', deliver env item w = (Ok tt, w') ∧
    state w' = state w ∧ same_but_queue w w' ∧
    ((outbox w' = outbox w ∧
      (fetch_channel env (tick w) (channelId item) = Some NoChannel ∨
       fetch_channel env (tick w) (channelId item) = Some NonTextChannel →
       w' = next_tick w))
     ∨ (outbox w' = outbox w ++ [job_delivery item] ∧ console w' = console w ∧
        fetch_channel env (tick w) (channelId item) = Some TextChannel)) ∧
    (healthy env → outbox w' = outbox w ++ [job_delivery item] ∧ console w' = console w) ∧
    (tick w < tick w')%nat.
Proof.
  unfold deliver, try_catch, mbind, M_bind, channels_fetch, healthy.
  destruct (fetch_channel env (tick w) (channelId item)) as [[| |]|] eqn:Hfetch.
  - eexists. split; [reflexivity|]. split_and!; try done; [| |simpl; lia].
    + left. auto.
    + intros [Hf _]. rewrite Hf in Hfetch. discriminate.
  - eexists. split; [reflexivity|]. split_and!; try done; [| |simpl; lia].
    + left. auto.
    + intros [Hf _]. rewrite Hf in Hfetch. discriminate.
  - unfold channel_send. simpl tick.
    destruct (send_ok env (S (tick w))) eqn:Hs.
    + eexists. split; [reflexivity|]. split_and!; try done; [|simpl; lia].
      right. done.
    + eexists. split; [reflexivity|]. split_and!; try done; [| |simpl; lia].
      * left. split; [done|]. intros [?|?]; discriminate.
      * intros [_ Hsend]. rewrite Hsend in Hs. discriminate.
  - eexists. split; [reflexivity|]. split_and!; try done; [| |simpl; lia].
    + left. split; [done|]. intros [?|?]; discriminate.
    + intros [Hf _]. rewrite Hf in Hfetch. discriminate.
Qed.

Lemma is_due_mark nowMs x : is_due nowMs (mark x) = false.
Proof. reflexivity. Qed.

Lemma swept_alter env nowMs l i d :
  swept env nowMs (alter (mark_due nowMs) i l) d → swept env nowMs l d.
Proof.
  intros (x & n & Hin & Hdue & Hd & Hfetch).
  exists x, n. split_and!; try done.
  apply list_elem_of_lookup in Hin as [j Hj].
  destruct (decide (i = j)) as [->|Hne].
  - rewrite list_lookup_alter_eq in Hj.
    destruct (l !! j) as [y|] eqn:Hy; simpl in Hj; [|discriminate].
    injection Hj as <-. unfold mark_due in *.
    destruct (is_due nowMs y).
    + rewrite is_due_mark in Hdue. discriminate.
    + apply list_elem_of_lookup. eauto.
  - rewrite list_lookup_alter_ne in Hj by done.
    apply list_elem_of_lookup. eauto.
Qed.

Lemma alter_fixed {A} (f : A → A) (l : list A) i :
  (∀ x, l !! i = Some x → f x = x) → alter f i l = l.
Proof.
  intros Hf. apply list_eq. intros j. destruct (decide (i = j)) as [<-|Hne].
  - rewrite list_lookup_alter_eq. destruct (l !! i) as [x|] eqn:Hx; [|done].
    simpl. now rewrite Hf.
  - now rewrite list_lookup_alter_ne.
Qed.

Lemma sweep_item_skip env nowMs i w :
  default false (is_due nowMs <$> scheduled (state w) !! i) = false →
  sweep_item env nowMs i w = (Ok false, w) ∧
  alter (mark_due nowMs) i (scheduled (state w)) = scheduled (state w).
Proof.
  intros Hnot. split.
  - unfold sweep_item, mbind, M_bind, get_state.
    destruct (scheduled (state w) !! i) as [x|]; [|done].
    simpl in Hnot. unfold is_due in Hnot.
    destruct (sent x); [done|]. simpl in Hnot.
    apply Z.leb_gt, Z.ltb_lt in Hnot. now rewrite Hnot.
  - apply alter_fixed. intros x Hx. rewrite Hx in Hnot. simpl in Hnot.
    unfold mark_due. now rewrite Hnot.
Qed.

(** One iteration of the sweep. *)
Lemma sweep_item_spec env nowMs i w :
  ∃ w',
    sweep_item env nowMs i w =
      (Ok (default false (is_due nowMs <$> scheduled (state w) !! i)), w') ∧
    scheduled (state w') =
      alter (mark_due nowMs) i (scheduled (state w)) ∧
    same_but_queue w w' ∧
    ∃ delta, outbox w' = outbox w ++ delta ∧
      Forall (swept env nowMs (scheduled (state w))) delta ∧
      (healthy env →
         delta = map job_delivery
                   (List.filter (is_due nowMs) (option_list (scheduled (state w) !! i))) ∧
         console w' = console w) ∧
      (tick w + length (List.filter (is_due nowMs)
                          (option_list (scheduled (state w) !! i))) ≤ tick w')%nat.
Proof.
  destruct (default false (is_due nowMs <$> scheduled (state w) !! i)) eqn:Hdue.
  2:{ destruct (sweep_item_skip env nowMs i w Hdue) as [Hrun Halter].
      exists w. rewrite Hrun, Halter. split_and!; try done.
      assert (List.filter (is_due nowMs) (option_list (scheduled (state w) !! i)) = [])
        as ->.
      { destruct (scheduled (state w) !! i) as [x|]; [|done].
        simpl in *. now rewrite Hdue. }
      exists []. rewrite app_nil_r. split_and!; try done. simpl. lia. }
  destruct (scheduled (state w) !! i) as [x|] eqn:Hx; [|done]. simpl in Hdue.
  unfold sweep_item, mbind, M_bind, get_state. rewrite Hx.
  unfold is_due in Hdue. apply andb_true_iff in Hdue as [Hsent Hle].
  apply negb_true_iff in Hsent. rewrite Hsent.
  assert ((nowMs <? runAtMs x) = false) as ->
    by (apply Z.ltb_ge; now apply Z.leb_le).
  assert (is_due nowMs x = true) as Hdue by (unfold is_due; now rewrite Hsent, Hle).
  destruct (deliver_spec env x w) as (w1 & Hrun & Hst & Hsame & Hout & Hhealthy & Htick).
  rewrite Hrun. eexists. split; [reflexivity|].
  unfold modify_state, with_state, mark_sent. simpl. rewrite Hst.
  split; [|split].
  - apply list_alter_ext; [|done]. intros y Hy. rewrite Hx in Hy. injection Hy as <-.
    unfold mark_due. now rewrite Hdue.
  - destruct Hsame as (? & ? & ? & ? & ? & ?). repeat split; simpl; congruence.
  - destruct Hout as [[Hout _]|(Hout & _ & Hfetch)].
    + exists []. rewrite app_nil_r. split; [done|]. split; [constructor|]. split.
      * intros Hh. destruct (Hhealthy Hh) as [Hout' Hc]. rewrite Hout' in Hout.
        apply (f_equal length) in Hout. rewrite length_app in Hout. simpl in Hout. lia.
      * simpl. rewrite Hdue. simpl. lia.
    + exists [job_delivery x]. split; [done|]. split; [|split].
      * constructor; [|constructor]. exists x, (tick w). split_and!; try done.
        apply list_elem_of_lookup. eauto.
      * intros Hh. rewrite Hdue. split; [done|]. now apply Hhealthy.
      * simpl. rewrite Hdue. simpl. lia.
Qed.

(** The sweep loop over the indices [i0, i0 + n). *)
Lemma sweep_loop_spec env nowMs : ∀ n i0 changed w,
  ∃ w',
    sweep_loop env nowMs (seq i0 n) changed w =
      (Ok (changed || existsb (is_due nowMs) (take n (drop i0 (scheduled (state w))))),
       w') ∧
    (∀ j, scheduled (state w') !! j =
          if bool_decide (i0 ≤ j < i0 + n)%nat
          then mark_due nowMs <$> scheduled (state w) !! j
          else scheduled (state w) !! j) ∧
    same_but_queue w w' ∧
    (existsb (is_due nowMs) (take n (drop i0 (scheduled (state w)))) = false → w' = w) ∧
    ∃ delta, outbox w' = outbox w ++ delta ∧
      Forall (swept env nowMs (scheduled (state w))) delta ∧
      (healthy env →
         delta = map job_delivery
                   (List.filter (is_due nowMs) (take n (drop i0 (scheduled (state w))))) ∧
         console w' = console w) ∧
      (tick w + length (List.filter (is_due nowMs)
                          (take n (drop i0 (scheduled (state w))))) ≤ tick w')%nat.
Proof.
  induction n as [|n IH]; intros i0 changed w.
  - exists w. simpl. rewrite orb_false_r. split_and!; try done.
    + intros j. rewrite bool_decide_eq_false_2 by lia. done.
    + exists []. rewrite app_nil_r. split_and!; try done. lia.
  - cbn [seq sweep_loop]. unfold mbind, M_bind.
    destruct (sweep_item_spec env nowMs i0 w)
      as (w1 & Hrun & Hl1 & Hsame1 & d1 & Hout1 & Hsw1 & Hh1 & Htick1).
    rewrite Hrun.
    destruct (IH (S i0) (changed || default false (is_due nowMs <$> scheduled (state w) !! i0)) w1)
      as (w' & Hrun' & Hl' & Hsame' & Hnone' & d2 & Hout2 & Hsw2 & Hh2 & Htick2).
    rewrite Hrun'. exists w'.
    assert (take n (drop (S i0) (scheduled (state w1))) =
            take n (drop (S i0) (scheduled (state w)))) as Hrest.
    { rewrite Hl1, drop_alter_lt by lia. done. }
    assert (take (S n) (drop i0 (scheduled (state w))) =
            option_list (scheduled (state w) !! i0) ++
            take n (drop (S i0) (scheduled (state w)))) as Hsplit.
    { destruct (scheduled (state w) !! i0) as [x|] eqn:Hx.
      - erewrite drop_S by exact Hx. reflexivity.
      - apply lookup_ge_None in Hx. rewrite !drop_ge by lia. now rewrite !take_nil. }
    rewrite Hrest in *. rewrite Hsplit.
    split_and!.
    + f_equal. f_equal. rewrite existsb_app, <- orb_assoc. f_equal. f_equal.
      destruct (scheduled (state w) !! i0); simpl; [now rewrite orb_false_r|done].
    + intros j. rewrite Hl', Hl1.
      destruct (decide (i0 = j)) as [<-|Hne].
      * rewrite (bool_decide_eq_false_2 (S i0 ≤ i0 < _)%nat) by lia.
        rewrite (bool_decide_eq_true_2 (i0 ≤ i0 < _)%nat) by lia.
        apply list_lookup_alter_eq.
      * rewrite list_lookup_alter_ne by done.
        apply (f_equal (λ b : bool, if b then _ else _)).
        apply bool_decide_ext. lia.
    + eapply same_but_queue_trans; eassumption.
    + rewrite existsb_app. intros Hnone. apply orb_false_iff in Hnone as [Hhere Hrest'].
      assert (default false (is_due nowMs <$> scheduled (state w) !! i0) = false) as Hskip.
      { destruct (scheduled (state w) !! i0); simpl in *; [|done].
        now rewrite orb_false_r in Hhere. }
      destruct (sweep_item_skip env nowMs i0 w Hskip) as [Hrun0 _].
      rewrite Hrun0 in Hrun. injection Hrun as _ <-. now apply Hnone'.
    + exists (d1 ++ d2). rewrite Hout2, Hout1, app_assoc. split; [done|].
      split; [|split].
      * apply Forall_app. split; [done|].
        eapply Forall_impl; [exact Hsw2|]. intros d Hd. rewrite Hl1 in Hd.
        eapply swept_alter, Hd.
      * intros Hh. destruct (Hh1 Hh) as [-> Hc1]. destruct (Hh2 Hh) as [-> Hc2].
        rewrite List.filter_app, map_app. split; [done|congruence].
      * rewrite List.filter_app, length_app. lia.
Qed.

Lemma filter_unsent_mark_due nowMs l :
  List.filter (λ x, negb (sent x)) (map (mark_due nowMs) l) =
  List.filter (pending nowMs) l.
Proof.
  induction l as [|x l IH]; [done|]. cbn [map List.filter]. rewrite IH.
  unfold mark_due, is_due, pending.
  destruct (sent x) eqn:Hs; simpl; [now rewrite Hs|].
  destruct (Z.leb_spec (runAtMs x) nowMs) as [Hle|Hgt]; simpl.
  - replace (nowMs <? runAtMs x) with false by (symmetry; apply Z.ltb_ge; lia). done.
  - rewrite Hs. simpl.
    replace (nowMs <? runAtMs x) with true by (symmetry; apply Z.ltb_lt; lia). done.
Qed.

Lemma filter_length_le {A} (p : A → bool) l :
  (length (List.filter p l) ≤ length l)%nat.
Proof. induction l as [|x l IH]; simpl; [lia|]. destruct (p x); simpl; lia. Qed.

Lemma filter_length_eq {A} (p : A → bool) l :
  length (List.filter p l) = length l → List.filter p l = l.
Proof.
  induction l as [|x l IH]; simpl; [done|].
  pose proof (filter_length_le p l) as Hle. destruct (p x); simpl; intros H; [|lia].
  f_equal. apply IH. lia.
Qed.

Lemma due_not_pending nowMs l :
  existsb (is_due nowMs) l = true →
  (length (List.filter (pending nowMs) l) < length l)%nat.
Proof.
  induction l as [|x l IH]; simpl; [done|].
  pose proof (filter_length_le (pending nowMs) l) as Hle.
  intros H. apply orb_true_iff in H as [H|H].
  - assert (pending nowMs x = false) as ->; [|lia].
    unfold is_due, pending in *. apply andb_true_iff in H as [-> H]. simpl.
    apply Z.ltb_ge. now apply Z.leb_le.
  - specialize (IH H). destruct (pending nowMs x); simpl; lia.
Qed.

(** The whole sweep. *)
Lemma processScheduled_spec env nowMs w :
  let l := scheduled (state w) in
  ∃ w1 w',
    sweep_loop env nowMs (seq 0 (length l)) false w =
      (Ok (existsb (is_due nowMs) l), w1) ∧
    scheduled (state w1) = map (mark_due nowMs) l ∧
    processScheduled env nowMs w = (Ok tt, w') ∧
    scheduled (state w') = List.filter (pending nowMs) l ∧
    same_but_queue w w1 ∧
    (tick w + length (List.filter (is_due nowMs) l) ≤ tick w1)%nat ∧
    config (state w') = config (state w) ∧ flags (state w') = flags (state w) ∧
    responses w' = responses w ∧ runCheckRunning w' = runCheckRunning w ∧
    (List.filter (pending nowMs) l = l → w' = w) ∧
    (List.filter (pending nowMs) l ≠ l →
       saves w' = S (saves w) ∧
       (write_ok env (tick w1) = true → file w' = Some (state w'))) ∧
    ∃ delta, outbox w' = outbox w ++ delta ∧
      Forall (swept env nowMs l) delta ∧
      (healthy env →
         delta = map job_delivery (List.filter (is_due nowMs) l) ∧
         (write_ok env (tick w1) = true → console w' = console w)).
Proof.
  intros l.
  destruct (sweep_loop_spec env nowMs (length l) 0 false w)
    as (w1 & Hrun & Hl1 & Hsame & Hnone & delta & Hout & Hsw & Hh & Htick).
  fold l in Hrun, Hl1, Hsw, Hh, Hnone, Htick.
  rewrite drop_0, firstn_all in Hrun, Hh, Hnone, Htick.
  simpl orb in Hrun.
  assert (scheduled (state w1) = map (mark_due nowMs) l) as Hmarked.
  { apply list_eq. intros j. rewrite Hl1.
    change (map (mark_due nowMs) l) with (mark_due nowMs <$> l).
    rewrite list_lookup_fmap.
    destruct (decide (j < length l)%nat).
    - rewrite bool_decide_eq_true_2 by lia. done.
    - rewrite bool_decide_eq_false_2 by lia.
      rewrite (proj2 (lookup_ge_None l j)) by lia. done. }
  exists w1.
  unfold processScheduled, mbind, M_bind, get_state. fold l. rewrite Hrun.
  unfold modify_state, with_state. cbn [state set_scheduled scheduled].
  rewrite Hmarked, filter_unsent_mark_due, length_map.
  destruct Hsame as (Hcfg & Hfl & Hfile & Hsaves & Hresp & Hrunning).
  destruct (Nat.eqb_spec (length (List.filter (pending nowMs) l)) (length l)) as [Heq|Hne].
  - apply filter_length_eq in Heq as Hkeep.
    assert (existsb (is_due nowMs) l = false) as Hnodue.
    { destruct (existsb (is_due nowMs) l) eqn:He; [|done].
      apply due_not_pending in He. lia. }
    rewrite Hnodue. simpl when. specialize (Hnone Hnodue). subst w1.
    assert (delta = []) as ->.
    { apply (f_equal length) in Hout. rewrite length_app in Hout.
      destruct delta; [done|simpl in Hout; lia]. }
    eexists. split_and!; try done.
    + intros _. rewrite Hkeep. subst l. destruct w as [[? ? ?] ? ? ? ? ? ? ?]. done.
    + exists []. rewrite app_nil_r. split_and!; try done.
      intros Hh'. destruct (Hh Hh') as [Hd _]. done.
  - assert (existsb (is_due nowMs) l || negb false = true) as -> by apply orb_true_r.
    simpl when. unfold saveState. cbn [tick state file saves console outbox].
    destruct (write_ok env (tick w1)) eqn:Hw.
    + eexists. split_and!; try done; simpl; try congruence.
      * intros _. split; [congruence|done].
      * exists delta. split_and!; try done.
        intros Hh'. destruct (Hh Hh') as [-> Hc]. done.
    + eexists. split_and!; try done; simpl; try congruence.
      * intros _. split; [congruence|done].
      * exists delta. split_and!; try done.
        intros Hh'. destruct (Hh Hh') as [-> Hc]. done.
Qed.

Lemma elem_of_filter_bool {A} (p : A → bool) (l : list A) x :
  x ∈ List.filter p l ↔ x ∈ l ∧ p x = true.
Proof. rewrite !list_elem_of_In. apply filter_In. Qed.

(** C6. One sweep consults the gateway at least once for every unsent job
    that is due and marks it as sent, whatever the gateway does, then drops
    every job that is sent, so that exactly the unsent jobs that are not yet
    due remain, in order; it saves at most once, and only if the queue
    changed; with a working gateway every due job's message is delivered
    once. *)
Theorem sweep_marks_and_evicts env nowMs w :
  let l := scheduled (state w) in
  ∃ w1 w',
    sweep_loop env nowMs (seq 0 (length l)) false w =
      (Ok (existsb (is_due nowMs) l), w1) ∧
    scheduled (state w1) = map (mark_due nowMs) l ∧
    (tick w + length (List.filter (is_due nowMs) l) ≤ tick w1)%nat ∧
    processScheduled env nowMs w = (Ok tt, w') ∧
    scheduled (state w') = List.filter (pending nowMs) l ∧
    (∀ x, x ∈ l → is_due nowMs x = true ∨ sent x = true →
          x ∉ scheduled (state w')) ∧
    (saves w' ≤ S (saves w))%nat ∧
    (scheduled (state w') = l → w' = w) ∧
    (scheduled (state w') ≠ l →
       saves w' = S (saves w) ∧
       (write_ok env (tick w1) = true → file w' = Some (state w'))) ∧
    (healthy env →
       new_deliveries w w' = map job_delivery (List.filter (is_due nowMs) l)).
Proof.
  intros l.
  destruct (processScheduled_spec env nowMs w)
    as (w1 & w' & Hloop & Hmarked & Hrun & Hq & _ & Htick & _ & _ & _ & _ & Hsame
        & Hchanged & delta & Hout & _ & Hh).
  fold l in Hloop, Hmarked, Hq, Hsame, Hchanged, Hh, Htick.
  exists w1, w'. split_and!; try done.
  - intros x Hin Hx. rewrite Hq, elem_of_filter_bool. intros [_ Hp].
    unfold pending, is_due in *. destruct Hx as [Hx|Hx].
    + apply andb_true_iff in Hx as [_ Hx]. apply andb_true_iff in Hp as [_ Hp].
      apply Z.leb_le in Hx. apply Z.ltb_lt in Hp. lia.
    + rewrite Hx in Hp. discriminate.
  - destruct (decide (length (List.filter (pending nowMs) l) = length l)) as [He|Hne].
    + rewrite (Hsame (filter_length_eq _ _ He)). lia.
    + destruct Hchanged as [-> _]; [congruence|lia].
  - rewrite Hq. exact Hsame.
  - rewrite Hq. exact Hchanged.
  - intros Hhealthy. destruct (Hh Hhealthy) as [-> _].
    now apply new_deliveries_app.
Qed.

(** C10. Neither the sweep nor the delivery of a job ever throws.  A due job
    whose channel resolves to no channel or to one that is not text-based is
    passed over without a send and without a log line, is marked sent like
    the others and is gone from the queue afterwards. *)
Theorem unresolved_channel_is_skipped env nowMs w :
  (∃ w', processScheduled env nowMs w = (Ok tt, w')) ∧
  (∀ item w0, ∃ w1, deliver env item w0 = (Ok tt, w1)) ∧
  ∀ c,
    (∀ n, fetch_channel env n c = Some NoChannel
          ∨ fetch_channel env n c = Some NonTextChannel) →
    (∀ item w0, channelId item = c → deliver env item w0 = (Ok tt, next_tick w0)) ∧
    (∀ d, d ∈ new_deliveries w (snd (processScheduled env nowMs w)) → to d ≠ c) ∧
    (∀ x, x ∈ scheduled (state w) → channelId x = c → is_due nowMs x = true →
          mark x ∈ scheduled
                     (state (snd (sweep_loop env nowMs
                                    (seq 0 (length (scheduled (state w)))) false w))) ∧
          x ∉ scheduled (state (snd (processScheduled env nowMs w)))).
Proof.
  destruct (processScheduled_spec env nowMs w)
    as (w1 & w' & Hloop & Hmarked & Hrun & Hq & _ & _ & _ & _ & _ & _ & _ & _
        & delta & Hout & Hsw & _).
  split; [eauto|]. split.
  { intros item w0. destruct (deliver_spec env item w0) as (w2 & Hd & _). eauto. }
  intros c Hc. rewrite Hrun, Hloop. cbn [snd]. split_and!.
  - intros item w0 <-.
    destruct (deliver_spec env item w0) as (w2 & Hd & _ & _ & [[_ Hskip]|(_ & _ & Hf)] & _).
    + rewrite Hd, (Hskip (Hc _)). done.
    + destruct (Hc (tick w0)); congruence.
  - intros d Hd. rewrite (new_deliveries_app _ _ _ Hout) in Hd.
    rewrite Forall_forall in Hsw. destruct (Hsw d Hd) as (x & n & _ & _ & -> & Hf).
    simpl. intros Heq. rewrite Heq in Hf. destruct (Hc n); congruence.
  - intros x Hin Hch Hdue. split.
    + rewrite Hmarked. apply list_elem_of_In, in_map_iff. exists x.
      unfold mark_due. rewrite Hdue. split; [done|]. now apply list_elem_of_In.
    + rewrite Hq, elem_of_filter_bool. intros [_ Hp].
      unfold pending, is_due in *.
      apply andb_true_iff in Hdue as [_ Hx]. apply andb_true_iff in Hp as [_ Hp].
      apply Z.leb_le in Hx. apply Z.ltb_lt in Hp. lia.
Qed.

(** *** The queue and the hour step *)

Lemma survives_cancelled group x : survives group x = negb (cancelled group x).
Proof. unfold survives, cancelled. now destruct (sent x), (bool_decide _). Qed.

Lemma filter_length_complement {A} (p q : A → bool) l :
  (∀ x, p x = negb (q x)) →
  (length l - length (List.filter p l))%nat = length (List.filter q l).
Proof.
  intros Hpq. induction l as [|x l IH]; simpl; [done|].
  pose proof (filter_length_le p l) as Hle.
  rewrite Hpq. destruct (q x); simpl; lia.
Qed.

Lemma removeScheduledByGroupKey_spec env group w :
  truthy group = true →
  let l := scheduled (state w) in
  ∃ w',
    removeScheduledByGroupKey env group w =
      (Ok (length (List.filter (cancelled group) l)), w') ∧
    scheduled (state w') = List.filter (survives group) l ∧
    config (state w') = config (state w) ∧ flags (state w') = flags (state w) ∧
    outbox w' = outbox w ∧ responses w' = responses w ∧
    runCheckRunning w' = runCheckRunning w ∧
    (List.filter (cancelled group) l = [] → w' = w) ∧
    (List.filter (cancelled group) l ≠ [] →
       saves w' = S (saves w) ∧ tick w' = S (tick w) ∧
       (write_ok env (tick w) = true → file w' = Some (state w'))).
Proof.
  intros Htruthy l.
  unfold removeScheduledByGroupKey. rewrite Htruthy. cbn [negb].
  unfold mbind, M_bind, get_state, modify_state, with_state.
  cbn [state scheduled set_scheduled]. fold l.
  rewrite (filter_length_complement _ (cancelled group)) by apply survives_cancelled.
  destruct (List.filter (cancelled group) l) as [|x rest] eqn:Hc.
  - cbn [length Nat.eqb negb when]. eexists. split; [reflexivity|].
    split_and!; try done.
    intros _.
    assert (List.filter (survives group) l = l) as ->.
    { apply filter_length_eq.
      pose proof (filter_length_complement (survives group) (cancelled group) l
                    (survives_cancelled group)) as Hlen.
      pose proof (filter_length_le (survives group) l). rewrite Hc in Hlen.
      simpl in Hlen. lia. }
    subst l. destruct w as [[? ? ?] ? ? ? ? ? ? ?]. done.
  - cbn [length Nat.eqb negb when]. unfold saveState. cbn [tick state].
    destruct (write_ok env (tick w)); (eexists; split; [reflexivity|]);
      split_and!; try done.
Qed.

Lemma schedulePing_spec env ch t text g w :
  ∃ w',
    schedulePing env ch t text g w = (Ok tt, w') ∧
    scheduled (state w') = scheduled (state w) ++ [new_job env (tick w) ch t text g] ∧
    config (state w') = config (state w) ∧ flags (state w') = flags (state w) ∧
    outbox w' = outbox w ∧ responses w' = responses w ∧
    runCheckRunning w' = runCheckRunning w ∧
    saves w' = S (saves w) ∧ tick w' = S (S (tick w)) ∧
    (write_ok env (S (tick w)) = true → file w' = Some (state w')).
Proof.
  unfold schedulePing, mbind, M_bind, Math_random, modify_state, with_state, saveState.
  cbn [tick next_tick state].
  destruct (write_ok env (S (tick w))); (eexists; split; [reflexivity|]);
    split_and!; done.
Qed.

(** C5. [removeScheduledByGroupKey] with an empty key does nothing and
    returns 0; otherwise it removes exactly the unsent jobs of the group,
    keeps every sent job and every job of another group in place, returns
    the number removed and saves only when that number is not 0.  After a
    removal followed by two insertions under the key, the unsent jobs of the
    key are exactly the two new ones. *)
Theorem cancel_group_removes_unsent_of_group env group w :
  let l := scheduled (state w) in
  (truthy group = false → removeScheduledByGroupKey env group w = (Ok 0%nat, w)) ∧
  (truthy group = true →
   ∃ w',
     removeScheduledByGroupKey env group w =
       (Ok (length (List.filter (cancelled group) l)), w') ∧
     scheduled (state w') = List.filter (survives group) l ∧
     (∀ x, x ∈ scheduled (state w') ↔
           x ∈ l ∧ (sent x = true ∨ groupKey x ≠ group)) ∧
     (List.filter (cancelled group) l = [] → w' = w) ∧
     (List.filter (cancelled group) l ≠ [] →
        saves w' = S (saves w) ∧
        (write_ok env (tick w) = true → file w' = Some (state w'))) ∧
     ∀ channel t1 text1 t2 text2,
       ∃ id1 id2,
         List.filter (cancelled group)
           (scheduled (state (snd ((schedulePing env channel t1 text1 group;;
                                    schedulePing env channel t2 text2 group) w')))) =
         [mkJob id1 channel t1 text1 false group;
          mkJob id2 channel t2 text2 false group]).
Proof.
  intros l. split.
  - intros Hf. unfold removeScheduledByGroupKey. now rewrite Hf.
  - intros Ht.
    destruct (removeScheduledByGroupKey_spec env group w Ht)
      as (w' & Hrun & Hq & _ & _ & _ & _ & _ & Hsame & Hchanged).
    fold l in Hrun, Hq, Hsame, Hchanged.
    exists w'. split_and!; try done.
    + intros x. rewrite Hq, elem_of_filter_bool. unfold survives.
      rewrite orb_true_iff, negb_true_iff, bool_decide_eq_false. done.
    + intros Hne. destruct (Hchanged Hne) as (? & _ & ?). done.
    + intros channel t1 text1 t2 text2.
      unfold mbind, M_bind.
      destruct (schedulePing_spec env channel t1 text1 group w')
        as (w1 & Hr1 & Hq1 & _). rewrite Hr1.
      destruct (schedulePing_spec env channel t2 text2 group w1)
        as (w2 & Hr2 & Hq2 & _). rewrite Hr2. cbn [snd].
      eexists _, _. rewrite Hq2, Hq1, Hq, !List.filter_app.
      assert (List.filter (cancelled group) (List.filter (survives group) l) = []) as ->.
      { clear. induction l as [|x l IH]; [done|]. simpl.
        destruct (survives group x) eqn:Hs; [|done]. simpl.
        rewrite survives_cancelled in Hs. apply negb_true_iff in Hs. now rewrite Hs. }
      unfold new_job, cancelled. simpl.
      rewrite !bool_decide_eq_true_2 by done. reflexivity.
Qed.

Lemma hour_not_date id :
  startsWith id "aoo_hour|" = true → startsWith id "aoo_date|" = false.
Proof.
  unfold startsWith. intros H.
  destruct (String.prefix "aoo_date|" id) eqn:Hd; [|done].
  apply prefix_correct in H, Hd. simpl String.length in *. congruence.
Qed.

(** The handler hands an hour selection to the hour step. *)
Lemma interactionCreate_hour env nowMs i id w :
  hour_selection w i id →
  interactionCreate env nowMs i w =
    try_catch (on_hour_chosen env nowMs i id)
      (λ e,
         console_error "Interaction error:";;
         try_catch
           (when (isRepliable i)
              (respond env (Reply "Error handling selection." true [])))
           (λ _, mret tt)) w.
Proof.
  intros (Hmenu & Hcan & Hid & Hpre).
  unfold interactionCreate, try_catch. rewrite Hmenu. cbn [negb].
  unfold mbind, M_bind, get_state. rewrite Hcan, Hid. cbn [negb].
  change (default ""%string (Some id)) with id.
  rewrite (hour_not_date id Hpre), Hpre. reflexivity.
Qed.

Lemma on_hour_rejected env nowMs i id w r :
  rejection i id = Some r →
  on_hour_chosen env nowMs i id w =
    match r with
    | BadToken => (Throw "TypeError: dateISO.split"%string, w)
    | _ => respond env (Reply (rejection_text r) true []) w
    end.
Proof.
  unfold rejection, on_hour_chosen, in_window.
  destruct (head (values i)) as [[|c s]|]; try (intros [= <-]; reflexivity).
  destruct (String.eqb (String c s) "none"); [intros [= <-]; reflexivity|].
  destruct (split "|" id !! 3%nat) as [dateISO|]; [|intros [= <-]; reflexivity].
  destruct (instant_of dateISO (Number_ (String c s))) as [t|];
    [|intros [= <-]; reflexivity].
  destruct (ge_num t _ && lt_num t _); [discriminate|].
  intros [= <-]. reflexivity.
Qed.

(** A token without a date part, with a bound that is not a number, or with
    a date and hour that give no instant, is turned down. *)
Lemma malformed_token_is_rejected i id hourStr :
  head (values i) = Some hourStr →
  split "|" id !! 3%nat = None
  ∨ Number_opt (split "|" id !! 1%nat) = NaN
  ∨ Number_opt (split "|" id !! 2%nat) = NaN
  ∨ (∃ d, split "|" id !! 3%nat = Some d ∧ instant_of d (Number_ hourStr) = None) →
  ∃ r, rejection i id = Some r.
Proof.
  intros Hhead Hbad. unfold rejection. rewrite Hhead.
  destruct hourStr as [|c s]; [eauto|].
  destruct (String.eqb (String c s) "none"); [eauto|].
  destruct (split "|" id !! 3%nat) as [d|] eqn:Hd; [|eauto].
  assert (in_window (instant_of d (Number_ (String c s)))
            (Number_opt (split "|" id !! 1%nat))
            (Number_opt (split "|" id !! 2%nat)) = false) as ->; [|eauto].
  unfold in_window. destruct Hbad as [Hbad|[Hbad|[Hbad|(d' & Hd' & Hbad)]]].
  - discriminate.
  - rewrite Hbad. now destruct (instant_of _ _).
  - rewrite Hbad. destruct (instant_of _ _); [|done]. apply andb_false_r.
  - injection Hd' as <-. now rewrite Hbad.
Qed.

(** C9 (amended). An hour selection that carries no hour or the sentinel,
    whose token has no date part, or whose instant is not in the token's
    window (as with every token whose date or bound does not read as a
    number), is answered without a throw and without touching the store,
    the file or any channel; when the answer can be delivered it is the
    error message of the case.  Whether the token's window has passed, and
    whether the bot wrote the token, is not looked at. *)
Theorem rejected_selection_changes_nothing env nowMs i id w r :
  hour_selection w i id →
  rejection i id = Some r →
  isRepliable i = true →
  ∃ w',
    interactionCreate env nowMs i w = (Ok tt, w') ∧
    state w' = state w ∧ file w' = file w ∧ saves w' = saves w ∧
    outbox w' = outbox w ∧
    (reply_ok env (tick w) = true →
       responses w' = responses w ++ [Reply (rejection_text r) true []]).
Proof.
  intros Hsel Hrej Hrep.
  rewrite (interactionCreate_hour env nowMs i id w Hsel).
  unfold try_catch at 1. rewrite (on_hour_rejected env nowMs i id w r Hrej).
  unfold mbind, M_bind, console_error, try_catch, when, respond. rewrite Hrep.
  destruct r; cbn [tick state file saves outbox responses];
    destruct (reply_ok env (tick w)) eqn:H1; cbn [tick next_tick];
    try destruct (reply_ok env (S (tick w)));
    (eexists; split; [reflexivity|]); split_and!; done.
Qed.

(** C7. An hour selection whose instant [t] lies in the token's window
    first cancels the unsent jobs of the member's group, then appends a job
    for [t - 30 min] and one for [t - 10 min], each only if it is later than
    now; the answer reports the number of jobs appended (0, 1 or 2) and, for
    0, says that both times are in the past. *)
Theorem hour_selection_schedules_reminders env nowMs i id w hourStr dateISO t :
  hour_selection w i id →
  head (values i) = Some hourStr →
  rejection i id = None →
  split "|" id !! 3%nat = Some dateISO →
  instant_of dateISO (Number_ hourStr) = Some t →
  (∀ n, reply_ok env n = true) →
  let group := Some (group_of i) in
  let channel := interaction_channelId i in
  ∃ w' jobs,
    interactionCreate env nowMs i w = (Ok tt, w') ∧
    scheduled (state w') =
      List.filter (survives group) (scheduled (state w)) ++ jobs ∧
    map (λ x, (channelId x, runAtMs x, sent x, groupKey x)) jobs =
      (if nowMs <? t - 30 * 60 * 1000
       then [(channel, t - 30 * 60 * 1000, false, group)] else []) ++
      (if nowMs <? t - 10 * 60 * 1000
       then [(channel, t - 10 * 60 * 1000, false, group)] else []) ∧
    (length jobs ≤ 2)%nat ∧
    responses w' =
      responses w ++ [Update (accepted_text t (Z.of_nat (length jobs))) []].
Proof.
  intros Hsel Hhead Hrej Hdate Hinst Hreply group channel.
  rewrite (interactionCreate_hour env nowMs i id w Hsel).
  unfold try_catch at 1.
  unfold rejection in Hrej. unfold on_hour_chosen.
  rewrite Hhead in *. destruct hourStr as [|c s]; [discriminate|].
  destruct (String.eqb (String c s) "none"); [discriminate|].
  rewrite Hdate in *. rewrite Hinst in *. unfold in_window in Hrej.
  destruct (ge_num t _ && lt_num t _); [|discriminate]. cbn [negb].
  fold (group_of i). fold group. fold channel.
  unfold mbind, M_bind.
  destruct (removeScheduledByGroupKey_spec env group w) as
    (w1 & Hr1 & Hq1 & _ & _ & _ & Hresp1 & _); [reflexivity|].
  rewrite Hr1.
  destruct (nowMs <? t - 30 * 60 * 1000);
    destruct (nowMs <? t - 10 * 60 * 1000);
    unfold mret, M_ret; cbv beta iota;
    repeat match goal with
    | |- context [schedulePing env ?ch ?t ?m ?g ?w0] =>
        let w2 := fresh "w" in let Hr := fresh "Hr" in
        let Hq := fresh "Hq" in let Hresp := fresh "Hresp" in
        destruct (schedulePing_spec env ch t m g w0)
          as (w2 & Hr & Hq & _ & _ & _ & Hresp & _);
        rewrite Hr; unfold mret, M_ret; cbv beta iota
    end;
    unfold mret, M_ret; cbv beta iota;
    unfold respond; cbv beta; rewrite Hreply;
    eexists _, _; (split; [reflexivity|]);
    cbn [state scheduled responses];
    repeat match goal with H : scheduled _ = _ |- _ => rewrite H; clear H end;
    repeat match goal with H : responses _ = _ |- _ => rewrite H; clear H end;
    rewrite <- ?app_assoc.
  - split; [reflexivity|]. split_and!; [reflexivity|simpl; lia|reflexivity].
  - split; [reflexivity|]. split_and!; [reflexivity|simpl; lia|reflexivity].
  - split; [reflexivity|]. split_and!; [reflexivity|simpl; lia|reflexivity].
  - split; [symmetry; apply app_nil_r|].
    split_and!; [reflexivity|simpl; lia|reflexivity].
Qed.

(** *** Rounding *)

Lemma Qred_inject_Z z : Qred (inject_Z z) = inject_Z z.
Proof.
  unfold Qred, inject_Z.
  pose proof (Z.ggcd_gcd z 1) as Hg. pose proof (Z.ggcd_correct_divisors z 1) as Hd.
  destruct (Z.ggcd z 1) as [g [aa bb]]. cbn [fst snd] in *.
  rewrite Z.gcd_1_r in Hg. subst g. destruct Hd as [Ha Hb].
  f_equal; [lia|]. destruct bb; lia.
Qed.

Lemma Qred_eq_inject_Z q z : q == inject_Z z → Qred q = inject_Z z.
Proof. intros H. rewrite <- Qred_inject_Z. now apply Qred_complete. Qed.

Lemma round_half_even_exact n : round_half_even n 1 = n.
Proof.
  unfold round_half_even. rewrite Z.mod_1_r, Z.div_1_r. reflexivity.
Qed.

Lemma ilog2_Z n : 0 < n → ilog2 n 1 = Z.log2 n.
Proof.
  intros Hn. unfold ilog2. change (Z.log2 1) with 0. rewrite Z.sub_0_r.
  pose proof (Z.log2_nonneg n) as H0. pose proof (Z.log2_spec n Hn) as [Hlo _].
  rewrite (proj2 (Z.leb_le 0 _)) by lia.
  now rewrite (proj2 (Z.leb_le _ _)) by lia.
Qed.

(** Rounding leaves the whole numbers of at most 53 bits as they are. *)
Lemma round_double_Z q z :
  q == inject_Z z → Z.abs z <= 2 ^ 53 → round_double q = ofZ z.
Proof.
  intros Hq Hz. unfold round_double. rewrite (Qred_eq_inject_Z q z Hq).
  cbn [inject_Z Qnum Qden].
  destruct (Z.eqb_spec (Z.abs z) 0) as [H0|H0].
  { unfold ofZ. f_equal. assert (z = 0) as -> by lia. reflexivity. }
  assert (0 < Z.abs z) as Hpos by lia.
  rewrite (ilog2_Z _ Hpos).
  pose proof (Z.log2_nonneg (Z.abs z)) as Hl0.
  pose proof (Z.log2_spec _ Hpos) as [Hlo Hhi].
  assert (Z.log2 (Z.abs z) <= 53) as Hl53.
  { destruct (Z.le_gt_cases (Z.log2 (Z.abs z)) 53) as [?|Hgt]; [done|].
    assert (2 ^ 54 <= 2 ^ Z.log2 (Z.abs z)) by (apply Z.pow_le_mono_r; lia). lia. }
  rewrite Z.max_l by lia.
  remember (Z.log2 (Z.abs z) - 52) as e eqn:He0.
  assert (e <= 1) as He by lia.
  rewrite (proj2 (Z.ltb_ge _ _)) by lia.
  rewrite (proj2 (Z.eqb_neq e 971)) by lia. cbn [orb andb].
  unfold ofZ. f_equal. apply Qred_eq_inject_Z.
  destruct (Z.leb_spec 0 e) as [Hge|Hlt].
  - assert (e = 0 ∨ e = 1) as [->| ->] by lia.
    + change (2 ^ 0) with 1. rewrite round_half_even_exact.
      change (Qpower 2 0) with 1%Q. rewrite Qmult_1_r.
      unfold Qeq, inject_Z. cbn [Qnum Qden]. lia.
    + assert (Z.abs z = 2 ^ 53) as Habs.
      { assert (Z.log2 (Z.abs z) = 53) as Hl by lia. rewrite Hl in Hlo. lia. }
      rewrite Habs. change (round_half_even (2 ^ 53) (1 * 2 ^ 1)) with (2 ^ 52).
      change (Qpower 2 1) with 2%Q.
      unfold Qeq, inject_Z, Qmult. cbn [Qnum Qden]. lia.
  - rewrite round_half_even_exact.
    assert (Qpower 2 e == / inject_Z (2 ^ (- e))) as ->.
    { replace e with (- (- e)) at 1 by lia. rewrite Qpower_opp.
      apply Qinv_comp. rewrite Zpower_Qpower by lia. reflexivity. }
    assert (0 < 2 ^ (- e)) as Hp by (apply Z.pow_pos_nonneg; lia).
    destruct (2 ^ (- e)) as [|p|p]; try lia.
    unfold Qeq, Qmult, Qinv, inject_Z. cbn [Qnum Qden].
    pose proof (Z.sgn_abs z). nia.
Qed.

(** *** Dates *)

Lemma YearFromDay_spec d :
  DayFromYear (YearFromDay d) <= d < DayFromYear (YearFromDay d + 1).
Proof.
  unfold YearFromDay, DayFromYear.
  repeat match goal with |- context [if ?b then _ else _] => destruct b eqn:? end;
  Z.div_mod_to_equations; lia.
Qed.

Lemma YearFromDay_epoch d : 0 <= d → 1970 <= YearFromDay d.
Proof.
  intros Hd. unfold YearFromDay, DayFromYear.
  repeat match goal with |- context [if ?b then _ else _] => destruct b eqn:? end;
  Z.div_mod_to_equations; lia.
Qed.

(** The years of the time values. *)
Lemma YearFromDay_range d :
  -100000000 <= d <= 100000000 → -271821 <= YearFromDay d <= 275760.
Proof.
  intros Hd. unfold YearFromDay, DayFromYear.
  repeat match goal with |- context [if ?b then _ else _] => destruct b eqn:? end;
  Z.div_mod_to_equations; lia.
Qed.

Lemma MonthFromTime_range t : 0 <= MonthFromTime t <= 11.
Proof.
  unfold MonthFromTime.
  repeat match goal with |- context [if ?b then _ else _] => destruct b end; lia.
Qed.

Lemma MakeDay_roundtrip t k :
  MakeDay (YearFromTime t) (MonthFromTime t) (DateFromTime t + k) = Day t + k.
Proof.
  pose proof (MonthFromTime_range t) as Hm.
  unfold MakeDay, DateFromTime, DayWithinYear, InLeapYear.
  rewrite Z.div_small, Z.mod_small, Z.add_0_r by lia. lia.
Qed.

Lemma trunc_inject_Z z : trunc (inject_Z z) = z.
Proof. unfold trunc. simpl. apply Z.quot_1_r. Qed.

Lemma Day_nonneg t : 0 <= t → 0 <= Day t.
Proof. intros H. unfold Day, msPerDay. apply Z.div_pos; lia. Qed.

Lemma Qle_bool_inject_Z a b : Qle_bool (inject_Z a) (inject_Z b) = (a <=? b).
Proof. unfold Qle_bool, inject_Z. cbn [Qnum Qden]. now rewrite !Z.mul_1_r. Qed.

Lemma TimeClip_num_ofZ v : TimeClip_num (ofZ v) = TimeClip v.
Proof.
  unfold TimeClip_num, TimeClip, ofZ. rewrite !Qle_bool_inject_Z, trunc_inject_Z.
  destruct (Z.leb_spec (-8640000000000000) v), (Z.leb_spec v 8640000000000000),
    (Z.leb_spec (Z.abs v) 8640000000000000); simpl; try reflexivity; lia.
Qed.

(** [Date.UTC] on whole numbers small enough for every intermediate result
    to be a whole number of at most 53 bits: no rounding takes place. *)
Lemma Date_UTC_ofZ y m dt h :
  Z.abs (MakeFullYear y) <= 1000000 → Z.abs m <= 10000000 →
  Z.abs (MakeDay (MakeFullYear y) m dt) <= 100000000 →
  Z.abs h <= 100000 →
  Date_UTC (ofZ y) (ofZ m) (ofZ dt) (ofZ h) =
    TimeClip (MakeDate (MakeDay (MakeFullYear y) m dt) (MakeTime h 0 0 0)).
Proof.
  intros Hy Hm Hd Hh. unfold Date_UTC.
  assert (full_year (ofZ y) = ofZ (MakeFullYear y)) as ->.
  { unfold full_year, ofZ, MakeFullYear. rewrite trunc_inject_Z.
    now destruct ((0 <=? y) && (y <=? 99)). }
  assert (MakeDay_num (ofZ (MakeFullYear y)) (ofZ m) (ofZ dt) =
          ofZ (MakeDay (MakeFullYear y) m dt)) as ->.
  { unfold MakeDay_num, ofZ. rewrite !Qle_bool_inject_Z, !trunc_inject_Z.
    rewrite !(proj2 (Z.leb_le _ _)) by lia. cbn [andb].
    apply round_double_Z; [|lia].
    rewrite <- inject_Z_plus. unfold MakeDay. 
    match goal with |- inject_Z ?a == inject_Z ?b => replace a with b by lia end.
    reflexivity. }
  assert (MakeTime_num (ofZ h) = ofZ (MakeTime h 0 0 0)) as ->.
  { unfold MakeTime_num, ofZ. rewrite trunc_inject_Z.
    apply round_double_Z.
    - rewrite <- inject_Z_mult. unfold MakeTime.
      match goal with |- inject_Z ?a == inject_Z ?b => replace b with a by lia end.
      reflexivity.
    - unfold MakeTime, msPerHour, msPerMinute. lia. }
  assert (MakeDate_num (ofZ (MakeDay (MakeFullYear y) m dt)) (ofZ (MakeTime h 0 0 0)) =
          ofZ (MakeDate (MakeDay (MakeFullYear y) m dt) (MakeTime h 0 0 0))) as ->.
  { unfold MakeDate_num, ofZ.
    rewrite (round_double_Z _ (MakeDay (MakeFullYear y) m dt * msPerDay)).
    - unfold ofZ. apply round_double_Z.
      + rewrite <- inject_Z_plus. unfold MakeDate.
        match goal with |- inject_Z ?a == inject_Z ?b => replace b with a by lia end.
        reflexivity.
      + unfold MakeDate, MakeTime, msPerDay, msPerHour, msPerMinute. lia.
    - now rewrite <- inject_Z_mult.
    - unfold msPerDay. lia. }
  apply TimeClip_num_ofZ.
Qed.

Lemma utc_midnight_spec t :
  0 <= t <= 8640000000000000 → utc_midnight t = TimeClip (Day t * msPerDay).
Proof.
  intros Ht. unfold utc_midnight.
  assert (0 <= Day t <= 100000000) as Hday.
  { unfold Day, msPerDay. split; Z.div_mod_to_equations; lia. }
  pose proof (YearFromDay_epoch (Day t) (proj1 Hday)) as Hy.
  pose proof (YearFromDay_range (Day t) ltac:(lia)) as Hy'.
  fold (YearFromTime t) in Hy, Hy'.
  pose proof (MonthFromTime_range t) as Hm.
  assert (MakeFullYear (YearFromTime t) = YearFromTime t) as Hfull.
  { unfold MakeFullYear.
    replace ((0 <=? YearFromTime t) && (YearFromTime t <=? 99)) with false; [done|].
    symmetry. apply andb_false_iff. right. apply Z.leb_gt. lia. }
  pose proof (MakeDay_roundtrip t 0) as Hr. rewrite !Z.add_0_r in Hr.
  rewrite Date_UTC_ofZ; rewrite ?Hfull, ?Hr; try lia.
  unfold MakeDate, MakeTime. f_equal. lia.
Qed.

Lemma DayWithinYear_range t : 0 <= DayWithinYear t <= 367.
Proof.
  unfold DayWithinYear, YearFromTime.
  pose proof (YearFromDay_spec (Day t)) as H. revert H.
  generalize (YearFromDay (Day t)). intros y. unfold DayFromYear.
  intros H. Z.div_mod_to_equations. lia.
Qed.

Lemma DateFromTime_range t : 1 <= DateFromTime t <= 368.
Proof.
  pose proof (DayWithinYear_range t) as Hd.
  unfold DateFromTime, MonthFromTime, InLeapYear.
  destruct (DaysInYear (YearFromTime t) =? 366);
  repeat match goal with
         | |- context [if ?b then _ else _] => destruct b eqn:?
         end; cbn [monthStart]; lia.
Qed.

(** The midnight of a valid date, when it is one, is a whole number of
    days. *)
Lemma utc_midnight_form t m :
  - 8640000000000000 <= t <= 8640000000000000 →
  utc_midnight t = Some m →
  ∃ d, m = d * msPerDay ∧ - 8640000000000000 <= m <= 8640000000000000.
Proof.
  intros Ht. unfold utc_midnight.
  assert (-100000000 <= Day t <= 100000000) as Hday.
  { unfold Day, msPerDay. split; Z.div_mod_to_equations; lia. }
  pose proof (YearFromDay_range (Day t) Hday) as Hy. fold (YearFromTime t) in Hy.
  pose proof (MonthFromTime_range t) as Hm.
  pose proof (DateFromTime_range t) as Hdt.
  assert (Z.abs (MakeFullYear (YearFromTime t)) <= 1000000) as Hfull.
  { unfold MakeFullYear. destruct ((0 <=? _) && (_ <=? 99)) eqn:Hc; [|lia].
    apply andb_true_iff in Hc as [H1 H2]. apply Z.leb_le in H1, H2. lia. }
  assert (Z.abs (MakeDay (MakeFullYear (YearFromTime t)) (MonthFromTime t)
                   (DateFromTime t)) <= 100000000) as Hd.
  { unfold MakeFullYear. destruct ((0 <=? _) && (_ <=? 99)) eqn:Hc.
    - apply andb_true_iff in Hc as [H1 H2]. apply Z.leb_le in H1, H2.
      unfold MakeDay. rewrite Z.div_small, Z.mod_small, Z.add_0_r by lia.
      assert (0 <= monthStart (MonthFromTime t)
                     (if DaysInYear (1900 + YearFromTime t) =? 366 then 1 else 0) <= 335)
        as Hms.
      { assert (∀ mo leap, 0 <= mo <= 11 → 0 <= leap <= 1 →
                  0 <= monthStart mo leap <= 335) as Hgen.
        { intros mo leap Hmo Hleap.
          assert (mo = 0 ∨ mo = 1 ∨ mo = 2 ∨ mo = 3 ∨ mo = 4 ∨ mo = 5 ∨ mo = 6 ∨
                  mo = 7 ∨ mo = 8 ∨ mo = 9 ∨ mo = 10 ∨ mo = 11) as Hcases by lia.
          repeat destruct Hcases as [->|Hcases]; try subst mo; cbn [monthStart]; lia. }
        apply Hgen; [done|]. destruct (DaysInYear _ =? 366); lia. }
      revert Hms. generalize (monthStart (MonthFromTime t)
        (if DaysInYear (1900 + YearFromTime t) =? 366 then 1 else 0)). intros ms Hms.
      unfold DayFromYear. Z.div_mod_to_equations. lia.
    - pose proof (MakeDay_roundtrip t 0) as Hr. rewrite !Z.add_0_r in Hr.
      rewrite Hr. lia. }
  rewrite Date_UTC_ofZ by (try done; lia).
  unfold TimeClip, MakeDate, MakeTime.
  destruct (Z.abs _ <=? _) eqn:Hc; [|discriminate]. intros [= <-].
  eexists. split; [rewrite Z.add_0_r; reflexivity|].
  apply Z.leb_le in Hc. lia.
Qed.

Lemma TimeClip_day d :
  - maxTime <= d * msPerDay <= maxTime → TimeClip (d * msPerDay) = Some (d * msPerDay).
Proof.
  intros Hmax. unfold TimeClip, maxTime, msPerDay in *.
  now rewrite (proj2 (Z.leb_le _ _)) by lia.
Qed.

Lemma next_utc_date_spec d :
  next_utc_date (d * msPerDay) = TimeClip ((d + 1) * msPerDay).
Proof.
  unfold next_utc_date. rewrite MakeDay_roundtrip. unfold MakeDate, Day, TimeWithinDay.
  unfold msPerDay. rewrite Z.div_mul, Z.mod_mul by lia. f_equal. lia.
Qed.

Lemma dates_loop_spec e : ∀ n d fuel dates,
  - maxTime <= d * msPerDay → e * msPerDay <= maxTime →
  n = Z.to_nat (e - d) → (n ≤ fuel)%nat →
  dates_loop fuel (Some (d * msPerDay)) (Some (e * msPerDay)) dates =
    Some (dates ++ map (λ i, (d + Z.of_nat i) * msPerDay) (seq 0 n)).
Proof.
  induction n as [|n IH]; intros d fuel dates Hd He Hn Hfuel.
  - destruct fuel; simpl;
    replace (d * msPerDay <? e * msPerDay) with false
      by (symmetry; apply Z.ltb_ge; unfold msPerDay; lia);
    now rewrite app_nil_r.
  - destruct fuel as [|fuel]; [lia|]. cbn [dates_loop].
    replace (d * msPerDay <? e * msPerDay) with true
      by (symmetry; apply Z.ltb_lt; unfold msPerDay; lia).
    rewrite next_utc_date_spec, TimeClip_day by (unfold msPerDay in *; lia).
    rewrite (IH (d + 1)) by (unfold msPerDay in *; lia).
    f_equal. rewrite <- app_assoc. f_equal. cbn [seq map app].
    rewrite Z.add_0_r. f_equal.
    rewrite <- seq_shift, map_map. apply map_ext. intros i. f_equal. lia.
Qed.

Lemma listUtcDatesInRange_spec start end_ :
  0 <= start <= maxTime → 0 <= end_ <= maxTime →
  listUtcDatesInRange start end_ = Some (utc_days start end_).
Proof.
  intros Hs He. unfold listUtcDatesInRange, utc_days.
  assert (∀ t, 0 <= t <= maxTime → 0 <= Day t ∧ Day t * msPerDay <= maxTime) as Hday.
  { intros t Ht. unfold Day, maxTime, msPerDay in *. split.
    - apply Z.div_pos; lia.
    - Z.div_mod_to_equations; lia. }
  destruct (Hday start Hs) as [Hs0 Hs1]. destruct (Hday end_ He) as [He0 He1].
  rewrite !utc_midnight_spec, !TimeClip_day by (unfold maxTime, msPerDay in *; lia).
  rewrite (dates_loop_spec (Day end_) (Z.to_nat (Day end_ - Day start)));
    [done| | |done|].
  1,2: unfold maxTime, msPerDay in *; lia.
  replace ((Day end_ * msPerDay - Day start * msPerDay) / msPerDay)
    with (Day end_ - Day start)
    by (unfold msPerDay; Z.div_mod_to_equations; lia).
  lia.
Qed.

(** The loop never runs out of fuel, whatever the two dates. *)
Lemma listUtcDatesInRange_total start end_ :
  - maxTime <= start <= maxTime → - maxTime <= end_ <= maxTime →
  ∃ dates, listUtcDatesInRange start end_ = Some dates.
Proof.
  intros Hs He. unfold maxTime in *. unfold listUtcDatesInRange.
  destruct (utc_midnight start) as [m|] eqn:Hm; [|destruct (utc_midnight end_); eauto].
  destruct (utc_midnight end_) as [m'|] eqn:Hm'; [|eauto].
  destruct (utc_midnight_form _ _ Hs Hm) as (d & -> & Hd).
  destruct (utc_midnight_form _ _ He Hm') as (e & -> & He').
  rewrite (dates_loop_spec e (Z.to_nat (e - d)));
    [eauto|unfold maxTime; lia|unfold maxTime; lia|done|].
  replace ((e * msPerDay - d * msPerDay) / msPerDay) with (e - d)
    by (unfold msPerDay; Z.div_mod_to_equations; lia).
  lia.
Qed.

(** *** The next run *)

Lemma head_insert_sorted {A} (cmp : A → A → Z) x l :
  head (insert_sorted cmp x l) =
  match head l with
  | Some y => if cmp x y <=? 0 then Some x else Some y
  | None => Some x
  end.
Proof. destruct l as [|y l]; simpl; [done|]. now destruct (cmp x y <=? 0). Qed.

Lemma head_sort_by_start (l : list Run) :
  match head (sort (λ a b, run_start a - run_start b) l) with
  | Some x => x ∈ l ∧ ∀ y, y ∈ l → run_start x <= run_start y
  | None => l = []
  end.
Proof.
  induction l as [|x l IH]; [done|].
  unfold sort in *. cbn [foldr]. rewrite head_insert_sorted.
  destruct (head (foldr _ _ l)) as [y|].
  - destruct IH as [Hy Hmin].
    destruct (Z.leb_spec (run_start x - run_start y) 0) as [Hle|Hgt].
    + split; [left|]. intros z Hz. apply elem_of_cons in Hz as [->|Hz]; [lia|].
      specialize (Hmin z Hz). lia.
    + split; [now right|]. intros z Hz. apply elem_of_cons in Hz as [->|Hz]; [lia|].
      now apply Hmin.
  - subst l. split; [left|]. intros z Hz. apply elem_of_cons in Hz as [->|Hz]; [lia|].
    now apply elem_of_nil in Hz.
Qed.

Lemma elem_of_candidates now data x :
  x ∈ List.filter (λ x, now <? run_end x)
        (map (λ ev, mkRun (uid_of ev) (ev_start ev) (ev_end ev))
           (List.filter is_aoo_run
              (List.filter (λ e, String.eqb (ev_type e) "VEVENT") data))) ↔
  ∃ ev, upcoming_run now data ev ∧ x = mkRun (uid_of ev) (ev_start ev) (ev_end ev).
Proof.
  rewrite elem_of_filter_bool, list_elem_of_In, in_map_iff. unfold upcoming_run. split.
  - intros [(ev & <- & Hin) Hlt].
    apply list_elem_of_In in Hin. rewrite !elem_of_filter_bool in Hin.
    destruct Hin as [[Hin Hv] Hrun]. exists ev. simpl in *.
    apply String.eqb_eq in Hv. apply Z.ltb_lt in Hlt. done.
  - intros (ev & (Hin & Hv & Hrun & Hlt) & ->). simpl. split.
    + exists ev. split; [done|]. apply list_elem_of_In.
      rewrite !elem_of_filter_bool. split_and!; try done. now apply String.eqb_eq.
    + now apply Z.ltb_lt.
Qed.

(** The [aoo] command picks, among the events of a run type whose end is
    later than now, one with the earliest start, and answers that there is
    none when there is none.  The dates it offers are the first 25 at most
    of the consecutive UTC dates that begin with the UTC date of the start
    and stop before the UTC date of the end. *)
Theorem initiate_picks_earliest_run env now data w :
  (∃ r,
     getNextAooRunEvent now (Some data) w = (Ok r, w) ∧
     match r with
     | Some run =>
         (∃ ev, upcoming_run now data ev ∧
                run = mkRun (uid_of ev) (ev_start ev) (ev_end ev)) ∧
         (∀ ev, upcoming_run now data ev → run_start run <= ev_start ev) ∧
         (reply_ok env (tick w) = true →
          0 <= run_start run <= maxTime → 0 <= run_end run <= maxTime →
          utc_days (run_start run) (run_end run) ≠ [] →
          responses (snd (aoo_command env now (Some data) w)) =
            responses w ++
            [Reply ("AOO event window (UTC): **" +:+ formatUTC (run_start run)
                      +:+ "** → **" +:+ formatUTC (run_end run) +:+ "**" +:+ nl +:+
                    "Select the date you want for the AOO start time:")
                   false
                   [buildDateSelect (run_start run) (run_end run)
                      (utc_days (run_start run) (run_end run))]])
     | None =>
         (∀ ev, ¬ upcoming_run now data ev) ∧
         (reply_ok env (tick w) = true →
          responses (snd (aoo_command env now (Some data) w)) =
            responses w ++
            [Reply "No upcoming/ongoing AOO run event found. Make sure the calendar event has `Type: ark_battle` (or `Type: aoo`)." false []])
     end) ∧
  ∀ start end_,
    0 <= start <= maxTime → 0 <= end_ <= maxTime →
    listUtcDatesInRange start end_ = Some (utc_days start end_) ∧
    options (buildDateSelect start end_ (utc_days start end_)) =
      map (λ d, (isoDateUTC d, isoDateUTC d)) (take 25 (utc_days start end_)) ∧
    (length (options (buildDateSelect start end_ (utc_days start end_))) ≤ 25)%nat.
Proof.
  split.
  - unfold aoo_command, getNextAooRunEvent, fetchEvents, mbind, M_bind, mret, M_ret.
    eexists. split; [reflexivity|].
    pose proof (head_sort_by_start
      (List.filter (λ x, now <? run_end x)
        (map (λ ev, mkRun (uid_of ev) (ev_start ev) (ev_end ev))
           (List.filter is_aoo_run
              (List.filter (λ e, String.eqb (ev_type e) "VEVENT") data))))) as Hhead.
    destruct (head _) as [run|].
    + destruct Hhead as [Hin Hmin]. split_and!.
      * now apply elem_of_candidates.
      * intros ev Hev.
        apply (Hmin (mkRun (uid_of ev) (ev_start ev) (ev_end ev))).
        apply elem_of_candidates. eauto.
      * intros Hreply Hs He Hdays.
        rewrite (listUtcDatesInRange_spec _ _ Hs He).
        destruct (utc_days (run_start run) (run_end run)) as [|d ds]; [done|].
        unfold respond. now rewrite Hreply.
    + split.
      * intros ev Hev.
        assert (mkRun (uid_of ev) (ev_start ev) (ev_end ev) ∈ @nil Run) as Hnil.
        { rewrite <- Hhead. apply elem_of_candidates. eauto. }
        now apply elem_of_nil in Hnil.
      * intros Hreply. unfold respond. now rewrite Hreply.
  - intros start end_ Hs He. split; [now apply listUtcDatesInRange_spec|].
    split; [reflexivity|]. unfold buildDateSelect. cbn [options].
    rewrite length_map, length_take. lia.
Qed.

(* ================================================================= *)
(** ** The properties on concrete scenarios *)
(* ================================================================= *)

(** C1, counterexample.  E1 is polled for the first time a day after its
    end: two messages are sent, open and closed, not three. *)
Lemma catch_up_after_end_sends_two :
  let w' := snd (runCheck env_ok (1736640000000 + 86400000) (Some [E1]) world0) in
  map cause (outbox w') =
    [Milestone "AOO_REG_E1_2025-01-10_open_at_start";
     Milestone "AOO_REG_E1_2025-01-10_closed_at_end"] ∧
  length (outbox w') ≠ 3%nat ∧
  flag (state w') "AOO_REG_E1_2025-01-10_6h_before_end" = false.
Proof. vm_compute. split_and!; [reflexivity|discriminate|reflexivity]. Qed.

(** E1 polled for the first time a day after its end. *)
Lemma catch_up_after_end_witness :
  let w' := snd (runCheck env_ok (1736640000000 + 86400000) (Some [E1]) world0) in
  new_deliveries world0 w' =
    [delivery_of env_ok "announcements" (state world0) (mkItem E1 RegistrationWindow Open);
     delivery_of env_ok "announcements" (state world0) (mkItem E1 RegistrationWindow Closed)] ∧
  flag (state w') (flag_key (mkItem E1 RegistrationWindow Open)) = true ∧
  flag (state w') (flag_key (mkItem E1 RegistrationWindow Warning)) = false ∧
  flag (state w') (flag_key (mkItem E1 RegistrationWindow Closed)) = true.
Proof.
  apply (catch_up_after_end env_ok world0 "announcements"
           (1736640000000 + 86400000) E1).
  - repeat split.
  - intros n. reflexivity.
  - reflexivity.
  - vm_compute. reflexivity.
  - intros []; vm_compute; reflexivity.
  - vm_compute. discriminate.
  - vm_compute. discriminate.
  - vm_compute. discriminate.
Defined.

(** E1 polled for the first time an hour before its end: open and warning. *)
Lemma milestones_fire_by_table_witness :
  ∃ w',
    runCheck env_ok (1736640000000 - 3600000) (Some [E1]) world0 = (Ok tt, w') ∧
    map cause (new_deliveries world0 w') =
      [Milestone "AOO_REG_E1_2025-01-10_open_at_start";
       Milestone "AOO_REG_E1_2025-01-10_6h_before_end"] ∧
    flag (state w') "AOO_REG_E1_2025-01-10_closed_at_end" = false.
Proof.
  destruct (milestones_fire_by_table env_ok (1736640000000 - 3600000) [E1] world0
              "announcements")
    as (w' & Hrun & Hnew & Hall).
  - repeat split.
  - intros n. reflexivity.
  - apply (items_of_NoDup E1).
  - exists w'. split_and!; [exact Hrun|rewrite Hnew; vm_compute; reflexivity|].
    destruct (Hall E1 "ark_registration"%string RegistrationWindow Closed) as [_ Hflag];
      [left|reflexivity|vm_compute; reflexivity|reflexivity|].
    exact Hflag.
Defined.

(** After the open announcement of E1, two more polls, a selection and a sweep. *)
Lemma set_flag_is_final_witness :
  let key := "AOO_REG_E1_2025-01-10_open_at_start"%string in
  let w := snd (runCheck env_ok 1736467200000 (Some [E1]) world0) in
  let w' := foldl (λ w op, exec env_ok op w) w
              [OpRunCheck 1736467200000 (Some [E1]);
               OpInteraction 1736467200000 pick_14;
               OpProcessScheduled 1738504800000;
               OpRunCheck 1736640000000 (Some [E1])] in
  flag (state w) key = true ∧
  flag (state w') key = true ∧
  ∀ d, d ∈ new_deliveries w w' → cause d ≠ Milestone key.
Proof.
  split; [vm_compute; reflexivity|].
  apply (set_flag_is_final env_ok "AOO_REG_E1_2025-01-10_open_at_start").
  vm_compute. reflexivity.
Defined.

(** E1 polled a day after its end, the second delivery failing. *)
Lemma failed_delivery_aborts_cycle_witness :
  let now := 1736640000000 + 86400000 in
  let env := env_send_fails 3 in
  let w' := snd (runCheck env now (Some [E1]) world0) in
  map cause (new_deliveries world0 w') =
    [Milestone "AOO_REG_E1_2025-01-10_open_at_start"] ∧
  file w' = Some (state w') ∧
  flag (state w') "AOO_REG_E1_2025-01-10_closed_at_end" = false ∧
  plan now (state w') (cycle_items [E1]) = [mkItem E1 RegistrationWindow Closed].
Proof.
  destruct (failed_delivery_aborts_cycle (env_send_fails 3)
              (1736640000000 + 86400000) [E1] world0 "announcements" 1
              (mkItem E1 RegistrationWindow Closed))
    as (Hnew & _ & _ & Hfile & Hflag & Hplan & _).
  - repeat split.
  - vm_compute. reflexivity.
  - intros j Hj. assert (j = 0)%nat as -> by lia. reflexivity.
  - reflexivity.
  - intros n. reflexivity.
  - cbv zeta. split_and!.
    + rewrite Hnew. vm_compute. reflexivity.
    + apply Hfile. lia.
    + exact Hflag.
    + rewrite Hplan. vm_compute. reflexivity.
Defined.

(** An empty key, and the key of user7 on a queue of two jobs. *)
Lemma cancel_group_removes_unsent_of_group_witness :
  removeScheduledByGroupKey env_ok (Some ""%string) (world_with [later_job])
    = (Ok 0%nat, world_with [later_job]) ∧
  ∃ w',
    removeScheduledByGroupKey env_ok (Some "aoo:guild:war-room:user7"%string)
      (world_with [later_job; voice_job]) = (Ok 1%nat, w') ∧
    scheduled (state w') = [voice_job] ∧
    saves w' = 1%nat.
Proof.
  split.
  - apply (cancel_group_removes_unsent_of_group env_ok (Some ""%string)
             (world_with [later_job])).
    reflexivity.
  - destruct (cancel_group_removes_unsent_of_group env_ok
                (Some "aoo:guild:war-room:user7"%string)
                (world_with [later_job; voice_job])) as [_ H].
    destruct H as (w' & Hrun & Hq & _ & _ & Hsave & _); [reflexivity|].
    exists w'. split_and!.
    + exact Hrun.
    + exact Hq.
    + apply Hsave. vm_compute. discriminate.
Defined.

(** A sweep at the instant the voice reminder is due. *)
Lemma sweep_marks_and_evicts_witness :
  ∃ w',
    processScheduled (env_voice "voice") 1738503000000
      (world_with [later_job; voice_job]) = (Ok tt, w') ∧
    scheduled (state w') = [later_job] ∧
    saves w' = 1%nat.
Proof.
  destruct (sweep_marks_and_evicts (env_voice "voice") 1738503000000
              (world_with [later_job; voice_job]))
    as (w1 & w' & _ & _ & _ & Hrun & Hq & _ & _ & _ & Hsave & _).
  exists w'. split_and!; [exact Hrun|exact Hq|].
  apply Hsave. rewrite Hq. vm_compute. discriminate.
Defined.

(** The reminder on the voice channel is dropped without a send. *)
Lemma unresolved_channel_is_skipped_witness :
  let w := world_with [later_job; voice_job] in
  let w' := snd (processScheduled (env_voice "voice") 1738503000000 w) in
  (∀ d, d ∈ new_deliveries w w' → to d ≠ "voice"%string) ∧
  voice_job ∉ scheduled (state w').
Proof.
  destruct (unresolved_channel_is_skipped (env_voice "voice") 1738503000000
              (world_with [later_job; voice_job])) as (_ & _ & H).
  destruct (H "voice"%string) as (_ & Hnone & Hgone).
  - intros n. right. reflexivity.
  - cbv zeta. split; [exact Hnone|].
    apply (Hgone voice_job); [|reflexivity|reflexivity].
    right. left.
Defined.

(** Hour 14 chosen at 13:46:40: only the ten-minute reminder is still ahead. *)
Lemma hour_selection_schedules_reminders_witness :
  ∃ w' jobs,
    interactionCreate env_ok 1738504000000 pick_14 (world_with [later_job])
      = (Ok tt, w') ∧
    scheduled (state w') = jobs ∧
    map (λ x, (channelId x, runAtMs x, sent x, groupKey x)) jobs =
      [("war-room"%string, 1738504200000, false,
        Some "aoo:guild:war-room:user7"%string)] ∧
    responses w' =
      [Update (accepted_text 1738504800000 1) []].
Proof.
  destruct (hour_selection_schedules_reminders env_ok 1738504000000 pick_14
              "aoo_hour|1738368000000|1738540800000|2025-02-02"
              (world_with [later_job]) "14" "2025-02-02" 1738504800000)
    as (w' & jobs & Hrun & Hq & Hjobs & Hlen & Hresp).
  - repeat split.
  - reflexivity.
  - vm_compute. reflexivity.
  - vm_compute. reflexivity.
  - vm_compute. reflexivity.
  - intros n. reflexivity.
  - exists w', jobs. split; [exact Hrun|].
    change (List.filter _ (scheduled (state (world_with [later_job])))) with (@nil Job) in Hq.
    split; [exact Hq|]. split; [exact Hjobs|].
    rewrite Hresp. apply (f_equal length) in Hjobs. rewrite length_map in Hjobs.
    simpl in Hjobs. rewrite Hjobs. reflexivity.
Defined.

(** C9, counterexample.  On 2025-03-01 the token of a window that ended on
    2025-02-03 is still taken: the selection is confirmed, not refused, and
    the pending reminder of the member's later selection is cancelled.  So
    is a malformed token whose fields still read as numbers: under
    [aoo_hour||Infinity|2025-02-02] the empty start reads as 0 and the end
    as an infinity, the selection is confirmed, the pending reminder is
    cancelled and two new ones are scheduled. *)
Lemma expired_or_malformed_token_is_accepted :
  (let nowMs := 1740787200000 in
   let w := world_with [later_job] in
   let w' := snd (interactionCreate env_ok nowMs pick_14 w) in
   1738540800000 < nowMs ∧
   scheduled (state w) = [later_job] ∧
   scheduled (state w') = [] ∧
   file w' = Some (state w') ∧
   responses w' = [Update (accepted_text 1738504800000 0) []]) ∧
  (let nowMs := 1738000000000 in
   let w := world_with [later_job] in
   let w' := snd (interactionCreate env_ok nowMs pick_14_forged w) in
   scheduled (state w) = [later_job] ∧
   map (λ x, (runAtMs x, groupKey x)) (scheduled (state w')) =
     [(1738504800000 - 30 * 60 * 1000, Some "aoo:guild:war-room:user7"%string);
      (1738504800000 - 10 * 60 * 1000, Some "aoo:guild:war-room:user7"%string)] ∧
   file w' = Some (state w') ∧
   responses w' = [Update (accepted_text 1738504800000 2) []]).
Proof. vm_compute. split_and!; reflexivity. Qed.

(** The sentinel is turned down and the pending reminder stays. *)
Lemma rejected_selection_changes_nothing_witness :
  ∃ w',
    interactionCreate env_ok 1738504000000 pick_none (world_with [later_job])
      = (Ok tt, w') ∧
    state w' = state (world_with [later_job]) ∧
    responses w' = [Reply "No valid hour selected." true []].
Proof.
  destruct (rejected_selection_changes_nothing env_ok 1738504000000 pick_none
              "aoo_hour|1738368000000|1738540800000|2025-02-02"
              (world_with [later_job]) NoHour)
    as (w' & Hrun & Hst & _ & _ & _ & Hresp).
  - repeat split.
  - vm_compute. reflexivity.
  - reflexivity.
  - exists w'. split_and!; [exact Hrun|exact Hst|]. now apply Hresp.
Defined.

(** C8.  The dates offered do not span the whole UTC days of the window.
    For the run R1, from 2025-02-01 at 10:00 to 2025-02-03 at noon, the
    [aoo] command offers 2025-02-01 and 2025-02-02 and not 2025-02-03,
    although midnight of 2025-02-03 lies in the window, the hour menu of
    that date under the same window offers its hours 0 to 11 and the hour
    step accepts hour 5 of it.  For the run R2, from 10:00 to 22:00 of
    2025-02-01, the command answers that there are no selectable dates,
    although the hour menu of that date offers the hours 10 to 21. *)
Theorem end_date_of_window_is_not_offered :
  (∃ menu,
     responses (snd (aoo_command env_ok 1738000000000 (Some [R1]) world0)) =
       [Reply ("AOO event window (UTC): **2025-02-01 10:00 UTC** → **2025-02-03 12:00 UTC**"
                 +:+ nl +:+ "Select the date you want for the AOO start time:")
              false [menu]] ∧
     customId menu = "aoo_date|1738404000000|1738584000000"%string ∧
     map fst (options menu) = ["2025-02-01"; "2025-02-02"]%string) ∧
  (ev_start R1 <= 1738540800000 < ev_end R1 ∧
   isoDateUTC 1738540800000 = "2025-02-03"%string) ∧
  map snd (options (buildHourSelect env_ok (ofZ (ev_start R1)) (ofZ (ev_end R1))
                      "2025-02-03")) =
    ["0"; "1"; "2"; "3"; "4"; "5"; "6"; "7"; "8"; "9"; "10"; "11"]%string ∧
  (hour_selection world0 pick_end_date
     "aoo_hour|1738404000000|1738584000000|2025-02-03" ∧
   rejection pick_end_date "aoo_hour|1738404000000|1738584000000|2025-02-03" = None ∧
   instant_of "2025-02-03" (Number_ "5") = Some 1738558800000) ∧
  responses (snd (aoo_command env_ok 1738000000000 (Some [R2]) world0)) =
    [Reply "AOO event has no selectable dates (check start/end)." false []] ∧
  map snd (options (buildHourSelect env_ok (ofZ (ev_start R2)) (ofZ (ev_end R2))
                      "2025-02-01")) =
    ["10"; "11"; "12"; "13"; "14"; "15"; "16"; "17"; "18"; "19"; "20"; "21"]%string.
Proof.
  split_and!.
  - eexists. split_and!; vm_compute; reflexivity.
  - vm_compute. discriminate.
  - vm_compute. reflexivity.
  - vm_compute. reflexivity.
  - vm_compute. reflexivity.
  - repeat split.
  - vm_compute. reflexivity.
  - vm_compute. reflexivity.
  - vm_compute. reflexivity.
  - vm_compute. reflexivity.
Qed.

(** Of E1 and R1 only R1 is a run; its dates are those of [utc_days]. *)
Lemma initiate_picks_earliest_run_witness :
  getNextAooRunEvent 1738000000000 (Some [E1; R1]) world0 =
    (Ok (Some (mkRun "R1" 1738404000000 1738584000000)), world0) ∧
  listUtcDatesInRange 1738404000000 1738584000000 =
    Some (utc_days 1738404000000 1738584000000).
Proof.
  split; [vm_compute; reflexivity|].
  destruct (initiate_picks_earliest_run env_ok 1738000000000 [E1; R1] world0) as [_ H].
  apply H; vm_compute; split; discriminate.
Defined.

(** The end-to-end example of the specification: E1 polled at its start,
    six hours before its end, at its end and a day later. *)
Example end_to_end_E1 :
  let poll now w := snd (runCheck env_ok now (Some [E1]) w) in
  let w1 := poll 1736467200000 world0 in
  let w2 := poll 1736618400000 w1 in
  let w3 := poll 1736640000000 w2 in
  let w4 := poll 1736726400000 w3 in
  map cause (outbox w1) = [Milestone "AOO_REG_E1_2025-01-10_open_at_start"] ∧
  map cause (new_deliveries w1 (poll 1736618399999 w1)) = [] ∧
  map cause (new_deliveries w1 w2) = [Milestone "AOO_REG_E1_2025-01-10_6h_before_end"] ∧
  map cause (new_deliveries w2 w3) = [Milestone "AOO_REG_E1_2025-01-10_closed_at_end"] ∧
  new_deliveries w3 w4 = [].
Proof. vm_compute. split_and!; reflexivity. Qed.

(** The selection example of the specification: date 2025-02-02, hour 14,
    chosen at 13:00 and sweeps at 13:30 and 13:50. *)
Example selection_2025_02_02_at_14 :
  let w1 := snd (interactionCreate env_ok 1738501200000 pick_14 world0) in
  let w2 := snd (processScheduled env_ok 1738503000000 w1) in
  let w3 := snd (processScheduled env_ok 1738504200000 w2) in
  instant_of "2025-02-02" (Number_ "14") = Some 1738504800000 ∧
  map runAtMs (scheduled (state w1)) = [1738503000000; 1738504200000] ∧
  map runAtMs (scheduled (state w2)) = [1738504200000] ∧
  scheduled (state w3) = [] ∧
  map to (outbox w3) = ["war-room"; "war-room"]%string.
Proof. vm_compute. split_and!; reflexivity. Qed.

(** A type tag after a no-break space (U+00A0, the bytes C2 A0) is read as
    after any other white space. *)
Example tag_after_no_break_space :
  getEventType
    (mkEvent "VEVENT" None None
       (Some ("Type:" +:+ String "194" (String "160" "MGE and more")))
       None None 0 0) = Some "mge"%string.
Proof. vm_compute. reflexivity. Qed.

(** [Number] rounds to the nearest double: a bound written with a fraction
    below the precision of a double is the whole number, and hour 14 of
    2025-02-02 is accepted under it; a literal beyond the largest double is
    an infinity. *)
Example bound_with_a_small_fraction :
  Number_ "1738504800000.00001" = ofZ 1738504800000 ∧
  rejection pick_14 "aoo_hour|1738504800000.00001|1738540800000|2025-02-02" = None ∧
  Number_ "9007199254740993" = ofZ 9007199254740992 ∧
  Number_ "1e400" = Inf false.
Proof. vm_compute. split_and!; reflexivity. Qed.

(* ================================================================= *)
(** ** Further properties *)
(* ================================================================= *)

(** *** The poll cycle that does not reach its loop *)

Lemma with_running_release w :
  runCheckRunning w = false → with_running false (with_running true w) = w.
Proof. destruct w. simpl. now intros ->. Qed.

Lemma with_running_release_tick w :
  runCheckRunning w = false →
  with_running false (next_tick (with_running true w)) = next_tick w.
Proof. destruct w. simpl. now intros ->. Qed.

(** X1. [runCheck] never throws; when the guard is held it leaves the world
    as it is, otherwise the guard is free again when it returns, whatever
    the gateway and the calendar do. *)
Theorem runCheck_returns_and_releases_guard env now feed w :
  ∃ w',
    runCheck env now feed w = (Ok tt, w') ∧
    (runCheckRunning w = true → w' = w) ∧
    runCheckRunning w' = runCheckRunning w.
Proof.
  unfold runCheck. destruct (runCheckRunning w) eqn:Hrun.
  - exists w. split_and!; done.
  - unfold try_finally, try_catch.
    destruct (runCheck_body env now feed (with_running true w)) as [[[]|e] w1].
    + eexists. split_and!; [reflexivity|discriminate|reflexivity].
    + eexists. split_and!; [reflexivity|discriminate|reflexivity].
Qed.

(** The cycles that end before the loop. *)
Lemma runCheck_idle_cases env now feed w :
  runCheckRunning w = false →
  let w' := snd (runCheck env now feed w) in
  (getPingChannelId (state w) None = None → w' = w) ∧
  (∀ ch, getPingChannelId (state w) None = Some ch →
     (fetch_channel env (tick w) ch = Some NoChannel
      ∨ fetch_channel env (tick w) ch = Some NonTextChannel → w' = next_tick w) ∧
     (fetch_channel env (tick w) ch = None
      ∨ fetch_channel env (tick w) ch = Some TextChannel ∧ feed = None →
      state w' = state w ∧ file w' = file w ∧ saves w' = saves w ∧
      outbox w' = outbox w ∧ runCheckRunning w' = false ∧
      console w' = console w ++ ["runCheck error:"%string])).
Proof.
  intros Hrun. cbv zeta. unfold runCheck. rewrite Hrun.
  unfold try_finally, try_catch, runCheck_body, mbind, M_bind, get_state.
  change (state (with_running true w)) with (state w). split.
  - intros ->. cbn [snd]. now apply with_running_release.
  - intros ch Hch. rewrite Hch.
    assert (∃ c s, ch = String c s) as (c & s & ->).
    { unfold getPingChannelId in Hch.
      destruct (pingChannelId (config (state w))) as [[|c s]|]; try discriminate.
      injection Hch as <-. eauto. }
    unfold channels_fetch. change (tick (with_running true w)) with (tick w).
    split.
    + intros [Hf|Hf]; rewrite Hf; cbn [snd]; now apply with_running_release_tick.
    + intros [Hf|[Hf ->]]; rewrite Hf; cbn; rewrite ?Hrun; split_and!; reflexivity.
Qed.

(** X2. A poll that does not reach its loop: without an announcement
    channel it does nothing at all; when the channel resolves to nothing or
    to a channel without text it only spends the fetch; when the fetch of
    the channel or of the calendar fails it writes one line on the console
    and leaves the store, its file and the channels as they were, the guard
    free. *)
Theorem runCheck_without_channel_or_calendar env now feed w :
  runCheckRunning w = false →
  let w' := snd (runCheck env now feed w) in
  (getPingChannelId (state w) None = None → w' = w) ∧
  (∀ ch, getPingChannelId (state w) None = Some ch →
     (fetch_channel env (tick w) ch = Some NoChannel
      ∨ fetch_channel env (tick w) ch = Some NonTextChannel → w' = next_tick w) ∧
     (fetch_channel env (tick w) ch = None
      ∨ fetch_channel env (tick w) ch = Some TextChannel ∧ feed = None →
      state w' = state w ∧ file w' = file w ∧ saves w' = saves w ∧
      outbox w' = outbox w ∧ runCheckRunning w' = false ∧
      console w' = console w ++ ["runCheck error:"%string])).
Proof. exact (runCheck_idle_cases env now feed w). Qed.

(** X3. Calendar entries that are not events, that carry no type tag or
    whose tag is not one of the two announced types are passed over: a poll
    over such a feed sends nothing and sets no flag. *)
Theorem unrecognised_events_are_ignored env now data w channel :
  reaches_loop env w channel →
  (∀ ev type, ev ∈ data → ev_type ev = "VEVENT"%string →
              getEventType ev = Some type → kind_of type = None) →
  runCheck env now (Some data) w = (Ok tt, next_tick w).
Proof.
  intros Hreach Hnone.
  rewrite (runCheck_cycle env now data w channel Hreach).
  assert (cycle_items data = []) as ->.
  { unfold cycle_items. induction data as [|ev data IH]; [done|].
    cbn [List.filter].
    assert (∀ ev' type, ev' ∈ data → ev_type ev' = "VEVENT"%string →
              getEventType ev' = Some type → kind_of type = None) as Hrest.
    { intros ev' type Hin. apply Hnone. now right. }
    destruct (String.eqb_spec (ev_type ev) "VEVENT") as [Hv|Hv]; [|now apply IH].
    cbn [flat_map]. rewrite (IH Hrest), app_nil_r.
    unfold items_of. destruct (getEventType ev) as [type|] eqn:Ht; [|done].
    rewrite (Hnone ev type); [done|left|done|done]. }
  cbn. f_equal. apply with_running_release_tick. apply Hreach.
Qed.

(** *** The milestones of one event *)

(** The poll loop under any gateway: some first part of the plan is
    announced, and exactly its flags are set. *)
Lemma run_items_any env ch now : ∀ items w,
  ∃ n r w',
    run_items env ch now items w = (r, w') ∧
    (n ≤ length (plan now (state w) items))%nat ∧
    state w' = set_flags (take n (plan now (state w) items)) (state w) ∧
    outbox w' = outbox w ++ map (delivery_of env ch (state w))
                                (take n (plan now (state w) items)) ∧
    responses w' = responses w ∧ runCheckRunning w' = runCheckRunning w.
Proof.
  induction items as [|it rest IH]; intros w.
  - exists 0%nat, (Ok tt), w. simpl. rewrite app_nil_r. split_and!; done.
  - simpl plan. simpl run_items. unfold mbind, M_bind, get_state at 1.
    destruct (fires now (state w) it) eqn:Hf; simpl when.
    + destruct (send_ok env (tick w)) eqn:Hs.
      * rewrite fire_ok by done. set (w1 := mkWorld _ _ _ _ _ _ _ _).
        destruct (IH w1) as (n & r & w' & Hrun & Hn & Hst & Hout & Hresp & Hrunning).
        exists (S n), r, w'. subst w1. simpl in *. rewrite Hrun.
        split_and!; try done; [lia|]. rewrite Hout, <- app_assoc. reflexivity.
      * rewrite fire_fail by done. exists 0%nat, (Throw "channel.send"%string), (next_tick w).
        simpl. rewrite app_nil_r. split_and!; try done. lia.
    + apply IH.
Qed.

Lemma plan_length_due now items : ∀ st,
  (length (plan now st items) ≤ length (List.filter (due now) items))%nat.
Proof.
  induction items as [|it rest IH]; intros st; simpl; [lia|].
  unfold fires at 1. destruct (due now it); simpl.
  - destruct (negb _); simpl; [specialize (IH (set_flag (flag_key it) st))|specialize (IH st)]; lia.
  - rewrite andb_false_r. apply IH.
Qed.

(** X4. The loop body of [runCheck], whatever the gateway does: in one
    cycle an event of the registration type gets at most two announcements,
    never the warning together with the closing; an event of the deferred
    type that does not end before it starts gets at most one. *)
Theorem milestones_exclude_each_other env channel now ev type k w :
  getEventType ev = Some type →
  kind_of type = Some k →
  let sent := new_deliveries w (snd (announce env channel now ev w)) in
  match k with
  | RegistrationWindow =>
      (length sent ≤ 2)%nat ∧
      ¬ (delivery_of env channel (state w) (mkItem ev k Warning) ∈ sent ∧
         delivery_of env channel (state w) (mkItem ev k Closed) ∈ sent)
  | DeferredWindow => ev_start ev <= ev_end ev → (length sent ≤ 1)%nat
  end.
Proof.
  intros Htype Hkind sent. subst sent. rewrite announce_items.
  destruct (run_items_any env channel now (items_of ev) w)
    as (n & r & w' & Hrun & Hn & _ & Hout & _).
  rewrite Hrun. cbn [snd]. rewrite (new_deliveries_app _ _ _ Hout).
  rewrite length_map.
  assert (length (take n (plan now (state w) (items_of ev)))
          ≤ length (plan now (state w) (items_of ev)))%nat as Hlen
    by (rewrite length_take; apply Nat.le_min_r).
  pose proof (plan_length_due now (items_of ev) (state w)) as Hdue.
  assert (∀ it, it ∈ take n (plan now (state w) (items_of ev)) → due now it = true)
    as Hall.
  { intros it Hin. apply subseteq_take in Hin.
    rewrite plan_filter in Hin by apply items_of_NoDup.
    apply list_elem_of_In, filter_In in Hin as [_ Hin].
    unfold fires in Hin. now apply andb_true_iff in Hin as [_ ?]. }
  revert Hlen Hdue.
  generalize (length (take n (plan now (state w) (items_of ev)))).
  generalize (length (plan now (state w) (items_of ev))).
  intros lp lt Hlen Hdue.
  unfold items_of in Hdue. rewrite Htype, Hkind in Hdue.
  cbn [map List.filter] in Hdue. unfold due in Hdue, Hall.
  cbn [item_kind item_stage item_event] in Hdue.
  destruct k; cbn [trigger] in Hdue; unfold hours in *.
  - split.
    + repeat match type of Hdue with context [if ?b then _ else _] =>
        destruct b eqn:? end; simpl in Hdue; try lia;
      repeat match goal with
        | H : (_ && _) = true |- _ => apply andb_true_iff in H as [? ?]
        | H : (_ <=? _) = true |- _ => apply Z.leb_le in H
        | H : (_ <? _) = true |- _ => apply Z.ltb_lt in H
        end; lia.
    + intros [Hw Hc].
      apply list_elem_of_In, in_map_iff in Hw as (iw & Heqw & Hw).
      apply list_elem_of_In, in_map_iff in Hc as (ic & Heqc & Hc).
      apply list_elem_of_In in Hw, Hc.
      pose proof (Hall _ Hw) as Hdw. pose proof (Hall _ Hc) as Hdc.
      assert (iw = mkItem ev RegistrationWindow Warning) as ->.
      { apply subseteq_take in Hw. rewrite plan_filter in Hw by apply items_of_NoDup.
        apply list_elem_of_In, filter_In in Hw as [Hw _].
        unfold items_of in Hw. rewrite Htype, Hkind in Hw.
        injection Heqw as _ Hk. 
        destruct Hw as [<-|[<-|[<-|[]]]]; try reflexivity;
          apply flag_key_stage_inj in Hk; discriminate. }
      assert (ic = mkItem ev RegistrationWindow Closed) as ->.
      { apply subseteq_take in Hc. rewrite plan_filter in Hc by apply items_of_NoDup.
        apply list_elem_of_In, filter_In in Hc as [Hc _].
        unfold items_of in Hc. rewrite Htype, Hkind in Hc.
        injection Heqc as _ Hk.
        destruct Hc as [<-|[<-|[<-|[]]]]; try reflexivity;
          apply flag_key_stage_inj in Hk; discriminate. }
      cbn [item_kind item_stage item_event trigger] in Hdw, Hdc.
      apply andb_true_iff in Hdw as [_ Hdw]. apply Z.ltb_lt in Hdw. apply Z.leb_le in Hdc. lia.
  - intros Hse.
    repeat match type of Hdue with context [if ?b then _ else _] =>
      destruct b eqn:? end; simpl in Hdue; try lia;
    repeat match goal with
      | H : (_ && _) = true |- _ => apply andb_true_iff in H as [? ?]
      | H : (_ <=? _) = true |- _ => apply Z.leb_le in H
      | H : (_ <? _) = true |- _ => apply Z.ltb_lt in H
      end; lia.
Qed.

(** *** Sweeps, one after another *)

Lemma sweep_item_sublist env nowMs i w :
  ∃ delta,
    outbox (snd (sweep_item env nowMs i w)) = outbox w ++ delta ∧
    delta `sublist_of`
      map job_delivery
        (List.filter (is_due nowMs) (option_list (scheduled (state w) !! i))).
Proof.
  destruct (default false (is_due nowMs <$> scheduled (state w) !! i)) eqn:Hdue.
  2:{ destruct (sweep_item_skip env nowMs i w Hdue) as [-> _].
      exists []. rewrite app_nil_r. split; [done|]. apply sublist_nil_l. }
  destruct (scheduled (state w) !! i) as [x|] eqn:Hx; [|done]. simpl in Hdue.
  unfold sweep_item, mbind, M_bind, get_state. rewrite Hx.
  pose proof Hdue as Hd. unfold is_due in Hd. apply andb_true_iff in Hd as [Hsent Hle].
  apply negb_true_iff in Hsent. rewrite Hsent.
  assert ((nowMs <? runAtMs x) = false) as ->
    by (apply Z.ltb_ge; now apply Z.leb_le).
  destruct (deliver_spec env x w) as (w1 & Hrun & _ & _ & Hout & _).
  rewrite Hrun. cbn. rewrite Hdue. cbn [map].
  destruct Hout as [[-> _]|(-> & _)].
  - exists []. rewrite app_nil_r. split; [done|]. apply sublist_nil_l.
  - exists [job_delivery x]. done.
Qed.

Lemma sweep_loop_sublist env nowMs : ∀ n i0 changed w,
  ∃ delta,
    outbox (snd (sweep_loop env nowMs (seq i0 n) changed w)) = outbox w ++ delta ∧
    delta `sublist_of`
      map job_delivery
        (List.filter (is_due nowMs) (take n (drop i0 (scheduled (state w))))).
Proof.
  induction n as [|n IH]; intros i0 changed w.
  - exists []. simpl. now rewrite app_nil_r.
  - cbn [seq sweep_loop]. unfold mbind, M_bind.
    destruct (sweep_item_sublist env nowMs i0 w) as (d1 & Hout1 & Hsub1).
    destruct (sweep_item_spec env nowMs i0 w) as (w1 & Hrun & Hl1 & _).
    rewrite Hrun in *. cbn [snd] in Hout1.
    destruct (IH (S i0) (changed || default false (is_due nowMs <$> scheduled (state w) !! i0)) w1)
      as (d2 & Hout2 & Hsub2).
    assert (take n (drop (S i0) (scheduled (state w1))) =
            take n (drop (S i0) (scheduled (state w)))) as Hrest.
    { rewrite Hl1, drop_alter_lt by lia. done. }
    assert (take (S n) (drop i0 (scheduled (state w))) =
            option_list (scheduled (state w) !! i0) ++
            take n (drop (S i0) (scheduled (state w)))) as Hsplit.
    { destruct (scheduled (state w) !! i0) as [x|] eqn:Hx.
      - erewrite drop_S by exact Hx. reflexivity.
      - apply lookup_ge_None in Hx. rewrite !drop_ge by lia. now rewrite !take_nil. }
    rewrite Hrest in Hsub2. rewrite Hsplit, List.filter_app, map_app.
    exists (d1 ++ d2). rewrite Hout2, Hout1, app_assoc. split; [done|].
    now apply sublist_app.
Qed.

(** X5. Whatever the gateway does, the messages one sweep delivers are
    messages of jobs that were due, each due job contributing at most one,
    in queue order; none of those jobs is in the queue afterwards, so that no
    later sweep can deliver it again. *)
Theorem reminder_is_delivered_at_most_once env nowMs w :
  let l := scheduled (state w) in
  let w' := snd (processScheduled env nowMs w) in
  new_deliveries w w' `sublist_of` map job_delivery (List.filter (is_due nowMs) l) ∧
  ∀ x, x ∈ List.filter (is_due nowMs) l → x ∉ scheduled (state w').
Proof.
  intros l w'. subst w'.
  destruct (processScheduled_spec env nowMs w)
    as (w1 & w' & Hloop & _ & Hrun & Hq & _ & _ & _ & _ & _ & _ & _ & _
        & delta & Hout & _).
  fold l in Hloop, Hq.
  destruct (sweep_loop_sublist env nowMs (length l) 0 false w) as (d & Hd & Hsub).
  fold l in Hd, Hsub. rewrite Hloop in Hd. cbn [snd] in Hd.
  rewrite drop_0, firstn_all in Hsub.
  rewrite Hrun. cbn [snd]. split.
  - assert (outbox w' = outbox w1) as Hsame.
    { revert Hrun. unfold processScheduled, mbind, M_bind, get_state. fold l.
      rewrite Hloop. unfold modify_state, with_state, when, saveState, mret, M_ret.
      cbn [state tick]. 
      repeat match goal with |- context [if ?b then _ else _] => destruct b end;
        intros [= <-]; reflexivity. }
    rewrite (new_deliveries_app w w' d); [done|]. now rewrite Hsame.
  - intros x Hx. rewrite Hq, elem_of_filter_bool. intros [_ Hp].
    apply elem_of_filter_bool in Hx as [_ Hx].
    unfold pending, is_due in *.
    apply andb_true_iff in Hx as [_ Hx]. apply andb_true_iff in Hp as [_ Hp].
    apply Z.leb_le in Hx. apply Z.ltb_lt in Hp. lia.
Qed.

(** X6. A sweep that follows a sweep, at the same or an earlier instant, does
    nothing at all: no gateway call, no save. *)
Theorem second_sweep_is_idle env env' nowMs nowMs' w :
  nowMs' <= nowMs →
  let w1 := snd (processScheduled env nowMs w) in
  processScheduled env' nowMs' w1 = (Ok tt, w1).
Proof.
  intros Hle w1. subst w1.
  destruct (processScheduled_spec env nowMs w)
    as (w1 & w' & _ & _ & Hrun & Hq & _).
  rewrite Hrun. cbn [snd].
  destruct (processScheduled_spec env' nowMs' w')
    as (w2 & w'' & _ & _ & Hrun' & _ & _ & _ & _ & _ & _ & _ & Hsame & _).
  rewrite Hrun'. f_equal. apply Hsame. rewrite Hq. clear - Hle.
  induction (scheduled (state w)) as [|x l IH]; [done|]. cbn [List.filter].
  destruct (pending nowMs x) eqn:Hp; [|exact IH].
  cbn [List.filter].
  assert (pending nowMs' x = true) as ->.
  { unfold pending in *. apply andb_true_iff in Hp as [-> Hp]. simpl.
    apply Z.ltb_lt in Hp. apply Z.ltb_lt. lia. }
  now rewrite IH.
Qed.

(** X7. [schedulePing] does not look at the instant: a job scheduled for an
    instant that is not in the future is delivered by the next sweep, which
    also removes it. *)
Theorem past_instant_fires_on_next_sweep env channel runAt text group nowMs w :
  healthy env →
  runAt <= nowMs →
  let w1 := snd (schedulePing env channel runAt text group w) in
  let w2 := snd (processScheduled env nowMs w1) in
  ∃ id,
    new_deliveries w1 w2 =
      map job_delivery (List.filter (is_due nowMs) (scheduled (state w)))
      ++ [mkDelivery channel text (Reminder id)] ∧
    scheduled (state w2) = List.filter (pending nowMs) (scheduled (state w)).
Proof.
  intros Hh Hle w1 w2. subst w1 w2.
  destruct (schedulePing_spec env channel runAt text group w) as (w1 & Hr1 & Hq1 & _).
  rewrite Hr1. cbn [snd].
  destruct (processScheduled_spec env nowMs w1)
    as (w1' & w2 & _ & _ & Hr2 & Hq2 & _ & _ & _ & _ & _ & _ & _ & _
        & delta & Hout & _ & Hhealthy).
  rewrite Hr2. cbn [snd]. destruct (Hhealthy Hh) as [-> _].
  eexists. rewrite (new_deliveries_app _ _ _ Hout), Hq2, Hq1, !List.filter_app, map_app.
  assert (is_due nowMs (new_job env (tick w) channel runAt text group) = true) as Hdue.
  { unfold is_due, new_job. simpl. now apply Z.leb_le. }
  assert (pending nowMs (new_job env (tick w) channel runAt text group) = false) as Hp.
  { unfold pending, new_job. simpl. apply Z.ltb_ge. lia. }
  cbn [List.filter]. rewrite Hdue, Hp. cbn [map]. rewrite app_nil_r.
  split; reflexivity.
Qed.

(** X8. Cancelling a group twice: the second call finds nothing, returns 0
    and leaves the world as the first call left it. *)
Theorem cancel_group_twice env env' group w :
  let w1 := snd (removeScheduledByGroupKey env group w) in
  removeScheduledByGroupKey env' group w1 = (Ok 0%nat, w1).
Proof.
  intros w1. subst w1. destruct (truthy group) eqn:Ht.
  - destruct (removeScheduledByGroupKey_spec env group w Ht) as (w1 & Hr1 & Hq1 & _).
    rewrite Hr1. cbn [snd].
    destruct (removeScheduledByGroupKey_spec env' group w1 Ht)
      as (w2 & Hr2 & _ & _ & _ & _ & _ & _ & Hsame & _).
    assert (List.filter (cancelled group) (scheduled (state w1)) = []) as Hnone.
    { rewrite Hq1. clear.
      induction (scheduled (state w)) as [|x l IH]; [done|]. cbn [List.filter].
      destruct (survives group x) eqn:Hs; [|exact IH]. cbn [List.filter].
      rewrite survives_cancelled in Hs. apply negb_true_iff in Hs. now rewrite Hs. }
    rewrite Hr2, Hnone, (Hsame Hnone). reflexivity.
  - unfold removeScheduledByGroupKey. rewrite Ht. reflexivity.
Qed.

(** X9. A reminder that was cancelled is not delivered: whatever a sweep
    delivers after [removeScheduledByGroupKey] is the message of a job the
    removal kept. *)
Theorem cancelled_reminder_is_not_delivered env env' group nowMs w :
  truthy group = true →
  let w1 := snd (removeScheduledByGroupKey env group w) in
  let w2 := snd (processScheduled env' nowMs w1) in
  ∀ d, d ∈ new_deliveries w1 w2 →
       ∃ x, x ∈ scheduled (state w) ∧ d = job_delivery x ∧ sent x = false ∧
            groupKey x ≠ group.
Proof.
  intros Ht w1 w2 d Hd. subst w1 w2.
  destruct (removeScheduledByGroupKey_spec env group w Ht) as (w1 & Hr1 & Hq1 & _).
  rewrite Hr1 in Hd. cbn [snd] in Hd.
  destruct (processScheduled_spec env' nowMs w1)
    as (w1' & w2 & _ & _ & Hr2 & _ & _ & _ & _ & _ & _ & _ & _ & _
        & delta & Hout & Hsw & _).
  rewrite Hr2 in Hd. cbn [snd] in Hd. rewrite (new_deliveries_app _ _ _ Hout) in Hd.
  rewrite Forall_forall in Hsw. destruct (Hsw d Hd) as (x & n & Hin & Hdue & -> & _).
  rewrite Hq1, elem_of_filter_bool in Hin. destruct Hin as [Hin Hs].
  exists x. unfold is_due in Hdue. apply andb_true_iff in Hdue as [Hunsent _].
  apply negb_true_iff in Hunsent. split_and!; try done.
  unfold survives in Hs. rewrite Hunsent in Hs. simpl in Hs.
  apply negb_true_iff in Hs. now apply bool_decide_eq_false in Hs.
Qed.

(** *** What a handler leaves alone *)

Section Frame.

(** An observation of the world and the environment of the run.  Each
    hypothesis names something the observation does not read. *)
Context {B : Type} (obs : World → B) (env : Env).

Hypothesis obs_io : ∀ st f s r o rs c t rs' c' t',
  obs (mkWorld st f s r o rs c t) = obs (mkWorld st f s r o rs' c' t').
Hypothesis obs_file : ∀ st f s r o rs c t f' s',
  obs (mkWorld st f s r o rs c t) = obs (mkWorld st f' s' r o rs c t).
Hypothesis obs_queue : ∀ l w, obs (with_state (set_scheduled l) w) = obs w.
Hypothesis obs_config : ∀ c w, obs (with_state (set_config c) w) = obs w.
Hypothesis obs_flag : ∀ key w, obs (with_state (set_flag key) w) = obs w.
Hypothesis obs_reminder : ∀ st f s r o rs c t ch text job,
  obs (mkWorld st f s r (o ++ [mkDelivery ch text (Reminder job)]) rs c t) =
  obs (mkWorld st f s r o rs c t).
Hypothesis obs_outbox : ∀ st f s r o rs c t o',
  obs (mkWorld st f s r o rs c t) = obs (mkWorld st f s r o' rs c t).
Hypothesis obs_running : ∀ b w, obs (with_running b w) = obs w.

Lemma unchanged_ret {A} (a : A) : unchanged obs (mret a).
Proof. now intros w. Qed.

Lemma unchanged_throw {A} e : unchanged obs (@throw A e).
Proof. now intros w. Qed.

Lemma unchanged_bind {A C} (m : M A) (f : A → M C) :
  unchanged obs m → (∀ a, unchanged obs (f a)) → unchanged obs (m ≫= f).
Proof.
  intros Hm Hf w. specialize (Hm w). unfold mbind, M_bind.
  destruct (m w) as [[a|e] w1]; simpl in *; [|done].
  now rewrite Hf.
Qed.

Lemma unchanged_try_catch {A} (m : M A) h :
  unchanged obs m → (∀ e, unchanged obs (h e)) → unchanged obs (try_catch m h).
Proof.
  intros Hm Hh w. specialize (Hm w). unfold try_catch.
  destruct (m w) as [[a|e] w1]; simpl in *; [done|].
  now rewrite Hh.
Qed.

Lemma unchanged_when c m : unchanged obs m → unchanged obs (when c m).
Proof. intros Hm. destruct c; [done|apply unchanged_ret]. Qed.

Lemma unchanged_get_state : unchanged obs get_state.
Proof. now intros w. Qed.

Lemma unchanged_modify_state f :
  (∀ w, obs (with_state f w) = obs w) → unchanged obs (modify_state f).
Proof. intros Hf w. apply Hf. Qed.

Lemma unchanged_next_tick w : obs (next_tick w) = obs w.
Proof. destruct w. apply obs_io. Qed.

Lemma unchanged_console_error line : unchanged obs (console_error line).
Proof. intros []. apply obs_io. Qed.

Lemma unchanged_channels_fetch id : unchanged obs (channels_fetch env id).
Proof.
  intros w. unfold channels_fetch.
  destruct (fetch_channel env (tick w) id); apply unchanged_next_tick.
Qed.

Lemma unchanged_respond r : unchanged obs (respond env r).
Proof.
  intros w. unfold respond. destruct (reply_ok env (tick w)); simpl.
  - destruct w. apply obs_io.
  - apply unchanged_next_tick.
Qed.

Lemma unchanged_Math_random : unchanged obs (Math_random env).
Proof. intros w. apply unchanged_next_tick. Qed.

Lemma unchanged_fetchEvents feed : unchanged obs (fetchEvents feed).
Proof. destruct feed; [apply unchanged_ret|apply unchanged_throw]. Qed.

Lemma unchanged_saveState : unchanged obs (saveState env).
Proof.
  intros w. unfold saveState. destruct w as [st f s r o rs c t].
  destruct (write_ok env _); simpl.
  - rewrite (obs_file st (Some st) (S s) r o rs c (S t) f s). apply obs_io.
  - rewrite (obs_file st f (S s) r o rs _ (S t) f s). apply obs_io.
Qed.

Lemma unchanged_send_reminder ch text job :
  unchanged obs (channel_send env ch text (Reminder job)).
Proof.
  intros w. unfold channel_send. destruct (send_ok env (tick w)); simpl.
  - destruct w as [st f s r o rs c t]. simpl. rewrite obs_reminder. apply obs_io.
  - apply unchanged_next_tick.
Qed.

Lemma unchanged_send_any ch text why :
  unchanged obs (channel_send env ch text why).
Proof.
  intros w. unfold channel_send. destruct (send_ok env (tick w)); simpl.
  - destruct w as [st f s r o rs c t]. simpl.
    rewrite (obs_outbox st f s r _ rs c (S t) o). apply obs_io.
  - apply unchanged_next_tick.
Qed.

Create HintDb frame.

#[local] Hint Resolve unchanged_ret unchanged_throw unchanged_get_state
  unchanged_console_error unchanged_channels_fetch unchanged_respond
  unchanged_Math_random unchanged_fetchEvents unchanged_saveState
  unchanged_send_reminder : frame.

(** Breaks a handler into its primitive effects. *)
Ltac frame_step :=
  match goal with
  | |- unchanged _ (mbind _ _) => apply unchanged_bind; [|intros ?]
  | |- unchanged _ (try_catch _ _) => apply unchanged_try_catch; [|intros ?]
  | |- unchanged _ (when _ _) => apply unchanged_when
  | |- unchanged _ (modify_state _) =>
      apply unchanged_modify_state; intros ?;
      first [apply obs_queue | apply obs_config | apply obs_flag]
  | |- unchanged _ (match ?x with _ => _ end) => destruct x
  | |- unchanged _ (let _ := _ in _) => cbv zeta
  | |- unchanged _ _ => solve [auto with frame]
  end.

Ltac frame_auto := repeat frame_step.

Lemma unchanged_aoo_command now feed : unchanged obs (aoo_command env now feed).
Proof. unfold aoo_command, getNextAooRunEvent. frame_auto. Qed.

Lemma unchanged_on_date_chosen i id : unchanged obs (on_date_chosen env i id).
Proof. unfold on_date_chosen. frame_auto. Qed.

Lemma unchanged_schedulePing ch t text g :
  unchanged obs (schedulePing env ch t text g).
Proof. unfold schedulePing. frame_auto. Qed.

Lemma unchanged_removeScheduledByGroupKey g :
  unchanged obs (removeScheduledByGroupKey env g).
Proof. unfold removeScheduledByGroupKey. frame_auto. Qed.

Lemma unchanged_deliver item : unchanged obs (deliver env item).
Proof. unfold deliver. frame_auto. Qed.

Lemma unchanged_sweep_loop nowMs indices :
  ∀ changed, unchanged obs (sweep_loop env nowMs indices changed).
Proof.
  induction indices as [|i rest IH]; intros changed; simpl.
  - apply unchanged_ret.
  - apply unchanged_bind; [|intros c; apply IH].
    unfold sweep_item, mark_sent. pose proof unchanged_deliver. frame_auto.
Qed.

Lemma unchanged_processScheduled nowMs : unchanged obs (processScheduled env nowMs).
Proof.
  unfold processScheduled. pose proof (unchanged_sweep_loop nowMs). frame_auto.
Qed.

Lemma unchanged_on_hour_chosen nowMs i id :
  unchanged obs (on_hour_chosen env nowMs i id).
Proof.
  unfold on_hour_chosen.
  pose proof unchanged_schedulePing. pose proof unchanged_removeScheduledByGroupKey.
  frame_auto.
Qed.

Lemma unchanged_interactionCreate nowMs i :
  unchanged obs (interactionCreate env nowMs i).
Proof.
  unfold interactionCreate.
  pose proof unchanged_on_date_chosen. pose proof unchanged_on_hour_chosen.
  frame_auto.
Qed.

Lemma unchanged_config_command cmd role channel :
  unchanged obs (config_command env cmd role channel).
Proof. unfold config_command. frame_auto. Qed.

Lemma unchanged_run_items ch now items : unchanged obs (run_items env ch now items).
Proof.
  induction items as [|it rest IH]; simpl; [apply unchanged_ret|].
  unfold fire. pose proof unchanged_send_any. frame_auto.
Qed.

Lemma unchanged_runCheck now feed : unchanged obs (runCheck env now feed).
Proof.
  intros w. unfold runCheck. destruct (runCheckRunning w); [done|].
  unfold try_finally.
  assert (unchanged obs (try_catch (runCheck_body env now feed)
                           (λ _, console_error "runCheck error:"))) as Hq.
  { unfold runCheck_body. apply unchanged_try_catch; [|auto with frame].
    apply unchanged_bind; [auto with frame|intros st].
    destruct (getPingChannelId st None) as [[|c ch]|]; try apply unchanged_ret.
    apply unchanged_bind; [auto with frame|intros [| |]]; try apply unchanged_ret.
    apply unchanged_bind; [auto with frame|intros evs].
    intros w1. rewrite for_each_announce. apply unchanged_run_items. }
  specialize (Hq (with_running true w)).
  destruct (try_catch _ _ _) as [r w1]. simpl in *.
  now rewrite obs_running, Hq, obs_running.
Qed.

End Frame.

(** *** Announced at most once *)

Lemma milestone_keys_app a b :
  milestone_keys (a ++ b) = milestone_keys a ++ milestone_keys b.
Proof. apply omap_app. Qed.

Lemma milestone_keys_deliveries env ch st items :
  milestone_keys (map (delivery_of env ch st) items) = map flag_key items.
Proof. induction items as [|it items IH]; [done|]. simpl. now rewrite IH. Qed.

Lemma store_untouched w w' : store w' = store w → untouched w w'.
Proof. unfold store, untouched. intros [= -> -> -> -> ->]. done. Qed.

(** *** What a poll cycle may announce *)

Lemma plan_sound now items : ∀ st it,
  it ∈ plan now st items →
  it ∈ items ∧ due now it = true ∧ flag st (flag_key it) = false.
Proof.
  induction items as [|c items IH]; intros st it; simpl.
  - intros H. now apply elem_of_nil in H.
  - destruct (fires now st c) eqn:Hf.
    + intros Hin. apply elem_of_cons in Hin as [->|Hin].
      * unfold fires in Hf. apply andb_true_iff in Hf as [Hfl Hdue].
        apply negb_true_iff in Hfl. split_and!; [left|done|done].
      * destruct (IH _ _ Hin) as (Hi & Hdue & Hfl). split_and!; [now right|done|].
        rewrite flag_set_flag in Hfl. now apply orb_false_iff in Hfl as [_ ?].
    + intros Hin. destruct (IH _ _ Hin) as (Hi & Hdue & Hfl). split_and!; [now right|done|done].
Qed.

(** What a poll cycle announces comes from the calendar and goes to the
    configured channel. *)
Lemma runCheck_any_source env now feed w :
  ∃ ch items n,
    let done := take n (plan now (state w) items) in
    (items = [] ∨
     ∃ data, feed = Some data ∧ items = cycle_items data ∧
             pingChannelId (config (state w)) = Some ch) ∧
    state (snd (runCheck env now feed w)) = set_flags done (state w) ∧
    outbox (snd (runCheck env now feed w)) =
      outbox w ++ map (delivery_of env ch (state w)) done.
Proof.
  assert (∀ w', state w' = state w → outbox w' = outbox w →
            ∃ (ch : string) (items : list Item) (n : nat),
              let done := take n (plan now (state w) items) in
              (items = [] ∨
               ∃ data, feed = Some data ∧ items = cycle_items data ∧
                       pingChannelId (config (state w)) = Some ch) ∧
              state w' = set_flags done (state w) ∧
              outbox w' = outbox w ++ map (delivery_of env ch (state w)) done) as Hidle.
  { intros w' Hst Hout. exists ""%string, [], 0%nat. simpl. rewrite app_nil_r. auto. }
  destruct (runCheckRunning w) eqn:Hrun.
  { apply Hidle; unfold runCheck; now rewrite Hrun. }
  pose proof (runCheck_idle_cases env now feed w Hrun) as [Hnone Hsome].
  cbv zeta in *.
  destruct (getPingChannelId (state w) None) as [ch|] eqn:Hch.
  2:{ rewrite Hnone by done. now apply Hidle. }
  specialize (Hsome ch eq_refl) as [Hskip Hfail].
  destruct (fetch_channel env (tick w) ch) as [[| |]|] eqn:Hf.
  - rewrite Hskip by auto. now apply Hidle.
  - rewrite Hskip by auto. now apply Hidle.
  - destruct feed as [data|].
    2:{ destruct Hfail as (? & _ & _ & ? & _); [auto|]. now apply Hidle. }
    rewrite (runCheck_cycle env now data w ch) by done.
    destruct (run_items_any env ch now (cycle_items data) (next_tick (with_running true w)))
      as (n & r & w' & Hr & _ & Hst & Hout & _).
    rewrite Hr. exists ch, (cycle_items data), n. cbv zeta. split.
    + right. exists data. split_and!; try done.
      unfold getPingChannelId in Hch. simpl in Hch.
      destruct (truthy (pingChannelId (config (state w)))); [done|discriminate].
    + destruct r as [[]|e]; simpl; now rewrite Hst, Hout.
  - destruct Hfail as (? & _ & _ & ? & _); [auto|]. now apply Hidle.
Qed.

(** X10. Whatever the gateway does, a poll cycle only announces milestones
    of calendar entries of the feed that are due and whose flag was unset
    when the cycle began, and it announces them on the configured channel. *)
Theorem poll_announces_only_due_unset_milestones env now feed w d :
  d ∈ new_deliveries w (snd (runCheck env now feed w)) →
  ∃ data ev it channel,
    feed = Some data ∧ ev ∈ data ∧ ev_type ev = "VEVENT"%string ∧
    it ∈ items_of ev ∧ due now it = true ∧
    flag (state w) (flag_key it) = false ∧
    pingChannelId (config (state w)) = Some channel ∧
    d = delivery_of env channel (state w) it.
Proof.
  intros Hd.
  destruct (runCheck_any_source env now feed w) as (ch & items & n & Hsrc & _ & Hout).
  cbv zeta in *. rewrite (new_deliveries_app _ _ _ Hout) in Hd.
  apply list_elem_of_In, in_map_iff in Hd as (it & <- & Hin).
  apply list_elem_of_In in Hin. apply subseteq_take in Hin.
  apply plan_sound in Hin as (Hitem & Hdue & Hfl).
  destruct Hsrc as [->|(data & -> & -> & Hch)]; [now apply elem_of_nil in Hitem|].
  unfold cycle_items in Hitem.
  apply list_elem_of_In, in_flat_map in Hitem as (ev & Hev & Hitem).
  apply list_elem_of_In, elem_of_filter_bool in Hev as [Hev Hv].
  apply String.eqb_eq in Hv. apply list_elem_of_In in Hitem.
  exists data, ev, it, ch. split_and!; done.
Qed.

(** The keys of a plan are pairwise different and unset at its start. *)
Lemma plan_keys now items : ∀ st,
  NoDup (map flag_key (plan now st items)) ∧
  Forall (λ it, flag st (flag_key it) = false) (plan now st items).
Proof.
  induction items as [|c items IH]; intros st; simpl.
  - split; constructor.
  - destruct (fires now st c) eqn:Hf; [|apply IH].
    destruct (IH (set_flag (flag_key c) st)) as [Hnd Hall].
    rewrite Forall_forall in Hall. split.
    + cbn [map]. apply NoDup_cons. split; [|done].
      intros Hin. apply list_elem_of_In, in_map_iff in Hin as (it & Heq & Hin).
      apply list_elem_of_In, Hall in Hin.
      rewrite flag_set_flag, Heq, bool_decide_eq_true_2 in Hin by done. discriminate.
    + constructor.
      * unfold fires in Hf. apply andb_true_iff in Hf as [Hf _].
        now apply negb_true_iff in Hf.
      * apply Forall_forall. intros it Hin. specialize (Hall it Hin).
        rewrite flag_set_flag in Hall. now apply orb_false_iff in Hall as [_ ?].
Qed.

Lemma milestones_kept w w' :
  milestones w' = milestones w → announced_once w → announced_once w'.
Proof.
  unfold milestones, announced_once, flag. intros [= Hfl Hk]. now rewrite Hfl, Hk.
Qed.

Lemma announced_once_exec env op w :
  announced_once w → announced_once (exec env op w).
Proof.
  intros Hw.
  assert (∀ A (m : M A), unchanged milestones m → announced_once (snd (m w))) as Hkept.
  { intros A m Hm. now apply (milestones_kept w). }
  destruct op as [now feed| | | | | |]; simpl.
  2:{ apply Hkept, unchanged_processScheduled; try (intros; reflexivity).
      intros. unfold milestones. simpl. f_equal. rewrite milestone_keys_app. simpl.
      now rewrite app_nil_r. }
  2:{ apply Hkept, unchanged_schedulePing; intros; reflexivity. }
  2:{ apply Hkept, unchanged_removeScheduledByGroupKey; intros; reflexivity. }
  2:{ apply Hkept, unchanged_interactionCreate; intros; reflexivity. }
  2:{ apply Hkept, unchanged_aoo_command; intros; reflexivity. }
  2:{ apply Hkept, unchanged_config_command; intros; reflexivity. }
  destruct (runCheck_any_source env now feed w) as (ch & items & n & _ & Hst & Hout).
  cbv zeta in *. destruct Hw as [Hnd Hset].
  destruct (plan_keys now items (state w)) as [Hpnd Hunset].
  set (done := take n (plan now (state w) items)) in *.
  assert (NoDup (map flag_key done)) as Hdnd.
  { eapply sublist_NoDup; [exact Hpnd|].
    change (flag_key <$> done `sublist_of` flag_key <$> plan now (state w) items).
    apply fmap_sublist, sublist_take. }
  assert (∀ it, it ∈ done → flag (state w) (flag_key it) = false) as Hdun.
  { rewrite Forall_forall in Hunset. intros it Hin. apply Hunset.
    eapply subseteq_take, Hin. }
  unfold announced_once.
  rewrite Hout, Hst, milestone_keys_app, milestone_keys_deliveries. split.
  - apply NoDup_app. split_and!; [done| |done].
    intros key Hold Hnew. apply list_elem_of_In, in_map_iff in Hnew as (it & <- & Hin).
    apply list_elem_of_In, Hdun in Hin. rewrite (Hset _ Hold) in Hin. discriminate.
  - intros key Hin. rewrite flag_set_flags. apply elem_of_app in Hin as [Hin|Hin].
    + now rewrite (Hset _ Hin).
    + rewrite (bool_decide_eq_true_2 _ Hin). apply orb_true_r.
Qed.

(** X11. No milestone is announced twice: over any sequence of operations,
    the milestone keys of the announcements stay pairwise different and each
    has its flag set, whatever the gateway and the disk do. *)
Theorem milestone_announced_at_most_once env ops : ∀ w,
  announced_once w →
  announced_once (foldl (λ w op, exec env op w) w ops).
Proof.
  induction ops as [|op ops IH]; intros w Hw; simpl; [done|].
  apply IH. now apply announced_once_exec.
Qed.

(** X12. Each part of the document has its writers: a poll cycle never
    touches the queue or the configuration, a configuration command never
    touches the queue, the flags or the channels, the [aoo] command leaves
    the store untouched, and the queue operations and the dropdown handler
    never touch the configuration or the flags and announce no milestone. *)
Theorem each_part_has_its_writers env op w :
  let w' := exec env op w in
  match op with
  | OpRunCheck _ _ =>
      scheduled (state w') = scheduled (state w) ∧
      config (state w') = config (state w)
  | OpConfigCommand _ _ _ =>
      scheduled (state w') = scheduled (state w) ∧
      flags (state w') = flags (state w) ∧
      outbox w' = outbox w
  | OpAooCommand _ _ => untouched w w'
  | _ =>
      config (state w') = config (state w) ∧
      flags (state w') = flags (state w) ∧
      milestone_keys (outbox w') = milestone_keys (outbox w)
  end.
Proof.
  set (queue_side := λ w : World, (config (state w), milestones w)).
  assert (∀ A (m : M A), unchanged queue_side m →
            config (state (snd (m w))) = config (state w) ∧
            flags (state (snd (m w))) = flags (state w) ∧
            milestone_keys (outbox (snd (m w))) = milestone_keys (outbox w)) as Hq.
  { intros A m Hm. specialize (Hm w). unfold queue_side, milestones in Hm.
    now injection Hm as -> -> ->. }
  assert (∀ st f s r o rs c t ch text job,
            queue_side (mkWorld st f s r (o ++ [mkDelivery ch text (Reminder job)]) rs c t) =
            queue_side (mkWorld st f s r o rs c t)) as Hrem.
  { intros. unfold queue_side, milestones. simpl. rewrite milestone_keys_app. simpl.
    now rewrite app_nil_r. }
  destruct op; simpl.
  - pose proof (unchanged_runCheck (λ w : World, (scheduled (state w), config (state w)))
                  env) as H.
    specialize (H ltac:(intros; reflexivity) ltac:(intros; reflexivity)
                  ltac:(intros; reflexivity) ltac:(intros; reflexivity)
                  ltac:(intros; reflexivity) now feed w).
    simpl in H. now injection H as -> ->.
  - apply Hq, unchanged_processScheduled; try (intros; reflexivity). exact Hrem.
  - apply Hq, unchanged_schedulePing; intros; reflexivity.
  - apply Hq, unchanged_removeScheduledByGroupKey; intros; reflexivity.
  - apply Hq, unchanged_interactionCreate; intros; reflexivity.
  - apply store_untouched.
    apply (unchanged_aoo_command store env); intros; reflexivity.
  - pose proof (unchanged_config_command
                  (λ w : World, (scheduled (state w), flags (state w), outbox w)) env) as H.
    specialize (H ltac:(intros; reflexivity) ltac:(intros; reflexivity)
                  ltac:(intros; reflexivity) cmd role channel w).
    simpl in H. now injection H as -> -> ->.
Qed.

(** X13. The dropdown handler never rejects: whatever the interaction and
    the gateway, it completes, and it sends nothing to a channel. *)
Theorem interactionCreate_never_throws env nowMs i w :
  ∃ w', interactionCreate env nowMs i w = (Ok tt, w') ∧ outbox w' = outbox w.
Proof.
  pose proof (unchanged_interactionCreate outbox env) as Hout.
  specialize (Hout ltac:(intros; reflexivity) ltac:(intros; reflexivity)
                ltac:(intros; reflexivity) nowMs i w).
  revert Hout. unfold interactionCreate, try_catch.
  destruct (_ w) as [[[]|e] w1]; simpl.
  - intros. now exists w1.
  - unfold mbind, M_bind, console_error.
    destruct (when _ _ _) as [[[]|e'] w2]; simpl; intros; eexists; split; done.
Qed.

(** X14. Only an allowed member's hour selection can write: an interaction
    that is not a select menu, comes from a member who may not use commands,
    or carries another custom id than an hour token leaves the store, its
    file and the channels untouched.  A member who is not allowed is told
    so. *)
Theorem only_hour_step_writes env nowMs i w :
  isStringSelectMenu i && canUseCommands (state w) (member i) &&
    startsWith (default ""%string (interaction_customId i)) "aoo_hour|" = false →
  let w' := snd (interactionCreate env nowMs i w) in
  untouched w w' ∧
  (isStringSelectMenu i = true → canUseCommands (state w) (member i) = false →
   reply_ok env (tick w) = true →
   responses w' = responses w ++
     [Reply (if truthy (accessRoleId (config (state w)))
             then "❌ You don’t have permission to use this menu."
             else "❌ Access role not set yet. Only **Admins** can use this menu right now.")
            true []]).
Proof.
  intros Hno w'. subst w'.
  pose proof (unchanged_respond store env ltac:(intros; reflexivity)) as Hresp.
  pose proof (unchanged_on_date_chosen store env ltac:(intros; reflexivity) i) as Hdate.
  assert (unchanged store
            (console_error "Interaction error:";;
             try_catch (when (isRepliable i)
                          (respond env (Reply "Error handling selection." true [])))
                       (λ _, mret tt))) as Hhandler.
  { apply unchanged_bind; [now intros []|intros _].
    apply unchanged_try_catch; [apply unchanged_when, Hresp|intros; apply unchanged_ret]. }
  unfold interactionCreate, try_catch.
  unfold mbind at 1, M_bind at 1, get_state at 1.
  destruct (isStringSelectMenu i) eqn:Hmenu; cbn [negb].
  2:{ split; [now apply store_untouched|done]. }
  destruct (canUseCommands (state w) (member i)) eqn:Hcan; cbn [negb].
  - simpl in Hno. split; [|done]. apply store_untouched. cbv zeta.
    destruct (startsWith _ "aoo_date|").
    + specialize (Hdate (default ""%string (interaction_customId i)) w).
      destruct (on_date_chosen _ _ _ w) as [[[]|e] w1]; [exact Hdate|].
      simpl in *. rewrite <- Hdate. apply Hhandler.
    + rewrite Hno. reflexivity.
  - split.
    + apply store_untouched. 
      match goal with |- context [respond env ?r w] =>
        specialize (Hresp r w); destruct (respond env r w) as [[[]|e] w1] end;
        [exact Hresp|]. simpl in *. rewrite <- Hresp. apply Hhandler.
    + intros _ _ Hok. unfold mbind at 1, M_bind at 1, get_state at 1.
      rewrite Hcan. cbn [negb]. unfold respond. rewrite Hok. reflexivity.
Qed.

(** *** The keys of different milestones *)








(** *** The tag of an event *)

Lemma lower_char_word c :
  is_word c = true →
  is_lower (lower_char c) || is_digit (lower_char c) || Ascii.eqb (lower_char c) "_" = true.
Proof. destruct c as [[] [] [] [] [] [] [] []]; vm_compute; congruence. Qed.

Lemma take_word_word s : forallb is_word (list_ascii_of_string (take_word s)) = true.
Proof.
  induction s as [|c s IH]; simpl; [done|].
  destruct (is_word c) eqn:Hc; simpl; [|done]. now rewrite Hc.
Qed.

Lemma match_here_word s m :
  match_here s = Some m → m ≠ ""%string ∧ forallb is_word (list_ascii_of_string m) = true.
Proof.
  unfold match_here. destruct (String.eqb _ _); [|discriminate].
  pose proof (take_word_word (skip_spaces (substring 5 (String.length s - 5) s))) as Hw.
  destruct (take_word _) as [|c r]; [discriminate|]. intros [= <-]. done.
Qed.

Lemma regex_match_word s m :
  regex_match s = Some m → m ≠ ""%string ∧ forallb is_word (list_ascii_of_string m) = true.
Proof.
  induction s as [|c s IH]; cbn [regex_match].
  - destruct (match_here "") eqn:H; [|discriminate]. intros [= <-].
    now apply match_here_word in H.
  - destruct (match_here (String c s)) eqn:H.
    + intros [= <-]. now apply match_here_word in H.
    + exact IH.
Qed.

(** X16. The tag [getEventType] finds is never empty and is made of
    lower-case letters, digits and underscores only. *)
Theorem tag_is_a_lower_case_word ev t :
  getEventType ev = Some t → is_tag t = true.
Proof.
  unfold getEventType. destruct (regex_match _) as [m|] eqn:Hm; [|discriminate].
  intros [= <-]. apply regex_match_word in Hm as [Hne Hw].
  unfold is_tag. apply andb_true_iff. split.
  - destruct m; [done|reflexivity].
  - clear Hne. induction m as [|c m IH]; [done|]. simpl in *.
    apply andb_true_iff in Hw as [Hc Hw]. rewrite (lower_char_word c Hc). now apply IH.
Qed.

Lemma lower_char_idem c : lower_char (lower_char c) = lower_char c.
Proof. destruct c as [[] [] [] [] [] [] [] []]; vm_compute; reflexivity. Qed.

Lemma is_word_lower c : is_word (lower_char c) = is_word c.
Proof. destruct c as [[] [] [] [] [] [] [] []]; vm_compute; reflexivity. Qed.

Lemma is_space_lower c : is_space (lower_char c) = is_space c.
Proof. destruct c as [[] [] [] [] [] [] [] []]; vm_compute; reflexivity. Qed.

Lemma toLowerCase_idem s : toLowerCase (toLowerCase s) = toLowerCase s.
Proof. induction s as [|c s IH]; simpl; [done|]. now rewrite lower_char_idem, IH. Qed.

Lemma toLowerCase_append a b :
  toLowerCase (a +:+ b) = toLowerCase a +:+ toLowerCase b.
Proof. induction a as [|c a IH]; simpl; [done|]. now rewrite IH. Qed.

Lemma toLowerCase_length s : String.length (toLowerCase s) = String.length s.
Proof. induction s as [|c s IH]; simpl; [done|]. now rewrite IH. Qed.

Lemma toLowerCase_substring s : ∀ n m,
  substring n m (toLowerCase s) = toLowerCase (substring n m s).
Proof.
  induction s as [|c s IH]; intros n m; simpl.
  - now destruct n, m.
  - destruct n as [|n]; [destruct m as [|m]; simpl; [done|now rewrite IH]|apply IH].
Qed.

Lemma code_lower_char c :
  code (lower_char c) = code c ∨ (code c < 128 ∧ code (lower_char c) < 128).
Proof. destruct c as [[] [] [] [] [] [] [] []]; vm_compute; auto. Qed.

Lemma code_lower_eqb c k :
  128 <= k → (code (lower_char c) =? k) = (code c =? k).
Proof.
  intros Hk. destruct (code_lower_char c) as [->|[H1 H2]]; [done|].
  rewrite !(proj2 (Z.eqb_neq _ _)) by lia. reflexivity.
Qed.

Lemma code_lower_leb c k :
  128 <= k → (k <=? code (lower_char c)) = (k <=? code c).
Proof.
  intros Hk. destruct (code_lower_char c) as [->|[H1 H2]]; [done|].
  rewrite !(proj2 (Z.leb_gt _ _)) by lia. reflexivity.
Qed.

Lemma code_lower_geb c k :
  128 <= k → (code (lower_char c) <=? k) = (code c <=? k).
Proof.
  intros Hk. destruct (code_lower_char c) as [->|[H1 H2]]; [done|].
  rewrite !(proj2 (Z.leb_le _ _)) by lia. reflexivity.
Qed.

Lemma is_space2_lower a b :
  is_space2 (lower_char a) (lower_char b) = is_space2 a b.
Proof. unfold is_space2. now rewrite !code_lower_eqb by lia. Qed.

Lemma is_space3_lower a b c :
  is_space3 (lower_char a) (lower_char b) (lower_char c) = is_space3 a b c.
Proof.
  unfold is_space3.
  now rewrite !code_lower_eqb, !code_lower_leb, !code_lower_geb by lia.
Qed.

Lemma strip_space_lower l :
  strip_space (map lower_char l) = map lower_char <$> strip_space l.
Proof.
  destruct l as [|a [|b [|c r]]]; cbn [map strip_space];
    rewrite ?is_space_lower, ?is_space2_lower, ?is_space3_lower;
    repeat match goal with |- context [if ?x then _ else _] => destruct x end;
    reflexivity.
Qed.

Lemma strip_all_lower fuel : ∀ l,
  strip_all strip_space fuel (map lower_char l) =
  map lower_char (strip_all strip_space fuel l).
Proof.
  induction fuel as [|fuel IH]; intros l; cbn [strip_all]; [done|].
  rewrite strip_space_lower. destruct (strip_space l) as [r|]; cbn; [apply IH|done].
Qed.

Lemma chars_toLowerCase s :
  list_ascii_of_string (toLowerCase s) = map lower_char (list_ascii_of_string s).
Proof. induction s as [|c s IH]; cbn; [done|]. now rewrite IH. Qed.

Lemma string_of_lower_chars l :
  string_of_list_ascii (map lower_char l) = toLowerCase (string_of_list_ascii l).
Proof. induction l as [|c l IH]; cbn; [done|]. now rewrite IH. Qed.

Lemma toLowerCase_skip_spaces s :
  skip_spaces (toLowerCase s) = toLowerCase (skip_spaces s).
Proof.
  unfold skip_spaces, trim_left.
  now rewrite chars_toLowerCase, length_map, strip_all_lower, string_of_lower_chars.
Qed.

Lemma toLowerCase_take_word s :
  take_word (toLowerCase s) = toLowerCase (take_word s).
Proof.
  induction s as [|c s IH]; simpl; [done|].
  rewrite is_word_lower. destruct (is_word c); simpl; [now rewrite IH|done].
Qed.

Lemma match_here_lower s :
  match_here (toLowerCase s) = toLowerCase <$> match_here s.
Proof.
  unfold match_here.
  rewrite !toLowerCase_substring, toLowerCase_idem, toLowerCase_length,
    toLowerCase_skip_spaces, toLowerCase_take_word.
  destruct (String.eqb _ _); [|done]. now destruct (take_word _).
Qed.

Lemma regex_match_cons c s :
  regex_match (String c s) =
  match match_here (String c s) with
  | Some w => Some w
  | None => regex_match s
  end.
Proof. reflexivity. Qed.

Lemma regex_match_lower s :
  regex_match (toLowerCase s) = toLowerCase <$> regex_match s.
Proof.
  induction s as [|c s IH]; [reflexivity|].
  rewrite (regex_match_cons c s).
  change (toLowerCase (String c s)) with (String (lower_char c) (toLowerCase s)).
  rewrite regex_match_cons.
  change (String (lower_char c) (toLowerCase s)) with (toLowerCase (String c s)).
  rewrite match_here_lower. destruct (match_here (String c s)); [done|exact IH].
Qed.

Lemma toLowerCase_join parts :
  toLowerCase (join nl parts) = join nl (map toLowerCase parts).
Proof.
  induction parts as [|p [|q parts] IH]; [done|done|].
  change (join nl (p :: q :: parts)) with (p +:+ nl +:+ join nl (q :: parts)).
  rewrite !toLowerCase_append, IH. reflexivity.
Qed.

(** The text [getEventType] searches. *)
Lemma event_text_lower (fields : list (option string)) :
  toLowerCase (join nl (omap (λ f, if truthy f then f else None) fields)) =
  join nl (omap (λ f, if truthy f then f else None) (map (fmap toLowerCase) fields)).
Proof.
  rewrite toLowerCase_join. f_equal.
  induction fields as [|[[|c s]|] fields IH]; [done| | |]; cbn [omap list_omap map fmap option_fmap option_map truthy];
    try exact IH.
  cbn [map]. f_equal. exact IH.
Qed.

(** X17. Letter case does not matter to [getEventType]: two entries whose
    description, summary and location differ only in the case of their
    letters A to Z have the same tag. *)
Theorem tag_ignores_letter_case ev ev' :
  toLowerCase <$> ev_description ev = toLowerCase <$> ev_description ev' →
  toLowerCase <$> ev_summary ev = toLowerCase <$> ev_summary ev' →
  toLowerCase <$> ev_location ev = toLowerCase <$> ev_location ev' →
  getEventType ev = getEventType ev'.
Proof.
  intros Hd Hs Hl.
  assert (∀ e, getEventType e =
               regex_match (join nl (omap (λ f, if truthy f then f else None)
                  (map (fmap toLowerCase) [ev_description e; ev_summary e; ev_location e]))))
    as Hlow.
  { intros e. unfold getEventType. rewrite <- event_text_lower, regex_match_lower.
    now destruct (regex_match _). }
  rewrite !Hlow. cbn [map]. now rewrite Hd, Hs, Hl.
Qed.

(** *** Ties between runs *)

Lemma head_sort_first (pre post : list Run) x :
  (∀ y, y ∈ pre → run_start x < run_start y) →
  (∀ y, y ∈ post → run_start x <= run_start y) →
  head (sort (λ a b, run_start a - run_start b) (pre ++ x :: post)) = Some x.
Proof.
  intros Hpre Hpost. induction pre as [|y pre IH].
  - unfold sort. cbn [app foldr]. rewrite head_insert_sorted.
    pose proof (head_sort_by_start post) as Hh. unfold sort in Hh.
    destruct (head _) as [z|]; [|done]. destruct Hh as [Hz _].
    specialize (Hpost z Hz). now rewrite (proj2 (Z.leb_le _ _)) by lia.
  - unfold sort in *. cbn [app foldr]. rewrite head_insert_sorted, IH.
    + specialize (Hpre y ltac:(left)). now rewrite (proj2 (Z.leb_gt _ _)) by lia.
    + intros z Hz. apply Hpre. now right.
Qed.

(** X18. Among the runs that can be picked, [getNextAooRunEvent] returns the
    one with the earliest start, and of several with that start the one
    that comes first in the feed. *)
Theorem first_of_the_earliest_runs_is_picked now pre ev post w :
  ev_type ev = "VEVENT"%string → is_aoo_run ev = true → now < ev_end ev →
  (∀ e, upcoming_run now pre e → ev_start ev < ev_start e) →
  (∀ e, upcoming_run now post e → ev_start ev <= ev_start e) →
  getNextAooRunEvent now (Some (pre ++ ev :: post)) w =
    (Ok (Some (mkRun (uid_of ev) (ev_start ev) (ev_end ev))), w).
Proof.
  intros Hv Hrun Hend Hpre Hpost.
  unfold getNextAooRunEvent, fetchEvents, mbind, M_bind, mret, M_ret.
  rewrite !List.filter_app, map_app, List.filter_app. cbn [List.filter map].
  rewrite (proj2 (String.eqb_eq _ _) Hv). cbn [List.filter map]. rewrite Hrun.
  cbn [List.filter map run_end]. rewrite (proj2 (Z.ltb_lt _ _) Hend).
  rewrite head_sort_first; [reflexivity| |].
  - intros y Hy. apply elem_of_candidates in Hy as (e & He & ->). now apply Hpre.
  - intros y Hy. apply elem_of_candidates in Hy as (e & He & ->). now apply Hpost.
Qed.

(** *** Numbers as strings *)

(** *** Decimal numerals *)

Lemma digit_value_digit c :
  is_digit c = true → digit_value 10 c = Some (code c - 48).
Proof.
  intros H. unfold digit_value. rewrite H.
  unfold is_digit in H. apply andb_true_iff in H as [H1 H2].
  apply Z.leb_le in H1, H2. cbv zeta.
  assert ((code c - 48 <? 10) = true) as -> by (apply Z.ltb_lt; lia). reflexivity.
Qed.

Lemma digits_all l : Forall (λ c, is_digit c = true) l →
  ∀ acc n, digits 10 l acc n = (dec_value l acc, (n + length l)%nat, []).
Proof.
  induction 1 as [|c l Hc _ IH]; intros acc n; simpl.
  - now rewrite Nat.add_0_r.
  - rewrite (digit_value_digit c Hc), IH.
    replace (S n + length l)%nat with (n + S (length l))%nat by lia. reflexivity.
Qed.

Lemma strip_space_plain a r :
  is_space a = false → code a < 128 → strip_space (a :: r) = None.
Proof.
  intros Hs Ha. unfold strip_space. rewrite Hs.
  destruct r as [|b [|c r]]; [done| |].
  - unfold is_space2. now rewrite (proj2 (Z.eqb_neq (code a) 194)) by lia.
  - unfold is_space2, is_space3.
    now rewrite !(proj2 (Z.eqb_neq (code a) _)) by lia.
Qed.

Lemma strip_space_rev_plain c r :
  is_space c = false → code c < 128 → strip_space_rev (c :: r) = None.
Proof.
  intros Hs Hc. unfold strip_space_rev. rewrite Hs.
  destruct r as [|b [|a r]]; [done| |].
  - unfold is_space2. rewrite (proj2 (Z.eqb_neq (code c) 160)) by lia.
    now rewrite andb_false_r.
  - unfold is_space2, is_space3.
    rewrite !(proj2 (Z.eqb_neq (code c) _)) by lia.
    rewrite (proj2 (Z.leb_gt 128 (code c))) by lia.
    now rewrite !andb_false_r.
Qed.

Lemma trim_left_id l :
  Forall (λ c, is_space c = false ∧ code c < 128) l → trim_left l = l.
Proof.
  unfold trim_left. destruct 1 as [|c l [Hs Hc] _]; [done|].
  cbn [length strip_all]. now rewrite strip_space_plain.
Qed.

Lemma trim_id l :
  Forall (λ c, is_space c = false ∧ code c < 128) l → trim l = l.
Proof.
  intros H. unfold trim. rewrite (trim_left_id l H).
  apply Forall_rev in H. cbv zeta. rewrite <- (rev_involutive l) at 3.
  f_equal. destruct H as [|c r [Hs Hc] _]; [done|].
  cbn [length strip_all]. now rewrite strip_space_rev_plain.
Qed.

Lemma digit_not_space c :
  is_digit c = true → is_space c = false ∧ code c < 128.
Proof.
  unfold is_digit, is_space. intros H. apply andb_true_iff in H as [H1 H2].
  apply Z.leb_le in H1, H2. split; [|lia]. apply orb_false_iff. split.
  - apply Z.eqb_neq. lia.
  - apply andb_false_iff. right. apply Z.leb_gt. lia.
Qed.

Lemma unsigned_decimal_digits l :
  l ≠ [] → Forall (λ c, is_digit c = true) l →
  Z.abs (dec_value l 0) <= 2 ^ 53 →
  unsigned_decimal l = ofZ (dec_value l 0).
Proof.
  intros Hne Hd Hr. unfold unsigned_decimal.
  destruct (decide (l = list_ascii_of_string "Infinity")) as [->|_].
  { apply Forall_cons in Hd as [Hd _]. discriminate Hd. }
  rewrite (digits_all l Hd). destruct l as [|c l]; [done|].
  cbn [length Nat.add]. destruct (decide _) as [Heq|_]; [lia|].
  apply round_double_Z; [|exact Hr].
  change (Z.of_nat 0) with 0. change (10 ^ 0) with 1.
  unfold Qeq, Qdiv, Qmult, Qinv, inject_Z. cbn [Qnum Qden]. lia.
Qed.

(** [Number] of a string of decimal digits. *)
Lemma Number_digits s :
  s ≠ ""%string → all_digits s →
  Z.abs (dec_value (list_ascii_of_string s) 0) <= 2 ^ 53 →
  Number_ s = ofZ (dec_value (list_ascii_of_string s) 0).
Proof.
  intros Hne Hd Hr. unfold all_digits in Hd.
  rewrite <- (unsigned_decimal_digits (list_ascii_of_string s)); [|by destruct s|done|done].
  unfold Number_. rewrite trim_id.
  2:{ eapply Forall_impl; [exact Hd|]. apply digit_not_space. }
  clear Hr.
  destruct s as [|c s]; [done|]. cbn [list_ascii_of_string] in *.
  generalize dependent (list_ascii_of_string s). intros r Hd.
  apply Forall_cons in Hd as [Hc Hr].
  destruct c as [[] [] [] [] [] [] [] []]; try discriminate Hc; try reflexivity.
  destruct r as [|c2 r]; [reflexivity|].
  apply Forall_cons in Hr as [Hc2 _].
  destruct c2 as [[] [] [] [] [] [] [] []]; try discriminate Hc2; reflexivity.
Qed.

Lemma uint_digits d : all_digits (NilEmpty.string_of_uint d).
Proof. unfold all_digits. induction d; simpl; constructor; done. Qed.

Lemma dec_value_uint_acc d : ∀ p,
  dec_value (list_ascii_of_string (NilEmpty.string_of_uint d)) (Zpos p) =
  Zpos (Pos.of_uint_acc d p).
Proof.
  unfold dec_value.
  induction d as [|d IH|d IH|d IH|d IH|d IH|d IH|d IH|d IH|d IH|d IH]; intros p;
    [reflexivity|..];
    cbn [NilEmpty.string_of_uint list_ascii_of_string fold_left Pos.of_uint_acc];
    rewrite <- IH; f_equal;
    match goal with
    | |- context [code ?c] =>
        let v := eval vm_compute in (code c) in change (code c) with v
    end; lia.
Qed.

Lemma dec_value_uint d :
  dec_value (list_ascii_of_string (NilEmpty.string_of_uint d)) 0 =
  Z.of_N (Pos.of_uint d).
Proof.
  induction d as [|d IH|d IH|d IH|d IH|d IH|d IH|d IH|d IH|d IH|d IH];
    [reflexivity|exact IH|..];
    cbn [NilEmpty.string_of_uint list_ascii_of_string Pos.of_uint Z.of_N];
    rewrite <- dec_value_uint_acc; reflexivity.
Qed.

Lemma String_pos p :
  String_ (Zpos p) = NilEmpty.string_of_uint (Pos.to_uint p).
Proof.
  unfold String_. cbn [Z.to_int NilZero.string_of_int NilZero.string_of_uint].
  pose proof (Unsigned.to_uint_nonnil p). now destruct (Pos.to_uint p).
Qed.

Lemma string_of_uint_nonempty d :
  d ≠ Decimal.Nil → NilEmpty.string_of_uint d ≠ ""%string.
Proof. now destruct d. Qed.

(** The decimal numeral of a natural number. *)
Lemma String_nonneg z :
  0 <= z →
  String_ z ≠ ""%string ∧ all_digits (String_ z) ∧
  dec_value (list_ascii_of_string (String_ z)) 0 = z.
Proof.
  intros Hz. destruct z as [|p|p]; [|clear Hz|lia].
  - split_and!; [done|repeat constructor|reflexivity].
  - rewrite String_pos. split_and!.
    + apply string_of_uint_nonempty, Unsigned.to_uint_nonnil.
    + apply uint_digits.
    + now rewrite dec_value_uint, DecimalPos.Unsigned.of_to.
Qed.

(** [Number] reads back what [String] wrote, for an integer that a double
    holds exactly. *)
Lemma Number_of_String z : Z.abs z <= 2 ^ 53 → Number_ (String_ z) = ofZ z.
Proof.
  intros Hr. destruct (Z.le_gt_cases 0 z) as [Hz|Hz].
  - destruct (String_nonneg z Hz) as (Hne & Hd & Hv).
    rewrite Number_digits, Hv; [reflexivity|done|done|now rewrite Hv].
  - destruct z as [|p|p]; try lia. clear Hz.
    destruct (String_nonneg (Zpos p) ltac:(lia)) as (Hne & Hd & Hv).
    assert (String_ (Zneg p) = String "-" (String_ (Zpos p))) as ->.
    { rewrite String_pos. unfold String_.
      cbn [Z.to_int NilZero.string_of_int NilZero.string_of_uint].
      pose proof (Unsigned.to_uint_nonnil p). now destruct (Pos.to_uint p). }
    unfold Number_. cbn [list_ascii_of_string]. rewrite trim_id.
    2:{ constructor; [split; [reflexivity|vm_compute; reflexivity]|].
        eapply Forall_impl; [exact Hd|]. apply digit_not_space. }
    cbv beta iota.
    rewrite unsigned_decimal_digits, Hv;
      [reflexivity|by destruct (String_ _)|exact Hd|rewrite Hv; lia].
Qed.

(** *** Tokens *)

(** *** Splitting a token *)

Lemma split_free c s : free_of c s → split c s = [s].
Proof.
  unfold free_of. induction s as [|x s IH]; [done|].
  cbn [list_ascii_of_string split]. intros Hfree.
  apply not_elem_of_cons in Hfree as [Hne Hfree].
  rewrite (proj2 (Ascii.eqb_neq x c)) by congruence. now rewrite IH.
Qed.

Lemma split_append c a b :
  free_of c a → split c (a +:+ String c b) = a :: split c b.
Proof.
  unfold free_of. induction a as [|x a IH]; cbn [list_ascii_of_string]; intros Hfree.
  - change (""%string +:+ String c b) with (String c b). cbn [split].
    now rewrite Ascii.eqb_refl.
  - apply not_elem_of_cons in Hfree as [Hne Hfree].
    change (String x a +:+ String c b) with (String x (a +:+ String c b)).
    cbn [split]. rewrite (proj2 (Ascii.eqb_neq x c)) by congruence.
    now rewrite IH.
Qed.

Lemma free_of_forallb c s :
  forallb (λ x, negb (Ascii.eqb x c)) (list_ascii_of_string s) = true → free_of c s.
Proof.
  unfold free_of. induction (list_ascii_of_string s) as [|x l IH]; simpl.
  - intros _. apply not_elem_of_nil.
  - intros H. apply andb_true_iff in H as [Hx Hl]. apply not_elem_of_cons. split.
    + intros ->. now rewrite Ascii.eqb_refl in Hx.
    + now apply IH.
Qed.

Lemma digits_free c s : is_digit c = false → all_digits s → free_of c s.
Proof.
  unfold all_digits, free_of. intros Hc Hd Hin.
  rewrite Forall_forall in Hd. specialize (Hd c Hin). congruence.
Qed.

Lemma String_free c z :
  is_digit c = false → c ≠ "-"%char → free_of c (String_ z).
Proof.
  intros Hc Hm. destruct (Z.le_gt_cases 0 z) as [Hz|Hz].
  - apply digits_free; [done|]. now apply String_nonneg.
  - destruct z as [|p|p]; try lia.
    assert (String_ (Zneg p) = String "-" (String_ (Zpos p))) as ->.
    { rewrite String_pos. unfold String_.
      cbn [Z.to_int NilZero.string_of_int NilZero.string_of_uint].
      pose proof (Unsigned.to_uint_nonnil p). now destruct (Pos.to_uint p). }
    unfold free_of. cbn [list_ascii_of_string]. apply not_elem_of_cons. split; [done|].
    apply digits_free; [done|]. apply String_nonneg. lia.
Qed.

(** [`${n}`] for a whole number of less than 22 digits. *)
Lemma show_num_ofZ env z : Z.abs z < 10 ^ 21 → show_num env (ofZ z) = String_ z.
Proof.
  intros Hz. unfold show_num, ofZ. rewrite Qred_inject_Z. cbn [inject_Z Qnum Qden].
  now rewrite (proj2 (Z.ltb_lt _ _) Hz).
Qed.

(** X19. A time value written into a token by a template literal or by
    [String] is read back by [Number] as the same number. *)
Theorem timestamp_survives_the_token env z :
  Z.abs z <= maxTime →
  Number_ (show_num env (ofZ z)) = ofZ z ∧ Number_ (String_ z) = ofZ z.
Proof.
  intros Hz. rewrite show_num_ofZ by (unfold maxTime in Hz; lia).
  split; apply Number_of_String; unfold maxTime in Hz; lia.
Qed.

(** X20. The date step reads the window back from the token the [aoo]
    command wrote for a run whose start and end are time values: the hour
    menu it answers with is the one of the run's start and end and of the
    date selected. *)
Theorem date_step_reads_the_window_back env startMs endMs dates i dateISO :
  Z.abs startMs <= maxTime → Z.abs endMs <= maxTime →
  head (values i) = Some dateISO → dateISO ≠ ""%string →
  on_date_chosen env i (customId (buildDateSelect startMs endMs dates)) =
    respond env
      (Update ("Selected date: **" +:+ dateISO +:+ "** (UTC)" +:+ nl +:+
               "Now select the hour (UTC) you want AOO to start.")
              [buildHourSelect env (ofZ startMs) (ofZ endMs) dateISO]).
Proof.
  intros Hs He Hhead Hne. unfold on_date_chosen, buildDateSelect. cbn [customId].
  assert (split "|" ("aoo_date|" +:+ String_ startMs +:+ "|" +:+ String_ endMs) =
          ["aoo_date"%string; String_ startMs; String_ endMs]) as ->.
  { change ("aoo_date|" +:+ String_ startMs +:+ "|" +:+ String_ endMs)
      with ("aoo_date" +:+ String "|" (String_ startMs +:+ String "|" (String_ endMs))).
    rewrite split_append by (now apply free_of_forallb).
    rewrite split_append by (now apply String_free).
    now rewrite split_free by (now apply String_free). }
  rewrite Hhead. cbn [lookup list_lookup Number_opt].
  rewrite !Number_of_String by (unfold maxTime in *; lia). now destruct dateISO.
Qed.

(** *** Dates as strings *)

(** A number below 100 padded to two digits. *)
Lemma padStart2_digits k :
  0 <= k →
  padStart2 (String_ k) ≠ ""%string ∧ all_digits (padStart2 (String_ k)) ∧
  dec_value (list_ascii_of_string (padStart2 (String_ k))) 0 = k.
Proof.
  intros Hk. destruct (String_nonneg k Hk) as (Hne & Hd & Hv).
  unfold padStart2. destruct (String_ k) as [|c [|c2 r]]; [done| |done].
  split_and!; [done|constructor; [reflexivity|exact Hd]|exact Hv].
Qed.

Lemma num_sub_ofZ z k :
  Z.abs (z - k) <= 2 ^ 53 → num_sub (ofZ z) k = ofZ (z - k).
Proof.
  intros H. unfold num_sub, ofZ. apply round_double_Z; [|exact H].
  unfold Qeq, Qminus, Qplus, Qopp, inject_Z. cbn [Qnum Qden]. lia.
Qed.

Lemma instant_of_isoDateUTC t h :
  0 <= t <= maxTime → Z.abs h <= 100000 →
  instant_of (isoDateUTC t) (ofZ h) = TimeClip (hour_of_date t h).
Proof.
  intros Ht Hh. unfold instant_of, isoDateUTC.
  assert (0 <= Day t <= 100000000) as Hday.
  { unfold Day, msPerDay, maxTime in *. split; Z.div_mod_to_equations; lia. }
  pose proof (YearFromDay_epoch (Day t) (proj1 Hday)) as Hy.
  pose proof (YearFromDay_range (Day t) ltac:(lia)) as Hy'.
  fold (YearFromTime t) in Hy, Hy'.
  pose proof (MonthFromTime_range t) as Hm. pose proof (DateFromTime_range t) as Hdt.
  destruct (String_nonneg (YearFromTime t) ltac:(lia)) as (Hy1 & Hy2 & Hy3).
  destruct (padStart2_digits (MonthFromTime t + 1) ltac:(lia)) as (Hm1 & Hm2 & Hm3).
  destruct (padStart2_digits (DateFromTime t) ltac:(lia)) as (Hd1 & Hd2 & Hd3).
  set (yyyy := String_ (YearFromTime t)) in *.
  set (mm := padStart2 (String_ (MonthFromTime t + 1))) in *.
  set (dd := padStart2 (String_ (DateFromTime t))) in *.
  change (yyyy +:+ "-" +:+ mm +:+ "-" +:+ dd)
    with (yyyy +:+ String "-" (mm +:+ String "-" dd)).
  rewrite !split_append, split_free by (now apply digits_free).
  cbn [map lookup list_lookup default].
  rewrite (Number_digits yyyy), (Number_digits mm), (Number_digits dd), Hy3, Hm3, Hd3
    by (try done; rewrite ?Hy3, ?Hm3, ?Hd3; lia).
  unfold id. rewrite num_sub_ofZ by lia.
  replace (MonthFromTime t + 1 - 1) with (MonthFromTime t) by lia.
  assert (MakeFullYear (YearFromTime t) = YearFromTime t) as Hfull.
  { unfold MakeFullYear.
    replace ((0 <=? YearFromTime t) && (YearFromTime t <=? 99)) with false; [done|].
    symmetry. apply andb_false_iff. right. apply Z.leb_gt. lia. }
  pose proof (MakeDay_roundtrip t 0) as Hr. rewrite Z.add_0_r in Hr.
  rewrite Date_UTC_ofZ; rewrite ?Hfull, ?Hr; try lia.
  unfold hour_of_date, MakeDate, MakeTime. f_equal. lia.
Qed.

(** X21. A date written by [isoDateUTC] and read back by the hour step with
    an hour gives that hour of that UTC date; two instants are written as
    the same date exactly when they fall on the same UTC day. *)
Theorem date_string_round_trip t t' h :
  0 <= t <= maxTime → 0 <= t' <= maxTime → 0 <= h < 24 →
  instant_of (isoDateUTC t) (ofZ h) = TimeClip (hour_of_date t h) ∧
  (isoDateUTC t = isoDateUTC t' ↔ Day t = Day t').
Proof.
  intros Ht Ht' Hh. split; [apply instant_of_isoDateUTC; lia|]. split.
  - intros Heq.
    pose proof (instant_of_isoDateUTC t 0 ltac:(lia) ltac:(lia)) as H1.
    pose proof (instant_of_isoDateUTC t' 0 ltac:(lia) ltac:(lia)) as H2.
    rewrite Heq, H2 in H1. unfold hour_of_date, TimeClip, maxTime, msPerDay, msPerHour in *.
    assert (0 <= Day t <= 100000000 ∧ 0 <= Day t' <= 100000000) as [Hd Hd'].
    { unfold Day, msPerDay. split; Z.div_mod_to_equations; lia. }
    rewrite !(proj2 (Z.leb_le _ _)) in H1 by lia. injection H1. lia.
  - intros Heq. unfold isoDateUTC, DateFromTime, MonthFromTime, InLeapYear,
      DayWithinYear, YearFromTime. now rewrite Heq.
Qed.

(** *** The hour menu and the hour step *)

Lemma in_window_ofZ t s e :
  in_window (Some t) (ofZ s) (ofZ e) = (s <=? t) && (t <? e).
Proof.
  unfold in_window, ge_num, lt_num, ofZ. rewrite !Qle_bool_inject_Z.
  now rewrite Z.ltb_antisym.
Qed.

Lemma String_not_none h : 0 <= h → String.eqb (String_ h) "none" = false.
Proof.
  intros Hh. apply String.eqb_neq. intros Heq.
  destruct (String_nonneg h Hh) as (_ & Hd & _). unfold all_digits in Hd.
  rewrite Heq in Hd. apply Forall_cons in Hd as [Hd _]. discriminate Hd.
Qed.

Lemma hour_token env startMs endMs dateISO :
  Z.abs startMs <= maxTime → Z.abs endMs <= maxTime → free_of "|" dateISO →
  split "|" (customId (buildHourSelect env (ofZ startMs) (ofZ endMs) dateISO)) =
    ["aoo_hour"%string; String_ startMs; String_ endMs; dateISO].
Proof.
  intros Hs He Hfree. unfold buildHourSelect. cbn [customId].
  rewrite !show_num_ofZ by (unfold maxTime in *; lia).
  change ("aoo_hour|" +:+ String_ startMs +:+ "|" +:+ String_ endMs +:+ "|" +:+ dateISO)
    with ("aoo_hour" +:+ String "|" (String_ startMs +:+
            String "|" (String_ endMs +:+ String "|" dateISO))).
  rewrite split_append by (now apply free_of_forallb).
  rewrite !split_append by (now apply String_free).
  now rewrite split_free.
Qed.

(** The options of the hour menu before the sentinel is put in. *)
Lemma elem_of_hour_options (dateISO : string) (startMs endMs : num) label value :
  (label, value) ∈
    omap (λ h, if in_window (instant_of dateISO (ofZ h)) startMs endMs
               then Some (padStart2 (String_ h) +:+ ":00 UTC", String_ h)
               else None)
         (map Z.of_nat (seq 0 24)) →
  ∃ h, 0 <= h < 24 ∧ value = String_ h ∧
       in_window (instant_of dateISO (ofZ h)) startMs endMs = true.
Proof.
  intros Hin. apply list_elem_of_omap in Hin as (h & Hh & Hf).
  apply list_elem_of_In, in_map_iff in Hh as (n & <- & Hn). apply in_seq in Hn.
  exists (Z.of_nat n). destruct (in_window _ _ _); [|discriminate].
  injection Hf as <- <-. split_and!; try done; lia.
Qed.

(** The hour step on a selection that is neither empty nor the sentinel,
    under a token with a date part. *)
Lemma rejection_of_hour i id value dateISO :
  head (values i) = Some value → value ≠ ""%string →
  String.eqb value "none" = false →
  split "|" id !! 3%nat = Some dateISO →
  rejection i id =
    if in_window (instant_of dateISO (Number_ value))
                 (Number_opt (split "|" id !! 1%nat))
                 (Number_opt (split "|" id !! 2%nat))
    then None else Some OutsideWindow.
Proof.
  intros Hhead Hne Hnone Hdate. unfold rejection. rewrite Hhead.
  destruct value as [|c r]; [done|]. now rewrite Hnone, Hdate.
Qed.

Lemma rejection_of_sentinel i id :
  head (values i) = Some "none"%string → rejection i id = Some NoHour.
Proof. intros Hhead. unfold rejection. now rewrite Hhead. Qed.

(** The options of the hour menu, the sentinel put in. *)
Lemma buildHourSelect_options env startMs endMs dateISO :
  options (buildHourSelect env startMs endMs dateISO) =
    match omap (λ h, if in_window (instant_of dateISO (ofZ h)) startMs endMs
               then Some (padStart2 (String_ h) +:+ ":00 UTC", String_ h)
               else None)
         (map Z.of_nat (seq 0 24)) with
    | [] => [("No valid hours", "none")]%string
    | o :: os => o :: os
    end.
Proof.
  unfold buildHourSelect.
  generalize (omap (λ h, if in_window (instant_of dateISO (ofZ h)) startMs endMs
               then Some (padStart2 (String_ h) +:+ ":00 UTC", String_ h)
               else None)
         (map Z.of_nat (seq 0 24))).
  intros opts. cbn [options]. now destruct opts.
Qed.

(** An option of a menu that shows a sentinel when it is empty. *)
Lemma elem_of_sentinel_or {A} (x s : A) (opts : list A) :
  x ∈ match opts with [] => [s] | o :: os => o :: os end →
  x = s ∧ opts = [] ∨ x ∈ opts.
Proof.
  destruct opts as [|o os]; intros Hin; [left|now right].
  apply list_elem_of_singleton in Hin. done.
Qed.

(** X22. Whatever the hour menu offers is accepted by the hour step: an
    option of the menu built for a window and a date, selected under the
    menu's own token, denotes an instant of the window and is not turned
    down; the only exception is the sentinel of an empty menu, which is
    answered as no hour. *)
Theorem offered_hour_is_accepted env startMs endMs dateISO i label value :
  Z.abs startMs <= maxTime → Z.abs endMs <= maxTime → free_of "|" dateISO →
  let menu := buildHourSelect env (ofZ startMs) (ofZ endMs) dateISO in
  (label, value) ∈ options menu →
  head (values i) = Some value →
  if String.eqb value "none" then rejection i (customId menu) = Some NoHour
  else
    ∃ h t, 0 <= h < 24 ∧ value = String_ h ∧
           split "|" (customId menu) !! 3%nat = Some dateISO ∧
           instant_of dateISO (Number_ value) = Some t ∧
           startMs <= t < endMs ∧
           rejection i (customId menu) = None.
Proof.
  intros Hs He Hfree menu Hin Hhead.
  pose proof (hour_token env startMs endMs dateISO Hs He Hfree) as Htoken.
  fold menu in Htoken.
  assert (value = "none"%string ∨
          ∃ h, 0 <= h < 24 ∧ value = String_ h ∧
               in_window (instant_of dateISO (ofZ h)) (ofZ startMs) (ofZ endMs) = true)
    as [->|(h & Hh & -> & Hwin)].
  { subst menu. rewrite buildHourSelect_options in Hin.
    apply elem_of_sentinel_or in Hin as [[Hx _]|Hin].
    - left. now injection Hx.
    - right. now apply elem_of_hour_options in Hin. }
  - rewrite String.eqb_refl. now apply rejection_of_sentinel.
  - generalize dependent (customId menu). intros id Htoken.
    rewrite (String_not_none h) by lia.
    destruct (String_nonneg h ltac:(lia)) as (Hne & _).
    assert (split "|" id !! 3%nat = Some dateISO) as Hdate by now rewrite Htoken.
    rewrite (rejection_of_hour i id (String_ h) dateISO Hhead Hne
               (String_not_none h ltac:(lia)) Hdate).
    rewrite Htoken. cbn [lookup list_lookup Number_opt].
    unfold maxTime in Hs, He.
    rewrite !Number_of_String by lia. rewrite Hwin.
    destruct (instant_of dateISO (ofZ h)) as [t|] eqn:Hinst; [|discriminate].
    rewrite in_window_ofZ in Hwin. apply andb_true_iff in Hwin as [H1 H2].
    apply Z.leb_le in H1. apply Z.ltb_lt in H2.
    exists h, t. split_and!; try done; lia.
Qed.

(** X23. The hour menu of a UTC date offers exactly the whole hours of that
    date that lie in the window, in order, or the sentinel when there is
    none. *)
Theorem hour_menu_lists_the_hours_in_the_window env startMs endMs t :
  0 <= t → t + msPerDay <= maxTime →
  let hs := List.filter (λ h, (startMs <=? hour_of_date t h) && (hour_of_date t h <? endMs))
                        (map Z.of_nat (seq 0 24)) in
  options (buildHourSelect env (ofZ startMs) (ofZ endMs) (isoDateUTC t)) =
    match hs with
    | [] => [("No valid hours"%string, "none"%string)]
    | _ => map (λ h, (padStart2 (String_ h) +:+ ":00 UTC", String_ h)) hs
    end.
Proof.
  intros Ht Hmax hs. subst hs. unfold buildHourSelect. cbn [options].
  assert (∀ l : list Z, Forall (λ h, 0 <= h < 24) l →
            omap (λ h, if in_window (instant_of (isoDateUTC t) (ofZ h))
                            (ofZ startMs) (ofZ endMs)
                       then Some (padStart2 (String_ h) +:+ ":00 UTC", String_ h)
                       else None) l =
            map (λ h, (padStart2 (String_ h) +:+ ":00 UTC", String_ h))
              (List.filter (λ h, (startMs <=? hour_of_date t h) &&
                                 (hour_of_date t h <? endMs)) l)) as Hopts.
  { induction 1 as [|h l Hh _ IH]; [done|]. cbn [omap list_omap List.filter].
    rewrite instant_of_isoDateUTC by (unfold maxTime, msPerDay in *; lia).
    assert (TimeClip (hour_of_date t h) = Some (hour_of_date t h)) as ->.
    { unfold TimeClip, hour_of_date.
      assert (0 <= Day t * msPerDay <= t) as Hday.
      { unfold Day, msPerDay. Z.div_mod_to_equations. lia. }
      unfold maxTime, msPerDay, msPerHour in *.
      rewrite (proj2 (Z.leb_le _ _)); [done|lia]. }
    rewrite in_window_ofZ.
    destruct ((startMs <=? _) && (_ <? endMs)); cbn [map]; [f_equal|]; exact IH. }
  rewrite Hopts.
  2:{ apply Forall_forall. intros h Hh.
      apply list_elem_of_In, in_map_iff in Hh as (n & <- & Hn). apply in_seq in Hn. lia. }
  now destruct (List.filter _ _).
Qed.

(** *** Durations *)

(** X24. The difference of two time values is shown in days, hours and
    minutes of its whole minutes, rounded down, hours below 24 and minutes
    below 60; a duration of less than a minute, a negative one included,
    reads [0m]. *)
Theorem formatDuration_whole_minutes ms :
  - 2 * maxTime <= ms <= 2 * maxTime →
  let m := Z.max 0 (ms / 60000) in
  formatDuration ms =
    join " " ((if m / 1440 =? 0 then [] else [String_ (m / 1440) +:+ "d"]) ++
              (if (m / 60) mod 24 =? 0 then [] else [String_ ((m / 60) mod 24) +:+ "h"]) ++
              [String_ (m mod 60) +:+ "m"]) ∧
  (ms < 60000 → formatDuration ms = "0m"%string).
Proof.
  intros _. cbv zeta.
  assert (∀ s, s = Z.max 0 (ms / 1000) →
            s / 86400 = Z.max 0 (ms / 60000) / 1440 ∧
            s mod 86400 / 3600 = (Z.max 0 (ms / 60000) / 60) mod 24 ∧
            s mod 3600 / 60 = Z.max 0 (ms / 60000) mod 60) as Harith.
  { intros s ->. Z.div_mod_to_equations. lia. }
  destruct (Harith _ eq_refl) as (Hd & Hh & Hm).
  unfold formatDuration. cbv zeta. rewrite Hd, Hh, Hm. split; [reflexivity|].
  intros Hlt. assert (Z.max 0 (ms / 60000) = 0) as -> by (Z.div_mod_to_equations; lia).
  reflexivity.
Qed.

(** *** Who may use the commands *)

(** X25. Until an access role is set, the administrators are the members
    who may use the commands; once [set_access_role] has run, holding the
    role decides, for an administrator as for anyone else. *)
Theorem access_role_overrides_administrator env id shown channel w m :
  id ≠ ""%string →
  let w' := exec env (OpConfigCommand "set_access_role" (Some (id, shown)) channel) w in
  (accessRoleId (config (state w)) = None →
   canUseCommands (state w) (Some m) = administrator m) ∧
  accessRoleId (config (state w')) = Some id ∧
  canUseCommands (state w') (Some m) = bool_decide (id ∈ roles m).
Proof.
  intros Hne w'. split.
  { intros Hnone. unfold canUseCommands. now rewrite Hnone. }
  assert (accessRoleId (config (state w')) = Some id) as Hrole.
  { subst w'. cbn [exec]. unfold config_command.
    change (String.eqb "set_access_role" "set_access_role") with true. cbv iota beta zeta.
    unfold mbind, M_bind, modify_state, with_state, saveState, respond.
    cbn [state tick]. 
    repeat match goal with |- context [if ?b then _ else _] => destruct b end;
      reflexivity. }
  split; [exact Hrole|]. unfold canUseCommands. rewrite Hrole. now destruct id.
Qed.

(** *** From the selection to the reminders *)

Lemma hour_step_queue env nowMs i id w hourStr dateISO t :
  hour_selection w i id →
  head (values i) = Some hourStr →
  rejection i id = None →
  split "|" id !! 3%nat = Some dateISO →
  instant_of dateISO (Number_ hourStr) = Some t →
  let group := Some (group_of i) in
  let channel := interaction_channelId i in
  ∃ n30 n10,
    scheduled (state (snd (interactionCreate env nowMs i w))) =
      List.filter (survives group) (scheduled (state w)) ++
      (if nowMs <? t - 30 * 60 * 1000
       then [new_job env n30 channel (t - 30 * 60 * 1000) (reminder30 env t) group]
       else []) ++
      (if nowMs <? t - 10 * 60 * 1000
       then [new_job env n10 channel (t - 10 * 60 * 1000) (reminder10 env t) group]
       else []).
Proof.
  intros Hsel Hhead Hrej Hdate Hinst group channel.
  set (queue := λ w : World, scheduled (state w)).
  pose proof (unchanged_respond queue env ltac:(intros; reflexivity)) as Hresp.
  assert (unchanged queue
            (console_error "Interaction error:";;
             try_catch (when (isRepliable i)
                          (respond env (Reply "Error handling selection." true [])))
                       (λ _, mret tt))) as Hhandler.
  { apply unchanged_bind; [now intros []|intros _].
    apply unchanged_try_catch; [apply unchanged_when, Hresp|intros; apply unchanged_ret]. }
  assert (∀ r w1, queue (snd (try_catch (respond env r)
            (λ _, console_error "Interaction error:";;
                  try_catch (when (isRepliable i)
                     (respond env (Reply "Error handling selection." true [])))
                     (λ _, mret tt)) w1)) = queue w1) as Hend.
  { intros r w1. apply (unchanged_try_catch queue); [apply Hresp|intros _; apply Hhandler]. }
  assert (∃ r w3 n30 n10,
            on_hour_chosen env nowMs i id w = respond env r w3 ∧
            queue w3 =
              List.filter (survives group) (scheduled (state w)) ++
              (if nowMs <? t - 30 * 60 * 1000
               then [new_job env n30 channel (t - 30 * 60 * 1000) (reminder30 env t) group]
               else []) ++
              (if nowMs <? t - 10 * 60 * 1000
               then [new_job env n10 channel (t - 10 * 60 * 1000) (reminder10 env t) group]
               else [])) as (r & w3 & n30 & n10 & Heq & Hq3).
  { unfold rejection in Hrej. unfold on_hour_chosen.
    rewrite Hhead in *. destruct hourStr as [|c s]; [discriminate|].
    destruct (String.eqb (String c s) "none"); [discriminate|].
    rewrite Hdate in *. rewrite Hinst in *. unfold in_window in Hrej.
    destruct (ge_num t _ && lt_num t _); [|discriminate]. cbn [negb].
    fold (group_of i). fold group. fold channel.
    fold (reminder30 env t). fold (reminder10 env t).
    unfold mbind, M_bind.
    destruct (removeScheduledByGroupKey_spec env group w) as
      (w1 & Hr1 & Hq1 & _); [reflexivity|].
    rewrite Hr1.
    destruct (nowMs <? t - 30 * 60 * 1000);
      destruct (nowMs <? t - 10 * 60 * 1000);
      unfold mret, M_ret; cbv beta iota;
      repeat match goal with
      | |- context [schedulePing env ?ch ?t ?m ?g ?w0] =>
          let w2 := fresh "w" in let Hr := fresh "Hr" in
          let Hq := fresh "Hq" in
          destruct (schedulePing_spec env ch t m g w0)
            as (w2 & Hr & Hq & _);
          rewrite Hr; unfold mret, M_ret; cbv beta iota
      end;
      eexists _, _, _, _; (split; [reflexivity|]); unfold queue;
      repeat match goal with H : scheduled _ = _ |- _ => rewrite H; clear H end;
      rewrite <- ?app_assoc, ?app_nil_r; reflexivity. }
  rewrite (interactionCreate_hour env nowMs i id w Hsel).
  unfold try_catch at 1. rewrite Heq. exists n30, n10. rewrite <- Hq3.
  exact (Hend r w3).
  Unshelve. all: exact 0%nat.
Qed.

(** X26. From the selection to the reminders: after an accepted hour
    selection made more than half an hour before the start [t], a sweep at
    any instant from [t - 10 min] on delivers, when the gateway works, the
    other due jobs of the queue and then the 30-minute and the 10-minute
    reminder on the channel of the selection, and none of them stays in the
    queue. *)
Theorem selected_hour_reminders_are_delivered
    env nowMs i id w hourStr dateISO t sweepMs :
  healthy env →
  hour_selection w i id →
  head (values i) = Some hourStr →
  rejection i id = None →
  split "|" id !! 3%nat = Some dateISO →
  instant_of dateISO (Number_ hourStr) = Some t →
  nowMs < t - 30 * 60 * 1000 →
  t - 10 * 60 * 1000 <= sweepMs →
  let kept := List.filter (survives (Some (group_of i))) (scheduled (state w)) in
  let w1 := snd (interactionCreate env nowMs i w) in
  let w2 := snd (processScheduled env sweepMs w1) in
  map (λ d, (to d, body d)) (new_deliveries w1 w2) =
    map (λ x, (channelId x, message x)) (List.filter (is_due sweepMs) kept) ++
    [(interaction_channelId i, reminder30 env t);
     (interaction_channelId i, reminder10 env t)] ∧
  scheduled (state w2) = List.filter (pending sweepMs) kept.
Proof.
  intros Hh Hsel Hhead Hrej Hdate Hinst Hearly Hlate kept w1 w2.
  destruct (hour_step_queue env nowMs i id w hourStr dateISO t Hsel Hhead Hrej Hdate Hinst)
    as (n30 & n10 & Hq).
  rewrite !(proj2 (Z.ltb_lt _ _)) in Hq by lia. fold w1 kept in Hq.
  destruct (processScheduled_spec env sweepMs w1)
    as (w1' & w2' & _ & _ & Hrun & Hq2 & _ & _ & _ & _ & _ & _ & _ & _
        & delta & Hout & _ & Hhealthy).
  subst w2. rewrite Hrun. cbn [snd]. destruct (Hhealthy Hh) as [-> _].
  rewrite (new_deliveries_app _ _ _ Hout), Hq2, Hq.
  rewrite !List.filter_app. cbn [List.filter app].
  unfold is_due, pending, new_job. cbn [sent runAtMs negb andb].
  rewrite !(proj2 (Z.leb_le _ _)), !(proj2 (Z.ltb_ge _ _)) by lia.
  rewrite !map_app, !map_map, !app_nil_r. split; reflexivity.
Qed.

(** *** The disk *)

Section Disk.

(** The environment of the run and the other disk. *)
Context (env : Env) (write : nat → bool).

Let env' : Env := with_disk write env.

Lemma agree_ret {A} (a : A) : agree (mret a) (mret a).
Proof. now intros w1 w2 H. Qed.

Lemma agree_throw {A} e : agree (@throw A e) (@throw A e).
Proof. now intros w1 w2 H. Qed.

Lemma agree_bind {A B} (m1 m2 : M A) (f1 f2 : A → M B) :
  agree m1 m2 → (∀ a, agree (f1 a) (f2 a)) → agree (m1 ≫= f1) (m2 ≫= f2).
Proof.
  intros Hm Hf w1 w2 Hw. destruct (Hm w1 w2 Hw) as [Hr Hw']. unfold mbind, M_bind.
  destruct (m1 w1) as [[a|e] w1'], (m2 w2) as [[a'|e'] w2']; simpl in *;
    try discriminate.
  - injection Hr as <-. now apply Hf.
  - injection Hr as <-. done.
Qed.

Lemma agree_try_catch {A} (m1 m2 : M A) h1 h2 :
  agree m1 m2 → (∀ e, agree (h1 e) (h2 e)) →
  agree (try_catch m1 h1) (try_catch m2 h2).
Proof.
  intros Hm Hh w1 w2 Hw. destruct (Hm w1 w2 Hw) as [Hr Hw']. unfold try_catch.
  destruct (m1 w1) as [[a|e] w1'], (m2 w2) as [[a'|e'] w2']; simpl in *;
    try discriminate.
  - done.
  - injection Hr as <-. now apply Hh.
Qed.

Lemma agree_when c m1 m2 : agree m1 m2 → agree (when c m1) (when c m2).
Proof. intros Hm. destruct c; [done|apply agree_ret]. Qed.

Lemma agree_get_state : agree get_state get_state.
Proof. intros w1 w2 Hw. unfold get_state. simpl. split; [|done]. f_equal. apply Hw. Qed.

Lemma agree_modify_state f : agree (modify_state f) (modify_state f).
Proof.
  intros w1 w2 (Hst & Hsv & Hrun & Hout & Hresp & Htick).
  unfold modify_state, with_state, same_but_disk. simpl.
  rewrite Hst. split_and!; done.
Qed.

Lemma agree_console_error line : agree (console_error line) (console_error line).
Proof. intros w1 w2 Hw. unfold console_error, same_but_disk in *. simpl. split; done. Qed.

(** The one place where the two runs differ. *)
Lemma agree_saveState : agree (saveState env) (saveState env').
Proof.
  intros w1 w2 (Hst & Hsv & Hrun & Hout & Hresp & Htick).
  unfold saveState, same_but_disk.
  destruct (write_ok env (tick w1)), (write_ok env' (tick w2)); simpl;
    rewrite Hsv, Htick; split_and!; done.
Qed.

Lemma agree_channels_fetch id : agree (channels_fetch env id) (channels_fetch env' id).
Proof.
  intros w1 w2 (Hst & Hsv & Hrun & Hout & Hresp & Htick).
  unfold channels_fetch, same_but_disk. cbn [env' with_disk fetch_channel].
  rewrite Htick. destruct (fetch_channel env (tick w2) id); simpl;
    rewrite Htick; split_and!; done.
Qed.

Lemma agree_channel_send ch text why :
  agree (channel_send env ch text why) (channel_send env' ch text why).
Proof.
  intros w1 w2 (Hst & Hsv & Hrun & Hout & Hresp & Htick).
  unfold channel_send, same_but_disk. cbn [env' with_disk send_ok].
  rewrite Htick. destruct (send_ok env (tick w2)); simpl;
    rewrite ?Htick, ?Hout; split_and!; done.
Qed.

Lemma agree_respond r : agree (respond env r) (respond env' r).
Proof.
  intros w1 w2 (Hst & Hsv & Hrun & Hout & Hresp & Htick).
  unfold respond, same_but_disk. cbn [env' with_disk reply_ok].
  rewrite Htick. destruct (reply_ok env (tick w2)); simpl;
    rewrite ?Htick, ?Hresp; split_and!; done.
Qed.

Lemma agree_Math_random : agree (Math_random env) (Math_random env').
Proof.
  intros w1 w2 (Hst & Hsv & Hrun & Hout & Hresp & Htick).
  unfold Math_random, same_but_disk. cbn [env' with_disk random]. simpl.
  rewrite Htick. split_and!; done.
Qed.

Lemma agree_fetchEvents feed : agree (fetchEvents feed) (fetchEvents feed).
Proof. destruct feed; [apply agree_ret|apply agree_throw]. Qed.

Create HintDb disk.

#[local] Hint Resolve agree_ret agree_throw agree_get_state agree_modify_state
  agree_console_error agree_saveState agree_channels_fetch agree_channel_send
  agree_respond agree_Math_random agree_fetchEvents : disk.

(** Walks through the two runs of a handler side by side. *)
Ltac disk_step :=
  match goal with
  | |- agree (mbind _ _) (mbind _ _) => apply agree_bind; [|intros ?]
  | |- agree (try_catch _ _) (try_catch _ _) => apply agree_try_catch; [|intros ?]
  | |- agree (when _ _) (when _ _) => apply agree_when
  | |- agree (match ?x with _ => _ end) _ => destruct x
  | |- agree (let _ := _ in _) _ => cbv zeta
  | |- agree _ _ => solve [auto with disk]
  end.

Ltac disk_auto := repeat disk_step.

Lemma agree_schedulePing ch t text g :
  agree (schedulePing env ch t text g) (schedulePing env' ch t text g).
Proof. unfold schedulePing. disk_auto. Qed.

Lemma agree_removeScheduledByGroupKey g :
  agree (removeScheduledByGroupKey env g) (removeScheduledByGroupKey env' g).
Proof. unfold removeScheduledByGroupKey. disk_auto. Qed.

Lemma agree_deliver item : agree (deliver env item) (deliver env' item).
Proof. unfold deliver. disk_auto. Qed.

Lemma agree_sweep_loop nowMs indices : ∀ changed,
  agree (sweep_loop env nowMs indices changed) (sweep_loop env' nowMs indices changed).
Proof.
  induction indices as [|i rest IH]; intros changed; simpl.
  - apply agree_ret.
  - apply agree_bind; [|intros c; apply IH].
    unfold sweep_item. pose proof agree_deliver. disk_auto.
Qed.

Lemma agree_processScheduled nowMs :
  agree (processScheduled env nowMs) (processScheduled env' nowMs).
Proof. unfold processScheduled. pose proof (agree_sweep_loop nowMs). disk_auto. Qed.

Lemma agree_run_items ch now items :
  agree (run_items env ch now items) (run_items env' ch now items).
Proof.
  induction items as [|it rest IH]; simpl; [apply agree_ret|].
  unfold fire. disk_auto.
Qed.

Lemma agree_runCheck now feed : agree (runCheck env now feed) (runCheck env' now feed).
Proof.
  assert (agree (try_catch (runCheck_body env now feed)
                   (λ _, console_error "runCheck error:"))
                (try_catch (runCheck_body env' now feed)
                   (λ _, console_error "runCheck error:"))) as Hbody.
  { unfold runCheck_body. apply agree_try_catch; [|auto with disk].
    apply agree_bind; [auto with disk|intros st].
    destruct (getPingChannelId st None) as [[|c ch]|]; try apply agree_ret.
    apply agree_bind; [auto with disk|intros [| |]]; try apply agree_ret.
    apply agree_bind; [auto with disk|intros evs].
    intros w1 w2 Hw. rewrite !for_each_announce. now apply agree_run_items. }
  intros w1 w2 Hw. unfold runCheck.
  destruct Hw as (Hst & Hsv & Hrun & Hout & Hresp & Htick). rewrite Hrun.
  destruct (runCheckRunning w2) eqn:Hrun2.
  { split; [done|]. unfold same_but_disk. simpl. rewrite Hrun2. split_and!; done. }
  unfold try_finally.
  destruct (Hbody (with_running true w1) (with_running true w2)) as [Hr Hw'].
  { unfold same_but_disk. simpl. split_and!; done. }
  destruct (try_catch _ _ (with_running true w1)) as [r1 w1'].
  destruct (try_catch _ _ (with_running true w2)) as [r2 w2'].
  simpl in *. split; [done|].
  destruct Hw' as (? & ? & ? & ? & ? & ?). unfold same_but_disk. simpl. split_and!; done.
Qed.

Lemma agree_aoo_command now feed :
  agree (aoo_command env now feed) (aoo_command env' now feed).
Proof. unfold aoo_command, getNextAooRunEvent. disk_auto. Qed.

Lemma agree_config_command cmd role channel :
  agree (config_command env cmd role channel) (config_command env' cmd role channel).
Proof. unfold config_command. disk_auto. Qed.

Lemma agree_interactionCreate nowMs i :
  agree (interactionCreate env nowMs i) (interactionCreate env' nowMs i).
Proof.
  unfold interactionCreate, on_date_chosen, on_hour_chosen.
  pose proof agree_schedulePing. pose proof agree_removeScheduledByGroupKey.
  disk_auto.
Qed.

Lemma agree_exec op w1 w2 :
  same_but_disk w1 w2 → same_but_disk (exec env op w1) (exec env' op w2).
Proof.
  intros Hw. destruct op; simpl.
  - now apply agree_runCheck.
  - now apply agree_processScheduled.
  - now apply agree_schedulePing.
  - now apply agree_removeScheduledByGroupKey.
  - now apply agree_interactionCreate.
  - now apply agree_aoo_command.
  - now apply agree_config_command.
Qed.

End Disk.

(** X27. The disk decides nothing but the file: run with a disk that
    answers differently, any sequence of operations leaves the same document
    in memory, sends the same messages and gives the same answers; a failed
    write only costs the file and a line on the console. *)
Theorem disk_decides_only_the_file env write ops w :
  let w1 := foldl (λ w op, exec env op w) w ops in
  let w2 := foldl (λ w op, exec (with_disk write env) op w) w ops in
  state w1 = state w2 ∧ outbox w1 = outbox w2 ∧ responses w1 = responses w2.
Proof.
  cbv zeta.
  assert (∀ w1 w2, same_but_disk w1 w2 →
            same_but_disk (foldl (λ w op, exec env op w) w1 ops)
                          (foldl (λ w op, exec (with_disk write env) op w) w2 ops)) as H.
  { induction ops as [|op ops IH]; intros w1 w2 Hw; simpl; [done|].
    apply IH. now apply agree_exec. }
  destruct (H w w) as (? & _ & _ & ? & ? & _); [unfold same_but_disk; split_and!; done|]. done.
Qed.

(* ================================================================= *)
(** ** The further properties on concrete scenarios *)
(* ================================================================= *)

(** A poll of the fresh store when the calendar cannot be fetched. *)
Lemma runCheck_without_channel_or_calendar_witness :
  let w' := snd (runCheck env_ok 1736467200000 None world0) in
  console w' = ["runCheck error:"%string] ∧ state w' = state world0 ∧
  runCheckRunning w' = false.
Proof.
  destruct (runCheck_without_channel_or_calendar env_ok 1736467200000 None world0
              eq_refl) as [_ H].
  destruct (H "announcements"%string eq_refl) as [_ H2].
  destruct H2 as (Hs & _ & _ & _ & Hr & Hc); [right; split; reflexivity|].
  split_and!; [exact Hc|exact Hs|exact Hr].
Defined.

(** A poll over a feed that holds only the run R1. *)
Lemma unrecognised_events_are_ignored_witness :
  runCheck env_ok 1738404000000 (Some [R1]) world0 = (Ok tt, next_tick world0).
Proof.
  apply (unrecognised_events_are_ignored env_ok 1738404000000 [R1] world0
           "announcements").
  - repeat split.
  - intros ev type Hev _ Htype. apply list_elem_of_singleton in Hev. subst ev.
    vm_compute in Htype. injection Htype as <-. reflexivity.
Defined.

(** E1 polled for the first time a day after its end. *)
Lemma milestones_exclude_each_other_witness :
  let sent := new_deliveries world0
                (snd (announce env_ok "announcements" 1736726400000 E1 world0)) in
  (length sent ≤ 2)%nat ∧
  ¬ (delivery_of env_ok "announcements" (state world0)
       (mkItem E1 RegistrationWindow Warning) ∈ sent ∧
     delivery_of env_ok "announcements" (state world0)
       (mkItem E1 RegistrationWindow Closed) ∈ sent).
Proof.
  apply (milestones_exclude_each_other env_ok "announcements" 1736726400000 E1
           "ark_registration" RegistrationWindow world0); reflexivity.
Defined.

(** Two sweeps of a queue that holds one job that is not due. *)
Lemma second_sweep_is_idle_witness :
  let w1 := snd (processScheduled env_ok 1738503000000 (world_with [later_job])) in
  processScheduled env_ok 1738503000000 w1 = (Ok tt, w1).
Proof.
  apply (second_sweep_is_idle env_ok env_ok 1738503000000 1738503000000
           (world_with [later_job])). lia.
Defined.

(** A reminder scheduled for an instant that has passed. *)
Lemma past_instant_fires_on_next_sweep_witness :
  let w1 := snd (schedulePing env_ok "war-room" 1738503000000 "late" None world0) in
  let w2 := snd (processScheduled env_ok 1738504200000 w1) in
  map body (new_deliveries w1 w2) = ["late"%string] ∧ scheduled (state w2) = [].
Proof.
  destruct (past_instant_fires_on_next_sweep env_ok "war-room" 1738503000000 "late"
              None 1738504200000 world0) as (id & Hnew & Hq).
  - split; intros; reflexivity.
  - lia.
  - cbv zeta. rewrite Hnew, Hq. split; reflexivity.
Defined.

(** The reminder of user7 is cancelled; what the sweep then delivers is the
    message of the other job. *)
Lemma cancelled_reminder_is_not_delivered_witness :
  ∃ x, x ∈ [later_job; voice_job] ∧ job_delivery voice_job = job_delivery x ∧
       sent x = false ∧ groupKey x ≠ Some "aoo:guild:war-room:user7"%string.
Proof.
  apply (cancelled_reminder_is_not_delivered env_ok env_ok
           (Some "aoo:guild:war-room:user7"%string) 1741000000000
           (world_with [later_job; voice_job]) eq_refl (job_delivery voice_job)).
  apply list_elem_of_In. vm_compute. left. reflexivity.
Defined.

(** The announcement a poll of E1 makes at its start. *)
Lemma poll_announces_only_due_unset_milestones_witness :
  ∃ data ev it channel,
    Some [E1] = Some data ∧ ev ∈ data ∧ ev_type ev = "VEVENT"%string ∧
    it ∈ items_of ev ∧ due 1736467200000 it = true ∧
    flag (state world0) (flag_key it) = false ∧
    pingChannelId (config (state world0)) = Some channel ∧
    delivery_of env_ok "announcements" (state world0)
      (mkItem E1 RegistrationWindow Open) =
      delivery_of env_ok channel (state world0) it.
Proof.
  apply (poll_announces_only_due_unset_milestones env_ok 1736467200000 (Some [E1])
           world0).
  apply list_elem_of_In. vm_compute. left. reflexivity.
Defined.

(** The polls of the end-to-end example, from the fresh store. *)
Lemma milestone_announced_at_most_once_witness :
  announced_once
    (foldl (λ w op, exec env_ok op w) world0
       [OpRunCheck 1736467200000 (Some [E1]); OpRunCheck 1736618400000 (Some [E1]);
        OpRunCheck 1736640000000 (Some [E1]); OpRunCheck 1736726400000 (Some [E1])]).
Proof.
  apply (milestone_announced_at_most_once env_ok). split.
  - constructor.
  - intros key Hkey. now apply elem_of_nil in Hkey.
Defined.

(** A member who is not an administrator selects an hour before an access
    role is set. *)
Lemma only_hour_step_writes_witness :
  let w' := snd (interactionCreate env_ok 1738501200000 pick_14_outsider world0) in
  untouched world0 w' ∧
  responses w' =
    [Reply "❌ Access role not set yet. Only **Admins** can use this menu right now."
           true []].
Proof.
  destruct (only_hour_step_writes env_ok 1738501200000 pick_14_outsider world0)
    as [Hun Hresp]; [reflexivity|].
  split; [exact Hun|]. apply Hresp; reflexivity.
Defined.

(** The tag of E1 written in capitals. *)
Lemma tag_is_a_lower_case_word_witness :
  getEventType E1_capitals = Some "ark_registration"%string ∧
  is_tag "ark_registration" = true.
Proof.
  split; [vm_compute; reflexivity|].
  apply (tag_is_a_lower_case_word E1_capitals). vm_compute. reflexivity.
Defined.

(** E1 and E1 written in capitals have the same tag. *)
Lemma tag_ignores_letter_case_witness : getEventType E1 = getEventType E1_capitals.
Proof. apply (tag_ignores_letter_case E1 E1_capitals); vm_compute; reflexivity. Defined.

(** R1 and its twin start together; R1 comes first in the feed. *)
Lemma first_of_the_earliest_runs_is_picked_witness :
  getNextAooRunEvent 1738000000000 (Some ([E1] ++ R1 :: [R1_twin])) world0 =
    (Ok (Some (mkRun "R1" 1738404000000 1738584000000)), world0).
Proof.
  apply (first_of_the_earliest_runs_is_picked 1738000000000 [E1] R1 [R1_twin] world0).
  - reflexivity.
  - vm_compute. reflexivity.
  - vm_compute. reflexivity.
  - intros e (He & _ & Hrun & _). apply list_elem_of_singleton in He. subst e.
    vm_compute in Hrun. discriminate Hrun.
  - intros e (He & _). apply list_elem_of_singleton in He. subst e.
    vm_compute. discriminate.
Defined.

(** The start of R1, written and read back. *)
Lemma timestamp_survives_the_token_witness :
  Number_ (show_num env_ok (ofZ 1738404000000)) = ofZ 1738404000000 ∧
  Number_ (String_ 1738404000000) = ofZ 1738404000000.
Proof. apply (timestamp_survives_the_token env_ok 1738404000000). vm_compute. discriminate. Defined.

(** The date 2025-02-02 selected under the token of R1. *)
Lemma date_step_reads_the_window_back_witness :
  on_date_chosen env_ok pick_date
    (customId (buildDateSelect 1738404000000 1738584000000
                 (utc_days 1738404000000 1738584000000))) =
    respond env_ok
      (Update ("Selected date: **2025-02-02** (UTC)" +:+ nl +:+
               "Now select the hour (UTC) you want AOO to start.")
              [buildHourSelect env_ok (ofZ 1738404000000) (ofZ 1738584000000)
                 "2025-02-02"]).
Proof.
  apply (date_step_reads_the_window_back env_ok 1738404000000 1738584000000
           (utc_days 1738404000000 1738584000000) pick_date "2025-02-02").
  - vm_compute. discriminate.
  - vm_compute. discriminate.
  - reflexivity.
  - discriminate.
Defined.

(** 2025-02-02 at 13:00 and at 17:30 are written as the same date; hour 14
    of it is 2025-02-02T14:00Z. *)
Lemma date_string_round_trip_witness :
  instant_of (isoDateUTC 1738501200000) (ofZ 14) = Some 1738504800000 ∧
  isoDateUTC 1738501200000 = isoDateUTC 1738517400000.
Proof.
  destruct (date_string_round_trip 1738501200000 1738517400000 14) as [H1 H2].
  - vm_compute. split; discriminate.
  - vm_compute. split; discriminate.
  - lia.
  - split; [rewrite H1; vm_compute; reflexivity|]. apply H2. vm_compute. reflexivity.
Defined.

(** Hour 14 of the menu of 2025-02-02, selected. *)
Lemma offered_hour_is_accepted_witness :
  ∃ h t, 0 <= h < 24 ∧ "14"%string = String_ h ∧
         split "|" (customId (buildHourSelect env_ok (ofZ 1738368000000)
                                (ofZ 1738540800000) "2025-02-02")) !! 3%nat
           = Some "2025-02-02"%string ∧
         instant_of "2025-02-02" (Number_ "14") = Some t ∧
         1738368000000 <= t < 1738540800000 ∧
         rejection pick_14
           (customId (buildHourSelect env_ok (ofZ 1738368000000)
                        (ofZ 1738540800000) "2025-02-02")) = None.
Proof.
  apply (offered_hour_is_accepted env_ok 1738368000000 1738540800000 "2025-02-02"
           pick_14 "14:00 UTC" "14").
  - vm_compute. discriminate.
  - vm_compute. discriminate.
  - apply free_of_forallb. reflexivity.
  - apply list_elem_of_In. vm_compute. do 14 right. left. reflexivity.
  - reflexivity.
Defined.

(** The hour menu of 2025-02-03 under the window of R1. *)
Lemma hour_menu_lists_the_hours_in_the_window_witness :
  map snd (options (buildHourSelect env_ok (ofZ 1738404000000) (ofZ 1738584000000)
                      (isoDateUTC 1738540800000))) =
    ["0"; "1"; "2"; "3"; "4"; "5"; "6"; "7"; "8"; "9"; "10"; "11"]%string.
Proof.
  rewrite (hour_menu_lists_the_hours_in_the_window env_ok 1738404000000 1738584000000
             1738540800000).
  - vm_compute. reflexivity.
  - lia.
  - vm_compute. discriminate.
Defined.

(** Two days, three hours and four minutes; and half a minute. *)
Lemma formatDuration_whole_minutes_witness :
  formatDuration 183840000 = "2d 3h 4m"%string ∧ formatDuration 30000 = "0m"%string.
Proof.
  destruct (formatDuration_whole_minutes 183840000) as [H1 _];
    [vm_compute; split; discriminate|].
  destruct (formatDuration_whole_minutes 30000) as [_ H2];
    [vm_compute; split; discriminate|].
  split; [rewrite H1; vm_compute; reflexivity|apply H2; lia].
Defined.

(** An administrator without the role, before and after [set_access_role]. *)
Lemma access_role_overrides_administrator_witness :
  let w' := exec env_ok (OpConfigCommand "set_access_role"
                           (Some ("42"%string, "@officers"%string)) None) world0 in
  canUseCommands (state world0) (Some admin) = true ∧
  canUseCommands (state w') (Some admin) = false.
Proof.
  destruct (access_role_overrides_administrator env_ok "42" "@officers" None world0
              admin) as (H1 & _ & H2); [discriminate|].
  split; [now rewrite H1|]. cbv zeta. rewrite H2. reflexivity.
Defined.

(** Hour 14 selected at 13:00, swept at 13:50. *)
Lemma selected_hour_reminders_are_delivered_witness :
  let w1 := snd (interactionCreate env_ok 1738501200000 pick_14 world0) in
  let w2 := snd (processScheduled env_ok 1738504200000 w1) in
  map (λ d, (to d, body d)) (new_deliveries w1 w2) =
    [("war-room"%string, reminder30 env_ok 1738504800000);
     ("war-room"%string, reminder10 env_ok 1738504800000)] ∧
  scheduled (state w2) = [].
Proof.
  apply (selected_hour_reminders_are_delivered env_ok 1738501200000 pick_14
           "aoo_hour|1738368000000|1738540800000|2025-02-02" world0 "14" "2025-02-02"
           1738504800000 1738504200000).
  - split; intros; reflexivity.
  - repeat split.
  - reflexivity.
  - vm_compute. reflexivity.
  - reflexivity.
  - vm_compute. reflexivity.
  - lia.
  - lia.
Defined.

(** A poll while another poll holds the guard. *)
Lemma runCheck_returns_and_releases_guard_witness :
  let w := mkWorld (mkState [] config0 ∅) None 0 true [] [] [] 0 in
  runCheck env_ok 1736467200000 (Some [E1]) w = (Ok tt, w).
Proof.
  cbv zeta.
  destruct (runCheck_returns_and_releases_guard env_ok 1736467200000 (Some [E1])
              (mkWorld (mkState [] config0 ∅) None 0 true [] [] [] 0))
    as (w' & Hrun & Hheld & _).
  rewrite Hrun. f_equal. apply Hheld. reflexivity.
Defined.

(** The voice job is due and leaves the queue, though nothing is sent. *)
Lemma reminder_is_delivered_at_most_once_witness :
  voice_job ∉ scheduled (state (snd (processScheduled (env_voice "voice") 1738503000000
                                       (world_with [voice_job; later_job])))).
Proof.
  destruct (reminder_is_delivered_at_most_once (env_voice "voice") 1738503000000
              (world_with [voice_job; later_job])) as [_ H].
  apply H. apply list_elem_of_In. vm_compute. left. reflexivity.
Defined.
